(** * Torque2Warp10: the Torque webhook that forwards readings to Warp10

    The repository holds three variants of one Go program:
    - [main.go]: a handler with no gate and no acknowledgment body;
    - [unnamed/part_000]: a list of users ([Users]), a geolocation gate,
      the elevation in millimetres, the identity label;
    - [unnamed/part_001]: a single configured user, the same gate, and the
      timestamp extended by three zeros.

    Each variant is embedded in a module of its own ([MainGo], [Part000],
    [Part001]); what the three share (the [GTS] record, [Print], the key
    directory and the Go library functions they call) comes first.  The
    statements say which variant they are about. *)

From Stdlib Require Import ZArith String Ascii List DecimalString Lia.
From Corelib Require Import SpecFloat.
From stdpp Require Import gmap strings list fin_maps.

Local Open Scope Z_scope.

(** ** Go library functions used by the program *)

(** [strings.Split(s, sep)] at a one-byte separator: the pieces of [s]
    between the occurrences of [sep]; always one piece more than there are
    separators, so never the empty slice. *)
Fixpoint Split_go (s : string) (sep : ascii) (cur : string) : list string :=
  match s with
  | EmptyString => [cur]
  | String c s' =>
      if Ascii.eqb c sep then cur :: Split_go s' sep EmptyString
      else Split_go s' sep (cur +:+ String c EmptyString)
  end.

Definition Split (s : string) (sep : ascii) : list string :=
  Split_go s sep EmptyString.

(** [strconv.Itoa]: decimal rendering of an [int]. *)
Definition Itoa (z : Z) : string := NilZero.string_of_int (Z.to_int z).

(** [[]byte(s)] and [string(b)]. *)
Definition bytes_of_string (s : string) : list Byte.byte := list_byte_of_string s.
Definition string_of_bytes (b : list Byte.byte) : string := string_of_list_byte b.

(** *** float64 *)

(** IEEE 754 binary64 on the executable specification of the standard
    library: 53 bits of precision, round to nearest even. *)
Module float64.

Definition prec : Z := 53.
Definition emax : Z := 1024.

Definition t : Type := spec_float.

Definition mul (x y : t) : t := SFmul prec emax x y.

Definition of_Z (z : Z) : t := binary_normalize prec emax z 0 false.

(** The float nearest to [m * 10 ^ e10] for a mantissa [m > 0]: decimal
    to binary conversion with a single rounding. *)
Definition of_decimal (neg : bool) (m : positive) (e10 : Z) : t :=
  match e10 with
  | Zneg k =>
      let '(q, e, l) :=
        SFdiv_core_binary prec emax (Zpos m) 0 (Z.pow_pos 10 k) 0 in
      binary_round_aux prec emax neg q e l
  | _ => binary_round prec emax neg (m * Z.to_pos (10 ^ e10))%positive 0
  end.

(** The float nearest to [m * 2 ^ e] for a mantissa [m > 0]. *)
Definition of_binary (neg : bool) (m : positive) (e : Z) : t :=
  binary_round prec emax neg m e.

(** The value a conversion to [int] ([int] is 64 bits wide) yields when
    the float is a NaN, an infinity or beyond the range.  The language
    leaves it to the implementation; on amd64 it is the "integer
    indefinite" [-2^63]. *)
Definition indefinite : Z := - 2 ^ 63.

(** Magnitude of the integer part of [m * 2 ^ e]. *)
Definition int_part (m : positive) (e : Z) : Z :=
  match e with
  | Zneg k => Z.shiftr (Zpos m) (Zpos k)
  | _ => Z.shiftl (Zpos m) e
  end.

(** The conversion [int(f)]: the fraction is discarded. *)
Definition to_int (f : t) : Z :=
  match f with
  | S754_zero _ => 0
  | S754_finite s m e =>
      let a := int_part m e in
      let z := if s then - a else a in
      if (- 2 ^ 63 <=? z) && (z <? 2 ^ 63) then z else indefinite
  | _ => indefinite
  end.

End float64.

(** *** Decimal digits *)

Definition digit_of (c : ascii) : option Z :=
  let n := Z.of_N (N_of_ascii c) in
  if (48 <=? n) && (n <=? 57) then Some (n - 48) else None.

(** A run of decimal digits: the value accumulated onto [acc], the number
    of digits read added to [cnt], and what follows the run. *)
Fixpoint read_digits (l : list ascii) (acc cnt : Z) : Z * Z * list ascii :=
  match l with
  | c :: l' =>
      match digit_of c with
      | Some d => read_digits l' (10 * acc + d) (cnt + 1)
      | None => (acc, cnt, l)
      end
  | [] => (acc, cnt, [])
  end.

(** *** strconv.ParseFloat *)

Inductive NumErrKind : Type := ErrSyntax | ErrRange.

(** [*strconv.NumError]. *)
Record NumError : Type := mkNumError {
  Func : string;
  Num : string;
  Err : NumErrKind
}.

(** [lower(c)] is [c | ('x' - 'X')]: the byte with bit 5 set. *)
Definition lower (c : ascii) : ascii :=
  ascii_of_N (N.lor (N_of_ascii c) 32).

(** A digit of the mantissa: decimal, or hexadecimal after [0x]. *)
Definition digit_in (hex : bool) (c : ascii) : option Z :=
  match digit_of c with
  | Some d => Some d
  | None =>
      let n := Z.of_N (N_of_ascii (lower c)) in
      if hex && (97 <=? n) && (n <=? 102) then Some (n - 87) else None
  end.

Definition read_sign (l : list ascii) : bool * list ascii :=
  match l with
  | "+"%char :: l' => (false, l')
  | "-"%char :: l' => (true, l')
  | _ => (false, l)
  end.

(** The loop of [readFloat] over the mantissa.  It passes over every
    underscore (and notes that it saw one), takes one point, and stops at
    the first byte that is neither.  The source keeps the first 19 digits
    (16 in base 16), a flag for digits dropped and the place of the point;
    the conversions that follow are correctly rounded whatever was
    dropped, so what the loop denotes is the number [m * base ^ (- nfrac)]
    of all the digits: [m] their value, [nd] how many there are, [nfrac]
    how many follow the point. *)
Fixpoint read_mantissa (hex : bool) (l : list ascii) (sawdot : bool)
    (m nd nfrac : Z) (us : bool) : Z * Z * Z * bool * list ascii :=
  match l with
  | c :: l' =>
      if Ascii.eqb c "_" then read_mantissa hex l' sawdot m nd nfrac true
      else if Ascii.eqb c "." then
        if sawdot then (m, nd, nfrac, us, l)
        else read_mantissa hex l' true m nd nfrac us
      else
        match digit_in hex c with
        | Some d =>
            read_mantissa hex l' sawdot ((if hex then 16 else 10) * m + d)
              (nd + 1) (if sawdot then nfrac + 1 else nfrac) us
        | None => (m, nd, nfrac, us, l)
        end
  | [] => (m, nd, nfrac, us, [])
  end.

(** The digits of the exponent, underscores passed over; the exponent
    stops growing once it has reached 10000. *)
Fixpoint read_exp_digits (l : list ascii) (e : Z) (us : bool)
    : Z * bool * list ascii :=
  match l with
  | c :: l' =>
      if Ascii.eqb c "_" then read_exp_digits l' e true
      else
        match digit_of c with
        | Some d => read_exp_digits l' (if e <? 10000 then 10 * e + d else e) us
        | None => (e, us, l)
        end
  | [] => (e, us, [])
  end.

(** The exponent part: [e] (in base 16: [p]) in either case, a sign, then
    a digit at least.  Base 10 may go without, base 16 must have one.
    [None] is a malformed exponent. *)
Definition read_exponent (hex : bool) (l : list ascii)
    : option (Z * bool * list ascii) :=
  match l with
  | c :: l' =>
      if Ascii.eqb (lower c) (if hex then "p" else "e") then
        let '(neg, l'') := read_sign l' in
        match l'' with
        | d :: _ =>
            match digit_of d with
            | Some _ =>
                let '(e, us, rest) := read_exp_digits l'' 0 false in
                Some (if neg then - e else e, us, rest)
            | None => None
            end
        | [] => None
        end
      else if hex then None else Some (0, false, l)
  | [] => if hex then None else Some (0, false, [])
  end.

(** What [underscoreOK] saw last: the beginning, a digit (or the base
    prefix), an underscore, anything else. *)
Inductive seen : Type := SeenStart | SeenDigit | SeenUnderscore | SeenOther.

Fixpoint underscore_scan (hex : bool) (l : list ascii) (saw : seen) : bool :=
  match l with
  | c :: l' =>
      if bool_decide (is_Some (digit_in hex c)) then
        underscore_scan hex l' SeenDigit
      else if Ascii.eqb c "_" then
        match saw with
        | SeenDigit => underscore_scan hex l' SeenUnderscore
        | _ => false
        end
      else
        match saw with
        | SeenUnderscore => false
        | _ => underscore_scan hex l' SeenOther
        end
  | [] => match saw with SeenUnderscore => false | _ => true end
  end.

(** [underscoreOK]: an underscore stands between two digits, or between
    the base prefix and a digit. *)
Definition underscoreOK (l : list ascii) : bool :=
  let l := (read_sign l).2 in
  match l with
  | "0"%char :: c :: l' =>
      if Ascii.eqb (lower c) "b" || Ascii.eqb (lower c) "o"
         || Ascii.eqb (lower c) "x"
      then underscore_scan (Ascii.eqb (lower c) "x") l' SeenDigit
      else underscore_scan false l SeenStart
  | _ => underscore_scan false l SeenStart
  end.

(** The base prefix: [0x] in either case, when at least one byte follows
    it ([i+2 < len(s)]). *)
Definition base_prefix (l : list ascii) : bool * list ascii :=
  match l with
  | "0"%char :: x :: (_ :: _) as l' =>
      if Ascii.eqb (lower x) "x" then (true, l') else (false, l)
  | _ => (false, l)
  end.

(** [readFloat], for a text that is read to its end (whatever is left over
    makes [ParseFloat] report a syntax error as well): a sign, the base
    prefix, the mantissa with one digit at least, the exponent, and the
    check of the underscores when there were any.  The result is the
    sign, the integer mantissa, the power of ten (in base 16: of two) and
    the base flag. *)
Definition readFloat (s : string) : option (bool * Z * Z * bool) :=
  let l0 := list_ascii_of_string s in
  let '(neg, l) := read_sign l0 in
  let '(hex, l) := base_prefix l in
  let '(m, nd, nfrac, us1, l1) := read_mantissa hex l false 0 0 0 false in
  if nd =? 0 then None
  else
    match read_exponent hex l1 with
    | Some (e, us2, []) =>
        if (us1 || us2) && negb (underscoreOK l0) then None
        else Some (neg, m, if hex then e - 4 * nfrac else e - nfrac, hex)
    | _ => None
    end.

(** [commonPrefixLenIgnoreCase] folds the letters [A] to [Z]. *)
Definition fold_case (c : ascii) : ascii :=
  let n := N_of_ascii c in
  if ((65 <=? n) && (n <=? 90))%N then ascii_of_N (n + 32) else c.

Fixpoint to_lower (s : string) : string :=
  match s with
  | EmptyString => EmptyString
  | String c s' => String (fold_case c) (to_lower s')
  end.

(** [special]: the spellings of the infinities and of NaN, in any case. *)
Definition special (s : string) : option float64.t :=
  let l := to_lower s in
  if bool_decide (l = "inf" ∨ l = "+inf" ∨ l = "infinity" ∨ l = "+infinity")
  then Some (S754_infinity false)
  else if bool_decide (l = "-inf" ∨ l = "-infinity")
  then Some (S754_infinity true)
  else if bool_decide (l = "nan") then Some S754_nan
  else None.

(** [strconv.ParseFloat(s, 64)]: decimal and hexadecimal text, digits
    separated by underscores, the infinities and NaN.  A malformed text
    gives [0] and a syntax error, a text beyond the range gives an
    infinity and a range error. *)
Definition ParseFloat (s : string) : float64.t * option NumError :=
  match special s with
  | Some f => (f, None)
  | None =>
      match readFloat s with
      | None => (S754_zero false, Some (mkNumError "ParseFloat" s ErrSyntax))
      | Some (neg, Zpos m, e, hex) =>
          match (if hex then float64.of_binary neg m e
                 else float64.of_decimal neg m e) with
          | S754_infinity sg =>
              (S754_infinity sg, Some (mkNumError "ParseFloat" s ErrRange))
          | f => (f, None)
          end
      | Some (neg, _, _, _) => (S754_zero neg, None)
      end
  end.

(** ** Data model (identical in the three variants) *)

(** A Geo Time Series reading. *)
Record GTS : Type := mkGTS {
  TS : string;      (* timestamp, in microseconds since the Unix epoch *)
  Lat : string;
  Long : string;
  Elev : string;    (* elevation, in millimetres *)
  Name : string;    (* class name *)
  Labels : string;  (* comma separated [key=value] *)
  Value : string
}.

(** [GTS.Print]: [TS/LAT:LON/ELEV NAME{LABELS} VALUE]. *)
Definition Print (gts : GTS) : list Byte.byte :=
  bytes_of_string
    (TS gts +:+ "/" +:+ Lat gts +:+ ":" +:+ Long gts +:+ "/" +:+ Elev gts
       +:+ " " +:+ Name gts +:+ "{" +:+ Labels gts +:+ "}" +:+ " "
       +:+ Value gts).

(** An entry of the key directory, as read from the CSV. *)
Record TorqueKey : Type := mkTorqueKey {
  MetricName : string;
  Tag : string
}.

(** [TorqueKeys] is [map[string]TorqueKey]. *)
Abbreviation TorqueKeys := (gmap string TorqueKey).

(** [Users] is [[]string]: the Torque users allowed, by their email. *)
Abbreviation Users := (list string).

(** [url.Values] is [map[string][]string]. *)
Abbreviation Values := (gmap string (list string)).

(** [Values.Get]: the first value of the key, the empty string when the key
    is absent or has no value. *)
Definition Get (v : Values) (key : string) : string :=
  match v !! key with
  | Some (x :: _) => x
  | _ => ""
  end.

(** [len(s) == 0]. *)
Definition is_empty (s : string) : bool :=
  match s with EmptyString => true | _ => false end.

(** ** Effects: log, outbound calls, the response writer, panics

    The handler and [init] log, call the datastore, write the response,
    panic and exit.  They are embedded in a state monad over what they
    leave behind, with an outcome that records how the run ended. *)

(** Go [error] values: a [*strconv.NumError], or another library's error
    known by its message. *)
Inductive error : Type :=
  | ENum (e : NumError)
  | EOther (msg : string).

(** An operand of [log.Println]. *)
Inductive logarg : Type :=
  | LStr (s : string)
  | LInt (z : Z)
  | LErr (e : error)
  | LBytes (b : list Byte.byte)
  | LValues (v : Values)
  | LRespBody.

Abbreviation logline := (list logarg).

(** The outbound [*http.Request]. *)
Record Request : Type := mkRequest {
  Method : string;
  URL : string;
  XWarp10Token : option string;
  Body : list Byte.byte
}.

(** The [*http.Response] of the datastore. *)
Record Response : Type := mkResponse { StatusCode : Z }.

Inductive panicval : Type :=
  | NilDereference          (* invalid memory address or nil pointer dereference *)
  | IndexOutOfRange
  | PanicLog (l : logline)  (* log.Panicln *)
  | PanicErr (e : error).   (* panic(err) *)

Inductive outcome (A : Type) : Type :=
  | Ok (a : A)
  | Panic (p : panicval)
  | Exit (code : Z).
Arguments Ok {A} a.
Arguments Panic {A} p.
Arguments Exit {A} code.

(** What a run leaves behind. *)
Record state : Type := mkState {
  logs : list logline;              (* lines logged, oldest first *)
  calls : list Request;             (* requests handed to [client.Do] *)
  w_header : gmap string string;    (* [w.Header()] *)
  w_status : option Z;              (* status line, once written *)
  w_body : list Byte.byte           (* bytes written to [w] *)
}.

Definition state0 : state := mkState [] [] ∅ None [].

(** The world outside the process: which URLs [http.NewRequest] accepts,
    and what [client.Do] returns for the [n]-th call. *)
Record World : Type := mkWorld {
  url_ok : string → bool;
  client_Do : nat → Request → option Response * option error
}.

Definition M (A : Type) : Type := state → outcome A * state.

#[global] Instance M_ret : MRet M := λ A a st, (Ok a, st).
#[global] Instance M_bind : MBind M := λ A B f m st,
  match m st with
  | (Ok a, st') => f a st'
  | (Panic p, st') => (Panic p, st')
  | (Exit c, st') => (Exit c, st')
  end.

Definition panic {A} (p : panicval) : M A := λ st, (Panic p, st).
Definition os_Exit {A} (c : Z) : M A := λ st, (Exit c, st).

Definition Println (l : logline) : M unit := λ st,
  (Ok tt, mkState (logs st ++ [l]) (calls st) (w_header st) (w_status st) (w_body st)).

(** [log.Panicln]: the line is logged, then the goroutine panics with it. *)
Definition Panicln {A} (l : logline) : M A := Println l ;; panic (PanicLog l).

(** [w.Header().Set(k, v)]. *)
Definition Header_Set (k v : string) : M unit := λ st,
  (Ok tt, mkState (logs st) (calls st) (<[k := v]> (w_header st)) (w_status st) (w_body st)).

(** [w.Write(b)]: the first write sends status 200. *)
Definition w_Write (b : list Byte.byte) : M unit := λ st,
  (Ok tt, mkState (logs st) (calls st) (w_header st)
            (Some (default 200 (w_status st))) (w_body st ++ b)).

(** [http.NewRequest]: a nil request when the URL does not parse. *)
Definition NewRequest (w : World) (method url : string) (body : list Byte.byte)
  : option Request :=
  if url_ok w url then Some (mkRequest method url None body) else None.

(** [req.Header.Set("X-Warp10-Token", tok)] through the request pointer. *)
Definition Request_SetToken (req : option Request) (tok : string) : M Request :=
  match req with
  | None => panic NilDereference
  | Some r => mret (mkRequest (Method r) (URL r) (Some tok) (Body r))
  end.

(** [client.Do(req)]: the call is recorded and the world answers. *)
Definition Do (w : World) (req : Request) : M (option Response * option error) :=
  λ st,
    (Ok (client_Do w (length (calls st)) req),
     mkState (logs st) (calls st ++ [req]) (w_header st) (w_status st) (w_body st)).

(** [for _, x := range l { body x }]. *)
Fixpoint forM_ {A} (l : list A) (body : A → M unit) : M unit :=
  match l with
  | [] => mret tt
  | x :: l' => body x ;; forM_ l' body
  end.

(** What the caller of the webhook receives. *)
Record Reply : Type := mkReply {
  status : Z;
  content_type : option string;
  reply_body : string
}.

(** The server around the handler: when the handler returns, the reply is
    what it wrote, with status 200 when it wrote none; when it panics the
    server recovers and closes the connection, and the caller receives no
    reply. *)
Definition reply_of {A} (r : outcome A * state) : option Reply :=
  match r with
  | (Ok _, st) =>
      Some (mkReply (default 200 (w_status st))
              (w_header st !! "Content-Type")
              (string_of_bytes (w_body st)))
  | _ => None
  end.

(** The fixed acknowledgment. *)
Definition ack : Reply := mkReply 200 (Some "text/html") "OK!".

(** *** Loading the key directory (the same loop in the three variants) *)

(** The source of [keys.csv]: unreachable, not lexable as CSV, or a list of
    records. *)
Inductive csv_source : Type :=
  | Unreachable (e : error)
  | Malformed (e : error)
  | Records (rs : list (list string)).

(** [reader.ReadAll()] with [reader.FieldsPerRecord = n]: every record must
    have [n] fields. *)
Definition ReadAll (n : nat) (rs : list (list string))
  : list (list string) + error :=
  if forallb (λ r, Nat.eqb (length r) n) rs then inl rs
  else inr (EOther "wrong number of fields").

(** The process environment and the network at start-up. *)
Record Boot : Type := mkBoot {
  Getenv : string → string;
  keys_csv : csv_source
}.

(** The loop of [init] over the records: the first one (index 0) is the
    header and is skipped, each other one overwrites the entry of its field
    code.  [each[0]], [each[1]] and [each[2]] panic on a shorter record. *)
Fixpoint feed (key : nat) (rawCSVdata : list (list string)) (verbose : bool)
    (torqueKeys : TorqueKeys) : M TorqueKeys :=
  match rawCSVdata with
  | [] => mret torqueKeys
  | each :: rest =>
      if Nat.eqb key 0 then feed (S key) rest verbose torqueKeys
      else
        match each with
        | e0 :: e1 :: e2 :: _ =>
            (if verbose
             then Println [LStr e0; LStr ":"; LStr e1; LStr "-"; LStr e2]
             else mret tt) ;;
            feed (S key) rest verbose (<[e0 := mkTorqueKey e1 e2]> torqueKeys)
        | _ => panic IndexOutOfRange
        end
  end.

(** Fetching and parsing [keys.csv], then feeding the directory. *)
Definition load_keys (b : Boot) (verbose : bool) (parse_msg : error → list logline)
  : M TorqueKeys :=
  match keys_csv b with
  | Unreachable e => Println [LErr e] ;; os_Exit 1
  | Malformed e => forM_ (parse_msg e) Println ;; os_Exit 1
  | Records rs =>
      match ReadAll 3 rs with
      | inr e => forM_ (parse_msg e) Println ;; os_Exit 1
      | inl rawCSVdata => feed 0 rawCSVdata verbose ∅
      end
  end.

(** [stringInSlice], as in [unnamed/part_000]. *)
Fixpoint stringInSlice (str : string) (l : list string) : bool :=
  match l with
  | [] => false
  | v :: l' => if bool_decide (v = str) then true else stringInSlice str l'
  end.

(** ** [unnamed/part_000]: the variant with the list of users *)
Module Part000.

(** The package-level variables. *)
Record globals : Type := mkGlobals {
  warp10Endpoint : string;
  warp10Token : string;
  torqueKeys : TorqueKeys;
  users : Users
}.

Section Handler.
Variable g : globals.
Variable w : World.

Definition sendToWarp10 (gts : GTS) : M unit :=
  let req := NewRequest w "POST" (warp10Endpoint g +:+ "/api/v0/update") (Print gts) in
  req ← Request_SetToken req (warp10Token g);
  '(resp, err) ← Do w req;
  match resp with
  | None => panic NilDereference
  | Some r =>
      (if bool_decide (StatusCode r ≠ 200)
       then Panicln [LStr "Error"; LInt (StatusCode r); LStr ":"; LRespBody]
       else mret tt) ;;
      match err with
      | Some e => Println [LErr e]
      | None => mret tt
      end
  end.

(** The body of the loop over the GET parameters. *)
Definition forward (q : Values) (id time latitude longitude altitude key : string)
  : M unit :=
  match torqueKeys g !! key with
  | Some val =>
      let tag :=
        if is_empty (Tag val) then "id=" +:+ id
        else "id=" +:+ id +:+ "," +:+ Tag val in
      sendToWarp10
        (mkGTS time latitude longitude altitude (MetricName val) tag (Get q key))
  | None => mret tt
  end.

(** [query]: [q] is [r.URL.Query()], [keys] the order in which the
    [range] over the map happens to visit its keys. *)
Definition query (q : Values) (keys : list string) : M unit :=
  if stringInSlice (Get q "eml") (users g) then
    Println [LStr "unauthorized"] ;;
    Header_Set "Content-Type" "text/html" ;;
    w_Write (bytes_of_string "OK!")
  else if is_empty (Get q "kff1005") || is_empty (Get q "kff1006")
          || is_empty (Get q "kff1010") then
    Println [LStr "No GPS Data, moving on"] ;;
    Header_Set "Content-Type" "text/html" ;;
    w_Write (bytes_of_string "OK!")
  else
    let id := Get q "id" in
    let longitude := Get q "kff1005" in
    let latitude := Get q "kff1006" in
    let '(i, err) := ParseFloat (Get q "kff1010") in
    (match err with
     | Some e => Println [LErr (ENum e)]
     | None => mret tt
     end) ;;
    let altitude := Itoa (float64.to_int (float64.mul i (float64.of_Z 1000))) in
    let time := Get q "time" in
    forM_ keys (forward q id time latitude longitude altitude) ;;
    Header_Set "Content-Type" "text/html" ;;
    w_Write (bytes_of_string "OK!").

End Handler.

(** [init]: the allowed users, then the key directory. *)
Definition init (b : Boot) : M globals :=
  let warp10Endpoint := Getenv b "WARP10_ENDPOINT" in
  let warp10Token := Getenv b "WARP10_TOKEN" in
  let env := Getenv b "ALLOWED_USERS" in
  let result := Split env "," in
  let users := fold_left (λ us user, us ++ [user]) result [] in
  (if Nat.eqb (length users) 0
   then Panicln [LStr "No User registered!"]
   else mret tt) ;;
  (if is_empty warp10Endpoint || is_empty warp10Token
   then Println [LStr "You moron forget to put the tokens!"] ;; os_Exit 1
   else mret tt) ;;
  tk ← load_keys b true (λ e, [[LStr "Error in parsing:"; LErr e]]);
  mret (mkGlobals warp10Endpoint warp10Token tk users).

End Part000.

(** ** [unnamed/part_001]: the variant with a single configured user *)
Module Part001.

Record globals : Type := mkGlobals {
  warp10Endpoint : string;
  warp10Token : string;
  torqueKeys : TorqueKeys;
  user : string
}.

(** In this variant [Print] logs the line before it returns it. *)
Definition Print_logged (gts : GTS) : M (list Byte.byte) :=
  Println [LStr (string_of_bytes (Print gts))] ;; mret (Print gts).

Section Handler.
Variable g : globals.
Variable w : World.

Definition sendToWarp10 (gts : GTS) : M unit :=
  body ← Print_logged gts;
  let req := NewRequest w "POST" (warp10Endpoint g +:+ "/api/v0/update") body in
  req ← Request_SetToken req (warp10Token g);
  '(resp, err) ← Do w req;
  match resp with
  | None => panic NilDereference
  | Some r =>
      (if bool_decide (StatusCode r ≠ 200)
       then Panicln [LStr "Error"; LInt (StatusCode r); LStr ":"; LRespBody]
       else mret tt) ;;
      (match err with
       | Some e => Println [LErr e]
       | None => mret tt
       end) ;;
      Println [LStr "HTTP Return code"; LInt (StatusCode r); LStr "-";
               LStr (Name gts); LStr ":"; LStr (Value gts)]
  end.

Definition forward (q : Values) (id time latitude longitude altitude key : string)
  : M unit :=
  match torqueKeys g !! key with
  | Some val =>
      let tag :=
        if is_empty (Tag val) then "id=" +:+ id
        else "id=" +:+ id +:+ "," +:+ Tag val in
      sendToWarp10
        (mkGTS (time +:+ "000") latitude longitude altitude (MetricName val) tag
           (Get q key))
  | None => mret tt
  end.

Definition query (q : Values) (keys : list string) : M unit :=
  Println [LStr "Received a call HTTP, GET Keys:"] ;;
  Println [LValues q] ;;
  Println [LStr "longitude:"; LStr (Get q "kff1005")] ;;
  Println [LStr "latitude:"; LStr (Get q "kff1006")] ;;
  Println [LStr "elevation:"; LStr (Get q "kff1010")] ;;
  Println [LStr "user:"; LStr (Get q "eml")] ;;
  if is_empty (Get q "kff1005") || is_empty (Get q "kff1006")
     || is_empty (Get q "kff1010") || bool_decide (Get q "eml" = user g) then
    Println [LStr "No GPS Data, moving on"] ;;
    Header_Set "Content-Type" "text/html" ;;
    w_Write (bytes_of_string "OK!")
  else
    let id := Get q "id" in
    let longitude := Get q "kff1005" in
    let latitude := Get q "kff1006" in
    let '(i, err) := ParseFloat (Get q "kff1010") in
    (match err with
     | Some e => Println [LErr (ENum e)]
     | None => mret tt
     end) ;;
    let altitude := Itoa (float64.to_int (float64.mul i (float64.of_Z 1000))) in
    let time := Get q "time" in
    forM_ keys (forward q id time latitude longitude altitude) ;;
    Header_Set "Content-Type" "text/html" ;;
    w_Write (bytes_of_string "OK!").

End Handler.

Definition init (b : Boot) : M globals :=
  let warp10Endpoint := Getenv b "WARP10_ENDPOINT" in
  let warp10Token := Getenv b "WARP10_TOKEN" in
  let user := Getenv b "ALLOWED_USERS" in
  Println [LStr "New user"; LStr user] ;;
  (if is_empty warp10Endpoint || is_empty warp10Token
   then Println [LStr "You moron forget to put the tokens!"] ;; os_Exit 1
   else mret tt) ;;
  tk ← load_keys b false (λ e, [[LStr "Error in parsing:"; LErr e]]);
  mret (mkGlobals warp10Endpoint warp10Token tk user).

End Part001.

(** ** [main.go]: the variant without a gate *)
Module MainGo.

Record globals : Type := mkGlobals {
  warp10Endpoint : string;
  warp10Token : string;
  torqueKeys : TorqueKeys
}.

Section Handler.
Variable g : globals.
Variable w : World.

Definition sendToWarp10 (gts : GTS) : M unit :=
  Println [LBytes (Print gts)] ;;
  let req := NewRequest w "POST" (warp10Endpoint g +:+ "/api/v0/update") (Print gts) in
  req ← Request_SetToken req (warp10Token g);
  '(resp, err) ← Do w req;
  match err with
  | Some e => panic (PanicErr e)
  | None =>
      match resp with
      | None => panic NilDereference   (* [defer resp.Body.Close()] *)
      | Some _ => mret tt
      end
  end.

Definition forward (q : Values) (time latitude longitude altitude key : string)
  : M unit :=
  match torqueKeys g !! key with
  | Some val =>
      sendToWarp10
        (mkGTS time latitude longitude altitude (MetricName val) (Tag val)
           (Get q key))
  | None => mret tt
  end.

(** No gate, and nothing is written to [w]. *)
Definition query (q : Values) (keys : list string) : M unit :=
  let longitude := Get q "kff1005" in
  let latitude := Get q "kff1006" in
  let altitude := Get q "kff1010" in
  let time := Get q "time" in
  Println [LValues q] ;;
  forM_ keys (forward q time latitude longitude altitude).

End Handler.

Definition init (b : Boot) : M globals :=
  let warp10Endpoint := Getenv b "WARP10_ENDPOINT" in
  let warp10Token := Getenv b "WARP10_TOKEN" in
  (if is_empty warp10Endpoint || is_empty warp10Token
   then Println [LStr "You moron forget to put the tokens!"] ;; os_Exit 1
   else mret tt) ;;
  tk ← load_keys b true (λ e, [[LStr "Error in parsing:"]; [LErr e]]);
  mret (mkGlobals warp10Endpoint warp10Token tk).

End MainGo.

(** * Vocabulary of the statements *)

(** The part of the state a forwarding call never touches. *)
Definition same_writer (st st' : state) : Prop :=
  w_header st' = w_header st ∧ w_status st' = w_status st ∧ w_body st' = w_body st.

(** [st'] continues [st] with the calls [sent], the writer untouched. *)
Definition continues (st : state) (sent : list Request) (st' : state) : Prop :=
  calls st' = calls st ++ sent ∧ same_writer st st'.

(** [st'] has the log of [st] and maybe more lines after it. *)
Definition logs_grow (st st' : state) : Prop :=
  ∃ l, logs st' = logs st ++ l.

(** The integer a finite float [(-1)^s * m * 2^e] is cut to: the quotient,
    rounded toward zero, of its numerator by its denominator. *)
Definition truncation (s : bool) (m : positive) (e : Z) : Z :=
  ((if s then - Zpos m else Zpos m) * 2 ^ Z.max e 0) ÷ 2 ^ Z.max (- e) 0.

(** Every call to the datastore is answered with status 200. *)
Definition answers_200 (w : World) : Prop :=
  ∀ n req, (client_Do w n req).1 = Some (mkResponse 200).

(** Every call to the datastore gets a response, whatever its status, and
    no error. *)
Definition answers (w : World) : Prop :=
  ∀ n req, ∃ r, client_Do w n req = (Some r, None).

(** The gate on the three geolocation parameters. *)
Definition no_gps (q : Values) : bool :=
  is_empty (Get q "kff1005") || is_empty (Get q "kff1006") || is_empty (Get q "kff1010").

(** The state after the acknowledgment has been written. *)
Definition acked (st : state) (l : list logline) : state :=
  mkState (logs st ++ l) (calls st) (<["Content-Type" := "text/html"]> (w_header st))
    (Some (default 200 (w_status st))) (w_body st ++ bytes_of_string "OK!").

(** The elevation the handler sends for the text of [kff1010]: the
    expression [strconv.Itoa(int(i * 1000.0))] at the float that
    [ParseFloat] returns. *)
Definition altitude_mm (s : string) : string :=
  Itoa (float64.to_int (float64.mul (ParseFloat s).1 (float64.of_Z 1000))).

(** What the handler logs about the text of [kff1010]. *)
Definition parse_log (s : string) : list logline :=
  match (ParseFloat s).2 with
  | Some e => [[LErr (ENum e)]]
  | None => []
  end.

(** The request [sendToWarp10] hands to [client.Do]. *)
Definition post (endpoint token : string) (gts : GTS) : Request :=
  mkRequest "POST" (endpoint +:+ "/api/v0/update") (Some token) (Print gts).

(** The labels of [unnamed/part_000] and [unnamed/part_001]. *)
Definition labels_of (id : string) (val : TorqueKey) : string :=
  if is_empty (Tag val) then "id=" +:+ id else "id=" +:+ id +:+ "," +:+ Tag val.

(** The record each variant builds for the entry [val] found under [key]. *)
Definition record000 (q : Values) (key : string) (val : TorqueKey) : GTS :=
  mkGTS (Get q "time") (Get q "kff1006") (Get q "kff1005")
    (altitude_mm (Get q "kff1010")) (MetricName val) (labels_of (Get q "id") val)
    (Get q key).

Definition record001 (q : Values) (key : string) (val : TorqueKey) : GTS :=
  mkGTS (Get q "time" +:+ "000") (Get q "kff1006") (Get q "kff1005")
    (altitude_mm (Get q "kff1010")) (MetricName val) (labels_of (Get q "id") val)
    (Get q key).

Definition record_main (q : Values) (key : string) (val : TorqueKey) : GTS :=
  mkGTS (Get q "time") (Get q "kff1006") (Get q "kff1005") (Get q "kff1010")
    (MetricName val) (Tag val) (Get q key).

(** The records of a whole loop, in the order of the visit: one for each
    key the directory knows. *)
Definition records (dir : TorqueKeys) (mk : string → TorqueKey → GTS)
    (keys : list string) : list GTS :=
  omap (λ key, mk key <$> dir !! key) keys.

(** The loops of the three handlers. *)
Abbreviation loop000 g w q keys :=
  (forM_ keys (Part000.forward g w q (Get q "id") (Get q "time") (Get q "kff1006")
                 (Get q "kff1005") (altitude_mm (Get q "kff1010")))).

Abbreviation loop001 g w q keys :=
  (forM_ keys (Part001.forward g w q (Get q "id") (Get q "time") (Get q "kff1006")
                 (Get q "kff1005") (altitude_mm (Get q "kff1010")))).

Abbreviation loop_main g w q keys :=
  (forM_ keys (MainGo.forward g w q (Get q "time") (Get q "kff1006")
                 (Get q "kff1005") (Get q "kff1010"))).

(** The rows of the table that bear the field code [c], header apart, and
    the entry a row stands for. *)
Definition rows_of (c : string) (rows : list (list string)) : list (list string) :=
  filter (λ r, head r = Some c) (tail rows).

Definition entry_of (r : list string) : TorqueKey :=
  mkTorqueKey (nth 1 r "") (nth 2 r "").

(** The directory a table loads: the rows after the header, in order. *)
Definition load (rows : list (list string)) : TorqueKeys :=
  fold_left (λ tk r, <[nth 0 r "" := entry_of r]> tk) (tail rows) ∅.

(** The timestamp at the resolution of the datastore, for a device that
    counts milliseconds: microseconds, three more decimal digits. *)
Definition microseconds (time : string) : string := time +:+ "000".

(** The lines [unnamed/part_001] logs on entry. *)
Definition intro001 (q : Values) : list logline :=
  [[LStr "Received a call HTTP, GET Keys:"]; [LValues q];
   [LStr "longitude:"; LStr (Get q "kff1005")];
   [LStr "latitude:"; LStr (Get q "kff1006")];
   [LStr "elevation:"; LStr (Get q "kff1010")];
   [LStr "user:"; LStr (Get q "eml")]].

(** [keys] is an order in which [for key := range query] may visit the
    keys of [q]: the runtime picks one, any permutation of the keys.  The
    statements about [query] hold for every list [keys]. *)
Definition visits (q : Values) (keys : list string) : Prop :=
  keys ≡ₚ (map_to_list q).*1.

(** A geolocation parameter is missing: absent, or empty. *)
Definition missing (q : Values) (key : string) : Prop :=
  q !! key = None ∨ Get q key = "".

(** The value of a text made of decimal digits only. *)
Definition decimal_value (s : string) : option Z :=
  match read_digits (list_ascii_of_string s) 0 0 with
  | (n, _, []) => Some n
  | _ => None
  end.

(** A byte that a text accepted by [ParseFloat] can hold: a digit, a
    sign, the point, the underscore, and the letters of the hexadecimal
    digits, of the prefix [0x], of the exponents and of [infinity] and
    [nan]. *)
Definition number_byte (c : ascii) : bool :=
  bool_decide (c ∈ list_ascii_of_string "0123456789+-._abcdefinptxyABCDEFINPTXY").

Definition numeric (l : list ascii) : Prop := Forall (λ c, number_byte c = true) l.

(** A reader that was given [l] and left [rest] has passed over bytes of
    numbers only. *)
Definition consumed (l rest : list ascii) : Prop :=
  ∃ pre, l = pre ++ rest ∧ numeric pre.

(** A text with or without the sign [-] before it. *)
Definition signed (sx : bool) (t : string) : string :=
  (if sx then "-" else "") +:+ t.

(** One tenth, written with ten thousand zeros after the point and an
    exponent of six digits. *)
Definition tenth_the_long_way : string :=
  "0." +:+ string_of_list_ascii (repeat "0"%char (Z.to_nat 10000)) +:+ "1e100000".

(** *** Sample data *)

Definition dir_ex : TorqueKeys :=
  <["kfx1" := mkTorqueKey "rpm" ""]> (<["kd" := mkTorqueKey "speed" "type=sensor"]> ∅).

(** A complete report of the device [7], sent by [bob]. *)
Definition q_ex : Values :=
  list_to_map
    [("eml", ["bob"]); ("id", ["7"]); ("time", ["100"]); ("session", ["s1"]);
     ("kff1005", ["3.0"]); ("kff1006", ["45.0"]); ("kff1010", ["12.345"]);
     ("kfx1", ["3000"]); ("kd", ["87"])].

Definition keys_ex : list string :=
  ["kd"; "eml"; "kff1010"; "session"; "kfx1"; "id"; "kff1005"; "time"; "kff1006"].

(** A report with a single recognised field. *)
Definition q_rpm : Values :=
  list_to_map
    [("eml", ["bob"]); ("id", ["7"]); ("time", ["100"]);
     ("kff1005", ["3.0"]); ("kff1006", ["45.0"]); ("kff1010", ["12.345"]);
     ("kfx1", ["3000"])].

Definition keys_rpm : list string :=
  ["kff1006"; "kfx1"; "time"; "eml"; "kff1005"; "id"; "kff1010"].

(** The same report with an elevation that is no number. *)
Definition q_bad : Values := <["kff1010" := ["12,3"]]> q_ex.

(** The same report with an elevation beyond the range of [float64]. *)
Definition q_huge : Values := <["kff1010" := ["1e999"]]> q_ex.

(** The same report without its longitude. *)
Definition q_nolon : Values := delete "kff1005" q_ex.
Definition keys_nolon : list string :=
  ["kd"; "eml"; "kff1010"; "session"; "kfx1"; "id"; "time"; "kff1006"].

(** Worlds: a datastore that accepts everything, one that answers 500, and
    one that cannot be reached. *)
Definition w200 : World :=
  mkWorld (λ _, true) (λ _ _, (Some (mkResponse 200), None)).
Definition w500 : World :=
  mkWorld (λ _, true) (λ _ _, (Some (mkResponse 500), None)).
Definition w_down : World :=
  mkWorld (λ _, true) (λ _ _, (None, Some (EOther "connection refused"))).

(** Globals under which the caller [bob] is not on the configured list, and
    globals under which [bob] is on it. *)
Definition g000_ex : Part000.globals :=
  Part000.mkGlobals "http://warp10" "token" dir_ex ["alice"; "carol"].
Definition g001_ex : Part001.globals :=
  Part001.mkGlobals "http://warp10" "token" dir_ex "alice".
Definition g000_bob : Part000.globals :=
  Part000.mkGlobals "http://warp10" "token" dir_ex ["bob"; "carol"].
Definition g001_bob : Part001.globals :=
  Part001.mkGlobals "http://warp10" "token" dir_ex "bob".
Definition gmain_ex : MainGo.globals :=
  MainGo.mkGlobals "http://warp10" "token" dir_ex.

(** A start-up with every variable set but [ALLOWED_USERS]. *)
Definition table_ex : list (list string) :=
  [["key"; "name"; "tag"]; ["kfx1"; "rpm"; ""]; ["kd"; "velocity"; ""];
   ["kd"; "speed"; "type=sensor"]].

Definition boot_ex (allowed : string) : Boot :=
  mkBoot (λ v, if bool_decide (v = "ALLOWED_USERS") then allowed
               else if bool_decide (v = "WARP10_ENDPOINT") then "http://warp10"
               else if bool_decide (v = "WARP10_TOKEN") then "token" else "")
    (Records table_ex).

(** ** Vocabulary of the further properties *)

(** The character [c] occurs in [s]. *)
Fixpoint has_char (c : ascii) (s : string) : bool :=
  match s with
  | EmptyString => false
  | String c' s' => Ascii.eqb c' c || has_char c s'
  end.

(** The call [req], made as the [i]-th one, is answered with a response of
    status 200. *)
Definition accepted (w : World) (i : nat) (req : Request) : Prop :=
  (client_Do w i req).1 = Some (mkResponse 200).

(** No field of the record holds the separator that [Print] writes after
    it. *)
Definition separated (gts : GTS) : Prop :=
  has_char "/" (TS gts) = false ∧ has_char ":" (Lat gts) = false ∧
  has_char "/" (Long gts) = false ∧ has_char " " (Elev gts) = false ∧
  has_char "{" (Name gts) = false ∧ has_char "}" (Labels gts) = false.

(** The two requests have the same keys. *)
Definition same_keys (q q' : Values) : Prop :=
  ∀ key, is_Some (q' !! key) ↔ is_Some (q !! key).

(** The sample report with a second value for [kfx1]; without [kfx1]; and
    with [kfx1] empty. *)
Definition q_twice : Values := <["kfx1" := ["3000"; "9999"]]> q_ex.
Definition q_no_rpm : Values := delete "kfx1" q_ex.
Definition keys_no_rpm : list string :=
  ["kd"; "eml"; "kff1010"; "session"; "id"; "kff1005"; "time"; "kff1006"].
Definition q_empty_rpm : Values := <["kfx1" := [""]]> q_ex.

(** Another order of the keys of the sample report. *)
Definition keys_back : list string := rev keys_ex.

(** The record with three zeros after its timestamp. *)
Definition extend_ts (gts : GTS) : GTS :=
  mkGTS (TS gts +:+ "000") (Lat gts) (Long gts) (Elev gts) (Name gts) (Labels gts)
    (Value gts).

(** The table cannot be loaded: it is out of reach, it is no CSV, or one of
    its rows, header included, has not three fields. *)
Definition bad_table (b : Boot) : Prop :=
  match keys_csv b with
  | Records rs => ¬ Forall (λ r, length r = 3%nat) rs
  | _ => True
  end.

(** A start-up with a table of two fields in a row. *)
Definition boot_short : Boot :=
  mkBoot (Getenv (boot_ex "bob")) (Records [["key"; "name"; "tag"]; ["kfx1"; "rpm"]]).

(** A start-up without its token. *)
Definition boot_notoken : Boot :=
  mkBoot (λ v, if bool_decide (v = "WARP10_ENDPOINT") then "http://warp10" else "")
    (Records table_ex).

(** A datastore that answers 200 to its first call and 500 afterwards, one
    where no URL parses, and a request of unknown fields only. *)
Definition w_second : World :=
  mkWorld (λ _, true)
    (λ n _, (Some (mkResponse (if Nat.eqb n 0 then 200 else 500)), None)).
Definition w_nourl : World :=
  mkWorld (λ _, false) (λ _ _, (Some (mkResponse 200), None)).
Definition keys_unknown : list string :=
  ["eml"; "kff1010"; "session"; "id"; "kff1005"; "time"; "kff1006"].

(** * Properties *)

(** ** The monad and the loop *)

Lemma bind_run {A B} (m : M A) (f : A → M B) (st : state) :
  (m ≫= f) st =
  match m st with
  | (Ok a, st') => f a st'
  | (Panic p, st') => (Panic p, st')
  | (Exit c, st') => (Exit c, st')
  end.
Proof. reflexivity. Qed.

Lemma continues_refl st : continues st [] st.
Proof. split; [by rewrite app_nil_r | done]. Qed.

Lemma continues_trans st1 st2 st3 s1 s2 :
  continues st1 s1 st2 → continues st2 s2 st3 → continues st1 (s1 ++ s2) st3.
Proof.
  intros [E1 (H1 & S1 & B1)] [E2 (H2 & S2 & B2)]. split.
  - by rewrite E2, E1, app_assoc.
  - repeat split; congruence.
Qed.

Lemma reply_acked {A} (a : A) st l :
  w_status st = None → w_body st = [] → reply_of (Ok a, acked st l) = Some ack.
Proof.
  intros Hs Hb. unfold reply_of, acked; simpl.
  by rewrite lookup_insert_eq, Hs, Hb.
Qed.

Lemma Get_absent (q : Values) key : q !! key = None → Get q key = "".
Proof. unfold Get. by intros ->. Qed.

Lemma is_empty_spec s : is_empty s = true ↔ s = "".
Proof. by destruct s. Qed.

(** The sample orders are orders of the sample requests. *)
Lemma keys_ex_visits :
  visits q_ex keys_ex ∧ visits q_nolon keys_nolon ∧ visits q_bad keys_ex ∧
  visits q_rpm keys_rpm.
Proof.
  repeat split; unfold visits;
    apply (@bool_decide_unpack _ (Permutation_dec _ _)); by vm_compute.
Qed.

(** ** Facts about [unnamed/part_000] *)
Section Part000_facts.
Import Part000.
Variable g : globals.
Variable w : World.

Lemma send000_continues gts st :
  continues st
    (if url_ok w (warp10Endpoint g +:+ "/api/v0/update")
     then [post (warp10Endpoint g) (warp10Token g) gts] else [])
    (sendToWarp10 g w gts st).2.
Proof.
  unfold sendToWarp10, NewRequest.
  destruct (url_ok w _); simpl; [|apply continues_refl].
  rewrite bind_run; simpl. rewrite bind_run; simpl.
  fold (post (warp10Endpoint g) (warp10Token g) gts).
  destruct (client_Do w (length (calls st)) _) as [[r|] err]; simpl.
  - rewrite bind_run. case_bool_decide; simpl.
    + split; done.
    + destruct err; split; done.
  - split; done.
Qed.

Lemma send000_outcome gts st :
  url_ok w (warp10Endpoint g +:+ "/api/v0/update") = true →
  (sendToWarp10 g w gts st).1 =
  match client_Do w (length (calls st)) (post (warp10Endpoint g) (warp10Token g) gts) with
  | (None, _) => Panic NilDereference
  | (Some r, _) =>
      if bool_decide (StatusCode r = 200) then Ok tt
      else Panic (PanicLog [LStr "Error"; LInt (StatusCode r); LStr ":"; LRespBody])
  end.
Proof.
  intros Hurl. unfold sendToWarp10, NewRequest. rewrite Hurl. simpl.
  rewrite bind_run; simpl. rewrite bind_run; simpl.
  fold (post (warp10Endpoint g) (warp10Token g) gts).
  destruct (client_Do w (length (calls st)) _) as [[r|] err]; simpl; [|done].
  rewrite bind_run. repeat case_bool_decide; simpl; try done.
  by destruct err.
Qed.

Variable q : Values.

Abbreviation posts000 keys :=
  (map (post (warp10Endpoint g) (warp10Token g)) (records (torqueKeys g) (record000 q) keys)).

(** On any world the loop sends a prefix of its records and leaves the
    writer alone. *)
Lemma loop000_continues keys st :
  ∃ n, continues st (take n (posts000 keys)) (loop000 g w q keys st).2.
Proof.
  revert st. induction keys as [|key keys IH]; intros st.
  { exists 0%nat. apply continues_refl. }
  simpl. rewrite bind_run. unfold forward at 1, records. simpl.
  destruct (torqueKeys g !! key) as [val|] eqn:Hval; simpl; [|apply IH].
  fold (labels_of (Get q "id") val). fold (record000 q key val).
  pose proof (send000_continues (record000 q key val) st) as Hc.
  destruct (sendToWarp10 g w (record000 q key val) st) as [[[]|p|c] st1] eqn:Hs;
    simpl in Hc.
  - destruct (url_ok w _) eqn:Hurl.
    + destruct (IH st1) as [n Hn]. exists (S n). simpl.
      apply (continues_trans _ _ _ [_] _ Hc Hn).
    + unfold sendToWarp10, NewRequest in Hs. by rewrite Hurl in Hs.
  - destruct (url_ok w _); [by exists 1%nat | by exists 0%nat].
  - destruct (url_ok w _); [by exists 1%nat | by exists 0%nat].
Qed.

Lemma loop000_ok keys st :
  url_ok w (warp10Endpoint g +:+ "/api/v0/update") = true → answers_200 w →
  (loop000 g w q keys st).1 = Ok tt ∧
  continues st (posts000 keys) (loop000 g w q keys st).2.
Proof.
  intros Hurl H200. revert st. induction keys as [|key keys IH]; intros st.
  { split; [done | apply continues_refl]. }
  simpl. rewrite bind_run. unfold forward at 1 3, records. simpl.
  destruct (torqueKeys g !! key) as [val|] eqn:Hval; simpl; [|apply IH].
  fold (labels_of (Get q "id") val). fold (record000 q key val).
  pose proof (send000_continues (record000 q key val) st) as Hc.
  pose proof (send000_outcome (record000 q key val) st Hurl) as Ho.
  rewrite Hurl in Hc.
  specialize (H200 (length (calls st))
                (post (warp10Endpoint g) (warp10Token g) (record000 q key val))).
  destruct (client_Do w _ _) as [[r|] err]; simpl in H200; [|done].
  injection H200 as ->. simpl in Ho.
  destruct (sendToWarp10 g w (record000 q key val) st) as [[[]|p|c] st1];
    simpl in Ho, Hc; try done.
  destruct (IH st1) as [IH1 IH2]. split; [done|].
  apply (continues_trans _ _ _ [_] _ Hc IH2).
Qed.

(** The three ways through [query]. *)
Lemma query000_listed keys st :
  stringInSlice (Get q "eml") (users g) = true →
  query g w q keys st = (Ok tt, acked st [[LStr "unauthorized"]]).
Proof. intros H. unfold query. by rewrite H. Qed.

Lemma query000_no_gps keys st :
  stringInSlice (Get q "eml") (users g) = false → no_gps q = true →
  query g w q keys st = (Ok tt, acked st [[LStr "No GPS Data, moving on"]]).
Proof. intros H1 H2. unfold query. unfold no_gps in H2. by rewrite H1, H2. Qed.

Lemma query000_open keys st :
  stringInSlice (Get q "eml") (users g) = false → no_gps q = false →
  query g w q keys st =
  (loop000 g w q keys ;; Header_Set "Content-Type" "text/html" ;;
   w_Write (bytes_of_string "OK!"))
    (mkState (logs st ++ parse_log (Get q "kff1010")) (calls st) (w_header st)
       (w_status st) (w_body st)).
Proof.
  intros H1 H2. unfold query. unfold no_gps in H2. rewrite H1, H2.
  unfold altitude_mm, parse_log.
  destruct (ParseFloat (Get q "kff1010")) as [i [e|]]; simpl.
  - by rewrite bind_run.
  - rewrite bind_run; simpl. rewrite app_nil_r. by destruct st.
Qed.

(** On any world [query] sends a prefix of the records of the loop. *)
Lemma query000_calls keys st :
  ∃ n, calls (query g w q keys st).2 = calls st ++ take n (posts000 keys).
Proof.
  destruct (stringInSlice (Get q "eml") (users g)) eqn:H1.
  { rewrite query000_listed by done. exists 0%nat. simpl. by rewrite app_nil_r. }
  destruct (no_gps q) eqn:H2.
  { rewrite query000_no_gps by done. exists 0%nat. simpl. by rewrite app_nil_r. }
  rewrite query000_open by done. rewrite bind_run.
  set (st1 := mkState _ _ _ _ _).
  destruct (loop000_continues keys st1) as [n [Hn _]]. exists n.
  destruct (loop000 g w q keys st1) as [[[]|p|c] st2]; simpl in *; done.
Qed.

(** When [query] returns, the acknowledgment has been written. *)
Lemma query000_returns keys st :
  (query g w q keys st).1 = Ok tt →
  ∃ st' l, query g w q keys st = (Ok tt, acked st' l) ∧ same_writer st st'.
Proof.
  destruct (stringInSlice (Get q "eml") (users g)) eqn:H1.
  { rewrite query000_listed by done. by eexists _, _. }
  destruct (no_gps q) eqn:H2.
  { rewrite query000_no_gps by done. by eexists _, _. }
  rewrite query000_open by done. rewrite bind_run.
  set (st1 := mkState _ _ _ _ _).
  destruct (loop000_continues keys st1) as [n [_ Hn]].
  destruct (loop000 g w q keys st1) as [[[]|p|c] st2]; simpl in *; try done.
  intros _. exists st2, []. split; [|done].
  unfold acked. by rewrite app_nil_r.
Qed.

Lemma query000_ok keys st :
  stringInSlice (Get q "eml") (users g) = false → no_gps q = false →
  url_ok w (warp10Endpoint g +:+ "/api/v0/update") = true → answers_200 w →
  (query g w q keys st).1 = Ok tt ∧
  calls (query g w q keys st).2 = calls st ++ posts000 keys.
Proof.
  intros H1 H2 Hurl H200. rewrite query000_open by done. rewrite bind_run.
  set (st1 := mkState _ _ _ _ _).
  destruct (loop000_ok keys st1 Hurl H200) as [Ho [Hc _]].
  destruct (loop000 g w q keys st1) as [[[]|p|c] st2]; simpl in *; done.
Qed.

End Part000_facts.

(** ** Facts about [unnamed/part_001] *)
Section Part001_facts.
Import Part001.
Variable g : globals.
Variable w : World.

Lemma send001_continues gts st :
  continues st
    (if url_ok w (warp10Endpoint g +:+ "/api/v0/update")
     then [post (warp10Endpoint g) (warp10Token g) gts] else [])
    (sendToWarp10 g w gts st).2.
Proof.
  unfold sendToWarp10, NewRequest, Print_logged.
  rewrite bind_run; simpl.
  destruct (url_ok w _); simpl; [|split; [by rewrite app_nil_r | done]].
  rewrite bind_run; simpl.
  fold (post (warp10Endpoint g) (warp10Token g) gts).
  rewrite bind_run; simpl.
  destruct (client_Do w _ _) as [[r|] err]; simpl.
  - rewrite bind_run. case_bool_decide; simpl.
    + split; done.
    + rewrite bind_run. destruct err; split; done.
  - split; done.
Qed.

Lemma send001_outcome gts st :
  url_ok w (warp10Endpoint g +:+ "/api/v0/update") = true →
  (sendToWarp10 g w gts st).1 =
  match client_Do w (length (calls st)) (post (warp10Endpoint g) (warp10Token g) gts) with
  | (None, _) => Panic NilDereference
  | (Some r, _) =>
      if bool_decide (StatusCode r = 200) then Ok tt
      else Panic (PanicLog [LStr "Error"; LInt (StatusCode r); LStr ":"; LRespBody])
  end.
Proof.
  intros Hurl. unfold sendToWarp10, NewRequest, Print_logged.
  rewrite bind_run; simpl. rewrite Hurl. simpl.
  rewrite bind_run; simpl.
  fold (post (warp10Endpoint g) (warp10Token g) gts).
  rewrite bind_run; simpl.
  destruct (client_Do w _ _) as [[r|] err]; simpl; [|done].
  rewrite bind_run. repeat case_bool_decide; simpl; try done.
  rewrite bind_run. by destruct err.
Qed.

Variable q : Values.

Abbreviation posts001 keys :=
  (map (post (warp10Endpoint g) (warp10Token g)) (records (torqueKeys g) (record001 q) keys)).

Lemma loop001_continues keys st :
  ∃ n, continues st (take n (posts001 keys)) (loop001 g w q keys st).2.
Proof.
  revert st. induction keys as [|key keys IH]; intros st.
  { exists 0%nat. apply continues_refl. }
  simpl. rewrite bind_run. unfold forward at 1, records. simpl.
  destruct (torqueKeys g !! key) as [val|] eqn:Hval; simpl; [|apply IH].
  fold (labels_of (Get q "id") val). fold (record001 q key val).
  pose proof (send001_continues (record001 q key val) st) as Hc.
  destruct (sendToWarp10 g w (record001 q key val) st) as [[[]|p|c] st1] eqn:Hs;
    simpl in Hc.
  - destruct (url_ok w _) eqn:Hurl.
    + destruct (IH st1) as [n Hn]. exists (S n). simpl.
      apply (continues_trans _ _ _ [_] _ Hc Hn).
    + unfold sendToWarp10, NewRequest, Print_logged in Hs.
      rewrite bind_run in Hs; simpl in Hs. by rewrite Hurl in Hs.
  - destruct (url_ok w _); [by exists 1%nat | by exists 0%nat].
  - destruct (url_ok w _); [by exists 1%nat | by exists 0%nat].
Qed.

Lemma loop001_ok keys st :
  url_ok w (warp10Endpoint g +:+ "/api/v0/update") = true → answers_200 w →
  (loop001 g w q keys st).1 = Ok tt ∧
  continues st (posts001 keys) (loop001 g w q keys st).2.
Proof.
  intros Hurl H200. revert st. induction keys as [|key keys IH]; intros st.
  { split; [done | apply continues_refl]. }
  simpl. rewrite bind_run. unfold forward at 1 3, records. simpl.
  destruct (torqueKeys g !! key) as [val|] eqn:Hval; simpl; [|apply IH].
  fold (labels_of (Get q "id") val). fold (record001 q key val).
  pose proof (send001_continues (record001 q key val) st) as Hc.
  pose proof (send001_outcome (record001 q key val) st Hurl) as Ho.
  rewrite Hurl in Hc.
  specialize (H200 (length (calls st))
                (post (warp10Endpoint g) (warp10Token g) (record001 q key val))).
  destruct (client_Do w _ _) as [[r|] err]; simpl in H200; [|done].
  injection H200 as ->. simpl in Ho.
  destruct (sendToWarp10 g w (record001 q key val) st) as [[[]|p|c] st1];
    simpl in Ho, Hc; try done.
  destruct (IH st1) as [IH1 IH2]. split; [done|].
  apply (continues_trans _ _ _ [_] _ Hc IH2).
Qed.

(** The two ways through [query]. *)
Lemma query001_closed keys st :
  no_gps q || bool_decide (Get q "eml" = user g) = true →
  query g w q keys st
  = (Ok tt, acked st (intro001 q ++ [[LStr "No GPS Data, moving on"]])).
Proof.
  intros H. unfold query. unfold no_gps in H.
  do 6 (rewrite bind_run; simpl). rewrite H.
  do 2 (rewrite bind_run; simpl). unfold w_Write, acked, intro001; simpl.
  by rewrite <- !app_assoc.
Qed.

Lemma query001_open keys st :
  no_gps q || bool_decide (Get q "eml" = user g) = false →
  query g w q keys st =
  (loop001 g w q keys ;; Header_Set "Content-Type" "text/html" ;;
   w_Write (bytes_of_string "OK!"))
    (mkState (logs st ++ intro001 q ++ parse_log (Get q "kff1010")) (calls st)
       (w_header st) (w_status st) (w_body st)).
Proof.
  intros H. unfold query. unfold no_gps in H.
  do 6 (rewrite bind_run; simpl). rewrite H.
  unfold altitude_mm, parse_log, intro001.
  destruct (ParseFloat (Get q "kff1010")) as [i [e|]]; simpl.
  - rewrite bind_run; simpl. by rewrite <- !app_assoc.
  - rewrite bind_run; simpl. by rewrite <- !app_assoc.
Qed.

Lemma query001_calls keys st :
  ∃ n, calls (query g w q keys st).2 = calls st ++ take n (posts001 keys).
Proof.
  destruct (no_gps q || bool_decide (Get q "eml" = user g)) eqn:H.
  { rewrite query001_closed by done. exists 0%nat. simpl. by rewrite app_nil_r. }
  rewrite query001_open by done. rewrite bind_run.
  set (st1 := mkState _ _ _ _ _).
  destruct (loop001_continues keys st1) as [n [Hn _]]. exists n.
  destruct (loop001 g w q keys st1) as [[[]|p|c] st2]; simpl in *; done.
Qed.

Lemma query001_returns keys st :
  (query g w q keys st).1 = Ok tt →
  ∃ st' l, query g w q keys st = (Ok tt, acked st' l) ∧ same_writer st st'.
Proof.
  destruct (no_gps q || bool_decide (Get q "eml" = user g)) eqn:H.
  { rewrite query001_closed by done. by eexists _, _. }
  rewrite query001_open by done. rewrite bind_run.
  set (st1 := mkState _ _ _ _ _).
  destruct (loop001_continues keys st1) as [n [_ Hn]].
  destruct (loop001 g w q keys st1) as [[[]|p|c] st2]; simpl in *; try done.
  intros _. exists st2, []. split; [|done].
  unfold acked. by rewrite app_nil_r.
Qed.

Lemma query001_ok keys st :
  no_gps q || bool_decide (Get q "eml" = user g) = false →
  url_ok w (warp10Endpoint g +:+ "/api/v0/update") = true → answers_200 w →
  (query g w q keys st).1 = Ok tt ∧
  calls (query g w q keys st).2 = calls st ++ posts001 keys.
Proof.
  intros H Hurl H200. rewrite query001_open by done. rewrite bind_run.
  set (st1 := mkState _ _ _ _ _).
  destruct (loop001_ok keys st1 Hurl H200) as [Ho [Hc _]].
  destruct (loop001 g w q keys st1) as [[[]|p|c] st2]; simpl in *; done.
Qed.

End Part001_facts.

(** ** Facts about [main.go] *)
Section MainGo_facts.
Import MainGo.
Variable g : globals.
Variable w : World.

Lemma sendmain_continues gts st :
  continues st
    (if url_ok w (warp10Endpoint g +:+ "/api/v0/update")
     then [post (warp10Endpoint g) (warp10Token g) gts] else [])
    (sendToWarp10 g w gts st).2.
Proof.
  unfold sendToWarp10, NewRequest.
  rewrite bind_run; simpl.
  destruct (url_ok w _); simpl; [|split; [by rewrite app_nil_r | done]].
  rewrite bind_run; simpl.
  fold (post (warp10Endpoint g) (warp10Token g) gts).
  rewrite bind_run; simpl.
  destruct (client_Do w _ _) as [[r|] [e|]]; simpl; split; done.
Qed.

Variable q : Values.

Abbreviation posts_main keys :=
  (map (post (warp10Endpoint g) (warp10Token g)) (records (torqueKeys g) (record_main q) keys)).

Lemma loop_main_continues keys st :
  ∃ n, continues st (take n (posts_main keys)) (loop_main g w q keys st).2.
Proof.
  revert st. induction keys as [|key keys IH]; intros st.
  { exists 0%nat. apply continues_refl. }
  simpl. rewrite bind_run. unfold forward at 1, records. simpl.
  destruct (torqueKeys g !! key) as [val|] eqn:Hval; simpl; [|apply IH].
  fold (record_main q key val).
  pose proof (sendmain_continues (record_main q key val) st) as Hc.
  destruct (sendToWarp10 g w (record_main q key val) st) as [[[]|p|c] st1] eqn:Hs;
    simpl in Hc.
  - destruct (url_ok w _) eqn:Hurl.
    + destruct (IH st1) as [n Hn]. exists (S n). simpl.
      apply (continues_trans _ _ _ [_] _ Hc Hn).
    + unfold sendToWarp10, NewRequest in Hs.
      rewrite bind_run in Hs; simpl in Hs. by rewrite Hurl in Hs.
  - destruct (url_ok w _); [by exists 1%nat | by exists 0%nat].
  - destruct (url_ok w _); [by exists 1%nat | by exists 0%nat].
Qed.

(** The handler of [main.go] sends a prefix of its records and never writes
    to the response. *)
Lemma query_main_continues keys st :
  ∃ n, continues st (take n (posts_main keys)) (query g w q keys st).2.
Proof.
  unfold query. rewrite bind_run; simpl.
  set (st1 := mkState _ _ _ _ _).
  destruct (loop_main_continues keys st1) as [n Hn]. by exists n.
Qed.

Lemma sendmain_ok gts st :
  url_ok w (warp10Endpoint g +:+ "/api/v0/update") = true → answers w →
  (sendToWarp10 g w gts st).1 = Ok tt.
Proof.
  intros Hurl Ha. unfold sendToWarp10, NewRequest.
  rewrite bind_run; simpl. rewrite Hurl; simpl.
  rewrite bind_run; simpl.
  fold (post (warp10Endpoint g) (warp10Token g) gts).
  rewrite bind_run; simpl.
  destruct (Ha (length (calls st)) (post (warp10Endpoint g) (warp10Token g) gts))
    as [r ->].
  done.
Qed.

Lemma loop_main_ok keys st :
  url_ok w (warp10Endpoint g +:+ "/api/v0/update") = true → answers w →
  (loop_main g w q keys st).1 = Ok tt ∧
  continues st (posts_main keys) (loop_main g w q keys st).2.
Proof.
  intros Hurl Ha. revert st. induction keys as [|key keys IH]; intros st.
  { split; [done | apply continues_refl]. }
  simpl. rewrite bind_run. unfold forward at 1 3, records. simpl.
  destruct (torqueKeys g !! key) as [val|] eqn:Hval; simpl; [|apply IH].
  fold (record_main q key val).
  pose proof (sendmain_continues (record_main q key val) st) as Hc.
  pose proof (sendmain_ok (record_main q key val) st Hurl Ha) as Ho.
  rewrite Hurl in Hc.
  destruct (sendToWarp10 g w (record_main q key val) st) as [[[]|p|c] st1];
    simpl in Ho, Hc; try done.
  destruct (IH st1) as [IH1 IH2]. split; [done|].
  apply (continues_trans _ _ _ [_] _ Hc IH2).
Qed.

(** On a datastore that answers, the handler of [main.go] sends a record
    for every key the directory knows, and returns with nothing written. *)
Lemma query_main_ok keys :
  url_ok w (warp10Endpoint g +:+ "/api/v0/update") = true → answers w →
  (query g w q keys state0).1 = Ok tt ∧
  calls (query g w q keys state0).2 = posts_main keys ∧
  reply_of (query g w q keys state0) = Some (mkReply 200 None "").
Proof.
  intros Hurl Ha. unfold query. rewrite bind_run; simpl.
  set (st1 := mkState _ _ _ _ _).
  destruct (loop_main_ok keys st1 Hurl Ha) as [Ho [Hc (Hh & Hs & Hb)]].
  destruct (loop_main g w q keys st1) as [[[]|p|c] st2]; simpl in *; try done.
  by rewrite Hh, Hs, Hb.
Qed.

End MainGo_facts.

(** * The claims *)

Lemma string_of_bytes_of_string s : string_of_bytes (bytes_of_string s) = s.
Proof. apply string_of_list_byte_of_string. Qed.

(** C2. The body sent to the datastore for a record with timestamp [ts],
    latitude [lat], longitude [lon], elevation [elev], metric [m], labels
    [l] and value [v] is the text [ts/lat:lon/elev m{l} v]: that is what
    [Print] returns, and what [sendToWarp10] hands to [client.Do] in each
    variant.  The sample record serializes to
    [1500000000000000/45.0:3.0/12345 speed{id=42} 87]. *)
Theorem Print_wire_format (ts lat lon elev m l v : string) :
  let gts := mkGTS ts lat lon elev m l v in
  let line := ts +:+ "/" +:+ lat +:+ ":" +:+ lon +:+ "/" +:+ elev +:+ " "
              +:+ m +:+ "{" +:+ l +:+ "}" +:+ " " +:+ v in
  Print gts = bytes_of_string line ∧
  string_of_bytes (Print gts) = line ∧
  (∀ g w st,
     calls (Part000.sendToWarp10 g w gts st).2 =
     calls st ++
       (if url_ok w (Part000.warp10Endpoint g +:+ "/api/v0/update")
        then [mkRequest "POST" (Part000.warp10Endpoint g +:+ "/api/v0/update")
                (Some (Part000.warp10Token g)) (bytes_of_string line)]
        else [])) ∧
  (∀ g w st,
     calls (Part001.sendToWarp10 g w gts st).2 =
     calls st ++
       (if url_ok w (Part001.warp10Endpoint g +:+ "/api/v0/update")
        then [mkRequest "POST" (Part001.warp10Endpoint g +:+ "/api/v0/update")
                (Some (Part001.warp10Token g)) (bytes_of_string line)]
        else [])) ∧
  (∀ g w st,
     calls (MainGo.sendToWarp10 g w gts st).2 =
     calls st ++
       (if url_ok w (MainGo.warp10Endpoint g +:+ "/api/v0/update")
        then [mkRequest "POST" (MainGo.warp10Endpoint g +:+ "/api/v0/update")
                (Some (MainGo.warp10Token g)) (bytes_of_string line)]
        else [])) ∧
  string_of_bytes
    (Print (mkGTS "1500000000000000" "45.0" "3.0" "12345" "speed" "id=42" "87"))
  = "1500000000000000/45.0:3.0/12345 speed{id=42} 87".
Proof.
  intros gts line.
  assert (Print gts = bytes_of_string line) as HP by reflexivity.
  split; [done|]. split; [by rewrite HP, string_of_bytes_of_string|].
  split; [|split; [|split]].
  - intros g w st. destruct (send000_continues g w gts st) as [Hc _].
    rewrite Hc. by destruct (url_ok w _).
  - intros g w st. destruct (send001_continues g w gts st) as [Hc _].
    rewrite Hc. by destruct (url_ok w _).
  - intros g w st. destruct (sendmain_continues g w gts st) as [Hc _].
    rewrite Hc. by destruct (url_ok w _).
  - reflexivity.
Qed.

(** C10. In [sendToWarp10] of [unnamed/part_000] and [unnamed/part_001]
    the status code is read before the error of the transport is looked at:
    when [client.Do] returns a nil response with an error, the function
    panics on the nil response, and the branch that would log the error is
    never reached (nothing but the line of [Print] is logged). *)
Theorem sendToWarp10_reads_status_first
    (g0 : Part000.globals) (g1 : Part001.globals) (w : World) (gts : GTS)
    (st : state) (e : error) :
  url_ok w (Part000.warp10Endpoint g0 +:+ "/api/v0/update") = true →
  url_ok w (Part001.warp10Endpoint g1 +:+ "/api/v0/update") = true →
  client_Do w (length (calls st))
    (post (Part000.warp10Endpoint g0) (Part000.warp10Token g0) gts) = (None, Some e) →
  client_Do w (length (calls st))
    (post (Part001.warp10Endpoint g1) (Part001.warp10Token g1) gts) = (None, Some e) →
  Part000.sendToWarp10 g0 w gts st =
    (Panic NilDereference,
     mkState (logs st)
       (calls st ++ [post (Part000.warp10Endpoint g0) (Part000.warp10Token g0) gts])
       (w_header st) (w_status st) (w_body st)) ∧
  Part001.sendToWarp10 g1 w gts st =
    (Panic NilDereference,
     mkState (logs st ++ [[LStr (string_of_bytes (Print gts))]])
       (calls st ++ [post (Part001.warp10Endpoint g1) (Part001.warp10Token g1) gts])
       (w_header st) (w_status st) (w_body st)).
Proof.
  intros Hu0 Hu1 Hd0 Hd1. split.
  - unfold Part000.sendToWarp10, NewRequest. rewrite Hu0. simpl.
    rewrite bind_run; simpl. rewrite bind_run; simpl.
    fold (post (Part000.warp10Endpoint g0) (Part000.warp10Token g0) gts).
    by rewrite Hd0.
  - unfold Part001.sendToWarp10, NewRequest, Part001.Print_logged.
    rewrite bind_run; simpl. rewrite Hu1. simpl.
    rewrite bind_run; simpl.
    fold (post (Part001.warp10Endpoint g1) (Part001.warp10Token g1) gts).
    rewrite bind_run; simpl. by rewrite Hd1.
Qed.

Lemma sendToWarp10_reads_status_first_witness :
  Part000.sendToWarp10 g000_ex w_down (mkGTS "100" "45.0" "3.0" "12345" "rpm" "id=7" "3000") state0 =
    (Panic NilDereference,
     mkState [] [post "http://warp10" "token" (mkGTS "100" "45.0" "3.0" "12345" "rpm" "id=7" "3000")]
       ∅ None []) ∧
  Part001.sendToWarp10 g001_ex w_down (mkGTS "100" "45.0" "3.0" "12345" "rpm" "id=7" "3000") state0 =
    (Panic NilDereference,
     mkState [[LStr "100/45.0:3.0/12345 rpm{id=7} 3000"]]
       [post "http://warp10" "token" (mkGTS "100" "45.0" "3.0" "12345" "rpm" "id=7" "3000")]
       ∅ None []).
Proof.
  apply (sendToWarp10_reads_status_first g000_ex g001_ex w_down
           (mkGTS "100" "45.0" "3.0" "12345" "rpm" "id=7" "3000") state0
           (EOther "connection refused")); reflexivity.
Defined.

(** ** The handlers return or panic, they never exit *)

Lemma send000_no_exit g w gts st c : (Part000.sendToWarp10 g w gts st).1 ≠ Exit c.
Proof.
  unfold Part000.sendToWarp10, NewRequest.
  destruct (url_ok w _); simpl; [|done].
  rewrite bind_run; simpl. rewrite bind_run; simpl.
  destruct (client_Do w _ _) as [[r|] err]; simpl; [|done].
  rewrite bind_run. case_bool_decide; simpl; [done|]. by destruct err.
Qed.

Lemma send001_no_exit g w gts st c : (Part001.sendToWarp10 g w gts st).1 ≠ Exit c.
Proof.
  unfold Part001.sendToWarp10, NewRequest, Part001.Print_logged.
  rewrite bind_run; simpl.
  destruct (url_ok w _); simpl; [|done].
  rewrite bind_run; simpl. rewrite bind_run; simpl.
  destruct (client_Do w _ _) as [[r|] err]; simpl; [|done].
  rewrite bind_run. case_bool_decide; simpl; [done|].
  rewrite bind_run. by destruct err.
Qed.

Lemma forM__no_exit {A} (body : A → M unit) (l : list A) :
  (∀ x st c, (body x st).1 ≠ Exit c) → ∀ st c, (forM_ l body st).1 ≠ Exit c.
Proof.
  intros Hb. induction l as [|x l IH]; intros st c; [done|].
  simpl. rewrite bind_run. specialize (Hb x st).
  destruct (body x st) as [[[]|p|c'] st1]; simpl in *; [apply IH | done |].
  by destruct (Hb c').
Qed.

Lemma query000_dichotomy g w q keys st :
  (∃ st' l, Part000.query g w q keys st = (Ok tt, acked st' l) ∧ same_writer st st')
  ∨ (∃ p st', Part000.query g w q keys st = (Panic p, st')).
Proof.
  destruct (Part000.query g w q keys st) as [[[]|p|c] st1] eqn:Hq.
  - left. rewrite <- Hq. apply query000_returns. by rewrite Hq.
  - right. by eexists _, _.
  - exfalso. revert Hq.
    destruct (stringInSlice (Get q "eml") (Part000.users g)) eqn:H1.
    { by rewrite query000_listed. }
    destruct (no_gps q) eqn:H2.
    { by rewrite query000_no_gps. }
    rewrite query000_open by done. rewrite bind_run.
    set (st0 := mkState _ _ _ _ _).
    pose proof (forM__no_exit
      (Part000.forward g w q (Get q "id") (Get q "time") (Get q "kff1006")
         (Get q "kff1005") (altitude_mm (Get q "kff1010"))) keys) as Hne.
    destruct (loop000 g w q keys st0) as [[[]|p|c'] st2] eqn:Hl; simpl; try done.
    intros _. refine (Hne _ st0 c' _); [|by rewrite Hl].
    intros x st' c''. unfold Part000.forward.
    destruct (Part000.torqueKeys g !! x); [apply send000_no_exit | done].
Qed.

Lemma query001_dichotomy g w q keys st :
  (∃ st' l, Part001.query g w q keys st = (Ok tt, acked st' l) ∧ same_writer st st')
  ∨ (∃ p st', Part001.query g w q keys st = (Panic p, st')).
Proof.
  destruct (Part001.query g w q keys st) as [[[]|p|c] st1] eqn:Hq.
  - left. rewrite <- Hq. apply query001_returns. by rewrite Hq.
  - right. by eexists _, _.
  - exfalso. revert Hq.
    destruct (no_gps q || bool_decide (Get q "eml" = Part001.user g)) eqn:H.
    { by rewrite query001_closed. }
    rewrite query001_open by done. rewrite bind_run.
    set (st0 := mkState _ _ _ _ _).
    pose proof (forM__no_exit
      (Part001.forward g w q (Get q "id") (Get q "time") (Get q "kff1006")
         (Get q "kff1005") (altitude_mm (Get q "kff1010"))) keys) as Hne.
    destruct (loop001 g w q keys st0) as [[[]|p|c'] st2] eqn:Hl; simpl; try done.
    intros _. refine (Hne _ st0 c' _); [|by rewrite Hl].
    intros x st' c''. unfold Part001.forward.
    destruct (Part001.torqueKeys g !! x); [apply send001_no_exit | done].
Qed.

Lemma missing_no_gps q :
  missing q "kff1005" ∨ missing q "kff1006" ∨ missing q "kff1010" → no_gps q = true.
Proof.
  unfold missing, no_gps.
  intros [[H|H]|[[H|H]|[H|H]]]; try apply Get_absent in H; rewrite H; simpl;
    by rewrite ?orb_true_r.
Qed.

Lemma answers_200_w200 : answers_200 w200.
Proof. by intros n req. Qed.

(** C3 (as the code has it). In the two variants that gate on the
    position, [unnamed/part_000] and [unnamed/part_001], a request in which
    one of [kff1005], [kff1006], [kff1010] is absent or empty makes no call
    to the datastore and is answered with the fixed acknowledgment, whatever
    else it carries and whatever the world does.  The handler of [main.go]
    has no gate: on a datastore that answers, it sends for such a request,
    as for any other, one record for each key the directory knows, with the
    position as received, and returns with nothing written. *)
Theorem geolocation_gate (g0 : Part000.globals) (g1 : Part001.globals)
    (gm : MainGo.globals) (w : World) (q : Values) (keys : list string) :
  missing q "kff1005" ∨ missing q "kff1006" ∨ missing q "kff1010" →
  calls (Part000.query g0 w q keys state0).2 = [] ∧
  reply_of (Part000.query g0 w q keys state0) = Some ack ∧
  calls (Part001.query g1 w q keys state0).2 = [] ∧
  reply_of (Part001.query g1 w q keys state0) = Some ack ∧
  (url_ok w (MainGo.warp10Endpoint gm +:+ "/api/v0/update") = true → answers w →
   calls (MainGo.query gm w q keys state0).2
   = map (post (MainGo.warp10Endpoint gm) (MainGo.warp10Token gm))
       (records (MainGo.torqueKeys gm)
          (λ key val,
             mkGTS (Get q "time") (Get q "kff1006") (Get q "kff1005")
               (Get q "kff1010") (MetricName val) (Tag val) (Get q key))
          keys) ∧
   reply_of (MainGo.query gm w q keys state0) = Some (mkReply 200 None "")).
Proof.
  intros Hm. apply missing_no_gps in Hm.
  assert (Part001.query g1 w q keys state0
          = (Ok tt, acked state0 (intro001 q ++ [[LStr "No GPS Data, moving on"]])))
    as H1 by (apply query001_closed; by rewrite Hm).
  rewrite H1.
  assert (url_ok w (MainGo.warp10Endpoint gm +:+ "/api/v0/update") = true →
          answers w →
          calls (MainGo.query gm w q keys state0).2
          = map (post (MainGo.warp10Endpoint gm) (MainGo.warp10Token gm))
              (records (MainGo.torqueKeys gm) (record_main q) keys) ∧
          reply_of (MainGo.query gm w q keys state0) = Some (mkReply 200 None ""))
    as HM by (intros Hu Ha; by destruct (query_main_ok gm w q keys Hu Ha) as (_ & ? & ?)).
  destruct (stringInSlice (Get q "eml") (Part000.users g0)) eqn:Hl.
  - rewrite query000_listed by done. by rewrite !reply_acked.
  - rewrite query000_no_gps by done. by rewrite !reply_acked.
Qed.

Lemma geolocation_gate_witness :
  (calls (Part000.query g000_ex w500 q_nolon keys_nolon state0).2 = [] ∧
   reply_of (Part000.query g000_ex w500 q_nolon keys_nolon state0) = Some ack ∧
   calls (Part001.query g001_ex w500 q_nolon keys_nolon state0).2 = [] ∧
   reply_of (Part001.query g001_ex w500 q_nolon keys_nolon state0) = Some ack) ∧
  length (calls (MainGo.query gmain_ex w200 q_nolon keys_nolon state0).2) = 2%nat.
Proof.
  split.
  - destruct (geolocation_gate g000_ex g001_ex gmain_ex w500 q_nolon keys_nolon)
      as (H1 & H2 & H3 & H4 & _); [left; left; reflexivity | done].
  - destruct (geolocation_gate g000_ex g001_ex gmain_ex w200 q_nolon keys_nolon)
      as (_ & _ & _ & _ & HM); [left; left; reflexivity |].
    destruct HM as [-> _]; [reflexivity | by intros n req; eexists | reflexivity].
Defined.

(** C3, the claim as stated, fails on the handler of [main.go], which has
    no gate: a report without longitude is forwarded, one record for each
    recognised key with an empty longitude, and nothing is written to the
    caller. *)
Lemma main_go_forwards_without_position :
  missing q_nolon "kff1005" ∧
  calls (MainGo.query gmain_ex w200 q_nolon keys_nolon state0).2 =
    [post "http://warp10" "token"
       (mkGTS "100" "45.0" "" "12.345" "speed" "type=sensor" "87");
     post "http://warp10" "token" (mkGTS "100" "45.0" "" "12.345" "rpm" "" "3000")] ∧
  reply_of (MainGo.query gmain_ex w200 q_nolon keys_nolon state0)
  = Some (mkReply 200 None "") ∧
  ¬ (calls (MainGo.query gmain_ex w200 q_nolon keys_nolon state0).2 = [] ∧
     reply_of (MainGo.query gmain_ex w200 q_nolon keys_nolon state0) = Some ack).
Proof.
  split; [by left|]. split; [by vm_compute|]. split; [by vm_compute|].
  intros [H _]. vm_compute in H. discriminate H.
Qed.

(** C7 (as the code has it). In [unnamed/part_000] and [unnamed/part_001]
    the handler either returns, and then the caller receives status 200,
    content type [text/html] and the body [OK!], or it panics, and then the
    caller receives nothing; it returns whenever every call to the
    datastore is answered with status 200, however many records it
    forwards; a call answered with another status panics the handler
    through [log.Panicln]. *)
Theorem acknowledgment_when_query_returns (g0 : Part000.globals)
    (g1 : Part001.globals) (w : World) (q : Values) (keys : list string) :
  (reply_of (Part000.query g0 w q keys state0) = Some ack
   ∨ ∃ p, (Part000.query g0 w q keys state0).1 = Panic p) ∧
  (reply_of (Part001.query g1 w q keys state0) = Some ack
   ∨ ∃ p, (Part001.query g1 w q keys state0).1 = Panic p) ∧
  (answers_200 w →
   url_ok w (Part000.warp10Endpoint g0 +:+ "/api/v0/update") = true →
   url_ok w (Part001.warp10Endpoint g1 +:+ "/api/v0/update") = true →
   reply_of (Part000.query g0 w q keys state0) = Some ack ∧
   reply_of (Part001.query g1 w q keys state0) = Some ack) ∧
  (∀ gts st r err,
     url_ok w (Part000.warp10Endpoint g0 +:+ "/api/v0/update") = true →
     client_Do w (length (calls st))
       (post (Part000.warp10Endpoint g0) (Part000.warp10Token g0) gts) = (Some r, err) →
     StatusCode r ≠ 200 →
     (Part000.sendToWarp10 g0 w gts st).1
     = Panic (PanicLog [LStr "Error"; LInt (StatusCode r); LStr ":"; LRespBody])) ∧
  (∀ gts st r err,
     url_ok w (Part001.warp10Endpoint g1 +:+ "/api/v0/update") = true →
     client_Do w (length (calls st))
       (post (Part001.warp10Endpoint g1) (Part001.warp10Token g1) gts) = (Some r, err) →
     StatusCode r ≠ 200 →
     (Part001.sendToWarp10 g1 w gts st).1
     = Panic (PanicLog [LStr "Error"; LInt (StatusCode r); LStr ":"; LRespBody])).
Proof.
  assert (∀ st' l, same_writer state0 st' →
            reply_of (Ok tt, acked st' l) = Some ack) as Hack.
  { intros st' l (_ & Hs & Hb). by apply reply_acked. }
  split; [|split; [|split; [|split]]].
  - destruct (query000_dichotomy g0 w q keys state0) as [(st' & l & -> & Hw)|(p & st' & ->)];
      [left; by apply Hack | right; by exists p].
  - destruct (query001_dichotomy g1 w q keys state0) as [(st' & l & -> & Hw)|(p & st' & ->)];
      [left; by apply Hack | right; by exists p].
  - intros H200 Hu0 Hu1. split.
    + destruct (query000_returns g0 w q keys state0) as (st' & l & -> & Hw);
        [|by apply Hack].
      destruct (stringInSlice (Get q "eml") (Part000.users g0)) eqn:H1;
        [by rewrite query000_listed|].
      destruct (no_gps q) eqn:H2; [by rewrite query000_no_gps|].
      by apply query000_ok.
    + destruct (query001_returns g1 w q keys state0) as (st' & l & -> & Hw);
        [|by apply Hack].
      destruct (no_gps q || bool_decide (Get q "eml" = Part001.user g1)) eqn:H;
        [by rewrite query001_closed|].
      by apply query001_ok.
  - intros gts st r err Hu Hd Hs. rewrite send000_outcome by done.
    rewrite Hd. by rewrite bool_decide_eq_false_2.
  - intros gts st r err Hu Hd Hs. rewrite send001_outcome by done.
    rewrite Hd. by rewrite bool_decide_eq_false_2.
Qed.

Lemma acknowledgment_when_query_returns_witness :
  (reply_of (Part000.query g000_ex w200 q_ex keys_ex state0) = Some ack ∧
   reply_of (Part001.query g001_ex w200 q_ex keys_ex state0) = Some ack) ∧
  (Part000.sendToWarp10 g000_ex w500 (record000 q_ex "kfx1" (mkTorqueKey "rpm" "")) state0).1
  = Panic (PanicLog [LStr "Error"; LInt 500; LStr ":"; LRespBody]).
Proof.
  split.
  - apply (acknowledgment_when_query_returns g000_ex g001_ex w200 q_ex keys_ex);
      [apply answers_200_w200 | reflexivity | reflexivity].
  - refine (proj1 (proj2 (proj2 (proj2
      (acknowledgment_when_query_returns g000_ex g001_ex w500 q_ex keys_ex))))
      _ state0 (mkResponse 500) None _ _ _); [reflexivity | reflexivity | done].
Defined.

(** C7, the claim as stated, fails: when the datastore answers 500 the
    handler of [unnamed/part_000] panics before it writes, and the caller
    receives no acknowledgment. *)
Lemma acknowledgment_lost_on_status_500 :
  (Part000.query g000_ex w500 q_ex keys_ex state0).1
  = Panic (PanicLog [LStr "Error"; LInt 500; LStr ":"; LRespBody]) ∧
  reply_of (Part000.query g000_ex w500 q_ex keys_ex state0) = None ∧
  ¬ (∀ w, reply_of (Part000.query g000_ex w q_ex keys_ex state0) = Some ack).
Proof.
  split; [by vm_compute|]. split; [by vm_compute|].
  intros H. specialize (H w500). vm_compute in H. discriminate H.
Qed.

(** ** Start-up *)

Lemma stringInSlice_elem_of str l : stringInSlice str l = true ↔ str ∈ l.
Proof.
  induction l as [|v l IH]; simpl.
  - split; [done | by intros ?%elem_of_nil].
  - case_bool_decide as Hv.
    + subst. split; [intros _; apply elem_of_cons; by left | done].
    + rewrite IH, elem_of_cons.
      split; [by right | intros [H|H]; [by destruct Hv | done]].
Qed.

Lemma Split_go_not_nil s sep cur : Split_go s sep cur ≠ [].
Proof.
  revert cur. induction s as [|c s IH]; intros cur; simpl; [done|].
  destruct (Ascii.eqb c sep); [done | apply IH].
Qed.

Lemma append_users (l acc : list string) :
  fold_left (λ us user, us ++ [user]) l acc = acc ++ l.
Proof.
  revert acc. induction l as [|x l IH]; intros acc; simpl.
  - by rewrite app_nil_r.
  - rewrite IH. by rewrite <- app_assoc.
Qed.

Lemma feed_loaded rows verbose :
  Forall (λ r, length r = 3%nat) rows →
  ∀ key tk st, ∃ st',
    feed (S key) rows verbose tk st
    = (Ok (fold_left (λ tk r, <[nth 0 r "" := entry_of r]> tk) rows tk), st').
Proof.
  induction 1 as [|r rows Hr Hrows IH]; intros key tk st; simpl.
  { by exists st. }
  destruct r as [|e0 [|e1 [|e2 r]]]; simpl in Hr; try discriminate Hr.
  rewrite bind_run.
  destruct verbose; simpl; apply IH.
Qed.

Lemma feed_header rows verbose tk st :
  Forall (λ r, length r = 3%nat) rows →
  ∃ st', feed 0 rows verbose tk st
         = (Ok (fold_left (λ tk r, <[nth 0 r "" := entry_of r]> tk) (tail rows) tk), st').
Proof.
  intros H. destruct rows as [|r rows]; simpl; [by exists st|].
  apply feed_loaded. by inversion H.
Qed.

Lemma ReadAll_inl n rs :
  ReadAll n rs = inl rs ∨ (∃ e, ReadAll n rs = inr e ∧ ¬ Forall (λ r, length r = n) rs).
Proof.
  unfold ReadAll. destruct (forallb _ rs) eqn:H; [by left|].
  right. eexists; split; [done|]. intros HF.
  assert (forallb (λ r, Nat.eqb (length r) n) rs = true); [|congruence].
  apply forallb_forall. intros r Hr. apply Nat.eqb_eq.
  rewrite Forall_forall in HF. apply HF. by apply list_elem_of_In.
Qed.

Lemma ReadAll_inv n rs rows : ReadAll n rs = inl rows → rows = rs ∧ Forall (λ r, length r = n) rs.
Proof.
  unfold ReadAll. destruct (forallb _ rs) eqn:H; [|done].
  intros [= <-]. split; [done|].
  rewrite Forall_forall. intros r Hr. apply Nat.eqb_eq.
  rewrite forallb_forall in H. apply H. by apply list_elem_of_In.
Qed.

Lemma forM__Println_Exit (l : list logline) st {A} :
  ∃ st', (forM_ l Println ;; os_Exit 1) st = (@Exit A 1, st').
Proof.
  rewrite bind_run. revert st. induction l as [|x l IH]; intros st; simpl.
  { by exists st. }
  rewrite bind_run. simpl. apply IH.
Qed.

(** [load_keys] ends with the directory or with [os.Exit(1)]. *)
Lemma load_keys_outcome b verbose msg st :
  (∃ rows st', keys_csv b = Records rows ∧ Forall (λ r, length r = 3%nat) rows ∧
               load_keys b verbose msg st = (Ok (load rows), st'))
  ∨ (∃ st', load_keys b verbose msg st = (Exit 1, st')).
Proof.
  unfold load_keys. destruct (keys_csv b) as [e|e|rs] eqn:Hk.
  - right. rewrite bind_run. simpl. by eexists.
  - right. apply forM__Println_Exit.
  - destruct (ReadAll 3 rs) as [rows|e] eqn:HR.
    + apply ReadAll_inv in HR as [-> HF]. left.
      destruct (feed_header rs verbose ∅ st HF) as [st' Hf].
      exists rs, st'. by rewrite Hf.
    + right. apply forM__Println_Exit.
Qed.

(** The directory answers with the last row of a field code. *)
Lemma fold_insert_lookup (rows : list (list string)) (tk : TorqueKeys) c :
  Forall (λ r, length r = 3%nat) rows →
  fold_left (λ tk r, <[nth 0 r "" := entry_of r]> tk) rows tk !! c
  = match last (filter (λ r, head r = Some c) rows) with
    | Some r => Some (entry_of r)
    | None => tk !! c
    end.
Proof.
  intros H. revert tk. induction H as [|r rows Hr Hrows IH]; intros tk; simpl; [done|].
  rewrite IH. rewrite filter_cons.
  destruct r as [|e0 r']; [done|]. simpl.
  case_decide as Hc.
  - injection Hc as ->.
    rewrite last_cons.
    destruct (last (filter _ rows)); [done|]. by rewrite lookup_insert_eq.
  - destruct (last (filter _ rows)); [done|].
    rewrite lookup_insert_ne; [done | congruence].
Qed.

Lemma load_lookup rows c :
  Forall (λ r, length r = 3%nat) rows →
  load rows !! c = entry_of <$> last (rows_of c rows).
Proof.
  intros H. unfold load, rows_of.
  rewrite fold_insert_lookup.
  - by destruct (last _).
  - destruct rows; [done | by inversion H].
Qed.

(** [init] of [unnamed/part_000] ends with the globals or with
    [os.Exit(1)]: it never panics. *)
Lemma init000_outcome b st :
  (∃ rows st', keys_csv b = Records rows ∧ Forall (λ r, length r = 3%nat) rows ∧
     Part000.init b st
     = (Ok (Part000.mkGlobals (Getenv b "WARP10_ENDPOINT") (Getenv b "WARP10_TOKEN")
              (load rows) (Split (Getenv b "ALLOWED_USERS") ",")), st'))
  ∨ (∃ st', Part000.init b st = (Exit 1, st')).
Proof.
  unfold Part000.init. rewrite append_users. simpl.
  rewrite bind_run.
  destruct (Split (Getenv b "ALLOWED_USERS") ",") as [|u us] eqn:HS.
  { by apply Split_go_not_nil in HS. }
  simpl. rewrite bind_run.
  destruct (is_empty (Getenv b "WARP10_ENDPOINT") || is_empty (Getenv b "WARP10_TOKEN")).
  { right. rewrite bind_run. simpl. by eexists. }
  simpl. rewrite bind_run.
  destruct (load_keys_outcome b true (λ e, [[LStr "Error in parsing:"; LErr e]]) st)
    as [(rows & st' & Hk & HF & ->)|(st' & ->)].
  - left. by exists rows, st'.
  - right. by exists st'.
Qed.

(** C8 (what the code does). The check of [init] on the allowed users can
    never fire: [strings.Split] returns one string at least, so with
    [ALLOWED_USERS] unset or empty the list of users is [[""]], [init]
    never panics, and the process starts when the rest of the
    configuration is there; the handler then serves, and forwards the
    report of any caller that names itself. *)
Theorem empty_allow_list_is_not_fatal :
  (∀ env, Split env "," ≠ []) ∧
  (∀ b st p, (Part000.init b st).1 ≠ Panic p) ∧
  (∃ g st, Part000.init (boot_ex "") state0 = (Ok g, st) ∧
           g = Part000.mkGlobals "http://warp10" "token" (load table_ex) [""] ∧
           calls (Part000.query g w200 q_rpm keys_rpm state0).2
           = [post "http://warp10" "token"
                (mkGTS "100" "45.0" "3.0" "12345" "rpm" "id=7" "3000")] ∧
           reply_of (Part000.query g w200 q_rpm keys_rpm state0) = Some ack).
Proof.
  split; [intros env; apply Split_go_not_nil|]. split.
  - intros b st p.
    destruct (init000_outcome b st) as [(rows & st' & _ & _ & ->)|(st' & ->)]; done.
  - destruct (init000_outcome (boot_ex "") state0)
      as [(rows & st' & Hk & _ & H)|(st' & H)].
    + injection Hk as <-. eexists _, st'. split; [exact H|].
      split; [reflexivity|]. split; by vm_compute.
    + exfalso. vm_compute in H. discriminate H.
Qed.

(** C1 (what the code does). The check on the caller is the reverse of an
    allow-list: a caller whose [eml] is on the configured list is logged as
    unauthorized and nothing is forwarded for it, and a caller that is not
    on the list, with a position, has all its recognised fields
    forwarded. *)
Theorem allow_list_check_is_inverted (g0 : Part000.globals)
    (g1 : Part001.globals) (w : World) (q : Values) (keys : list string) :
  (Get q "eml" ∈ Part000.users g0 →
   Part000.query g0 w q keys state0 = (Ok tt, acked state0 [[LStr "unauthorized"]]) ∧
   calls (Part000.query g0 w q keys state0).2 = [] ∧
   reply_of (Part000.query g0 w q keys state0) = Some ack) ∧
  (Get q "eml" = Part001.user g1 →
   calls (Part001.query g1 w q keys state0).2 = [] ∧
   reply_of (Part001.query g1 w q keys state0) = Some ack) ∧
  (Get q "eml" ∉ Part000.users g0 → no_gps q = false →
   url_ok w (Part000.warp10Endpoint g0 +:+ "/api/v0/update") = true →
   answers_200 w →
   calls (Part000.query g0 w q keys state0).2
   = map (post (Part000.warp10Endpoint g0) (Part000.warp10Token g0))
       (records (Part000.torqueKeys g0) (record000 q) keys)) ∧
  (Get q "eml" ≠ Part001.user g1 → no_gps q = false →
   url_ok w (Part001.warp10Endpoint g1 +:+ "/api/v0/update") = true →
   answers_200 w →
   calls (Part001.query g1 w q keys state0).2
   = map (post (Part001.warp10Endpoint g1) (Part001.warp10Token g1))
       (records (Part001.torqueKeys g1) (record001 q) keys)).
Proof.
  split; [|split; [|split]].
  - intros Hin. apply stringInSlice_elem_of in Hin.
    rewrite query000_listed by done. by rewrite reply_acked.
  - intros Heq.
    rewrite query001_closed
      by (rewrite (bool_decide_eq_true_2 _ Heq); apply orb_true_r).
    by rewrite reply_acked.
  - intros Hin Hg Hu H200.
    apply (query000_ok g0 w q keys state0); try done.
    destruct (stringInSlice _ _) eqn:E; [|done].
    by apply stringInSlice_elem_of in E.
  - intros Hne Hg Hu H200.
    apply (query001_ok g1 w q keys state0); try done.
    by rewrite Hg, bool_decide_eq_false_2.
Qed.

Lemma allow_list_check_is_inverted_witness :
  (calls (Part000.query g000_bob w200 q_ex keys_ex state0).2 = [] ∧
   calls (Part001.query g001_bob w200 q_ex keys_ex state0).2 = []) ∧
  (calls (Part000.query g000_ex w200 q_ex keys_ex state0).2
   = [post "http://warp10" "token"
        (mkGTS "100" "45.0" "3.0" "12345" "speed" "id=7,type=sensor" "87");
      post "http://warp10" "token"
        (mkGTS "100" "45.0" "3.0" "12345" "rpm" "id=7" "3000")] ∧
   calls (Part001.query g001_ex w200 q_ex keys_ex state0).2
   = [post "http://warp10" "token"
        (mkGTS "100000" "45.0" "3.0" "12345" "speed" "id=7,type=sensor" "87");
      post "http://warp10" "token"
        (mkGTS "100000" "45.0" "3.0" "12345" "rpm" "id=7" "3000")]).
Proof.
  destruct (allow_list_check_is_inverted g000_bob g001_bob w200 q_ex keys_ex)
    as (B0 & B1 & _ & _).
  destruct (allow_list_check_is_inverted g000_ex g001_ex w200 q_ex keys_ex)
    as (_ & _ & F0 & F1).
  split; split.
  - apply B0. apply stringInSlice_elem_of. reflexivity.
  - apply B1. reflexivity.
  - rewrite F0; [reflexivity | | reflexivity | reflexivity | apply answers_200_w200].
    intros H%stringInSlice_elem_of. discriminate H.
  - rewrite F1; [reflexivity | | reflexivity | reflexivity | apply answers_200_w200].
    vm_compute. discriminate.
Defined.

(** ** Keys the directory does not know *)

Lemma Get_insert_ne (q : Values) k vs key : k ≠ key → Get (<[k := vs]> q) key = Get q key.
Proof. intros H. unfold Get. by rewrite lookup_insert_ne. Qed.

(** The loop over all the keys is the loop over the recognised ones. *)
Lemma loop000_filter g w q id time lat lon alt keys st :
  forM_ keys (Part000.forward g w q id time lat lon alt) st
  = forM_ (filter (λ k, is_Some (Part000.torqueKeys g !! k)) keys)
      (Part000.forward g w q id time lat lon alt) st.
Proof.
  revert st. induction keys as [|key keys IH]; intros st; [done|].
  rewrite filter_cons. case_decide as Hk; simpl; rewrite !bind_run.
  - destruct (Part000.forward g w q id time lat lon alt key st) as [[[]|p|c] st1];
      [apply IH | done | done].
  - unfold Part000.forward at 1.
    destruct (Part000.torqueKeys g !! key) eqn:E; [by destruct Hk|]. apply IH.
Qed.

(** A parameter the directory does not know, and that [query] does not
    read itself, changes nothing. *)
Lemma loop000_insert g w q k vs id time lat lon alt keys st :
  Part000.torqueKeys g !! k = None →
  forM_ keys (Part000.forward g w (<[k := vs]> q) id time lat lon alt) st
  = forM_ (filter (λ k', k' ≠ k) keys) (Part000.forward g w q id time lat lon alt) st.
Proof.
  intros Hk. revert st. induction keys as [|key keys IH]; intros st; [done|].
  rewrite filter_cons. case_decide as Hne; simpl; rewrite !bind_run.
  - assert (Part000.forward g w (<[k := vs]> q) id time lat lon alt key st
            = Part000.forward g w q id time lat lon alt key st) as ->.
    { unfold Part000.forward. by rewrite Get_insert_ne. }
    destruct (Part000.forward g w q id time lat lon alt key st) as [[[]|p|c] st1];
      [apply IH | done | done].
  - assert (key = k) as -> by (by destruct (decide (key = k)); [|destruct Hne]).
    unfold Part000.forward at 1. rewrite Hk. apply IH.
Qed.

Lemma query000_loop_ext g w q q' keys keys' :
  Get q' "eml" = Get q "eml" → Get q' "kff1005" = Get q "kff1005" →
  Get q' "kff1006" = Get q "kff1006" → Get q' "kff1010" = Get q "kff1010" →
  Get q' "id" = Get q "id" → Get q' "time" = Get q "time" →
  (∀ id time lat lon alt st,
     forM_ keys' (Part000.forward g w q' id time lat lon alt) st
     = forM_ keys (Part000.forward g w q id time lat lon alt) st) →
  ∀ st, Part000.query g w q' keys' st = Part000.query g w q keys st.
Proof.
  intros He H5 H6 H10 Hi Ht Hl st.
  assert (no_gps q' = no_gps q) as Hg by (unfold no_gps; by rewrite H5, H6, H10).
  destruct (stringInSlice (Get q "eml") (Part000.users g)) eqn:H1.
  { rewrite !query000_listed; [done | done | by rewrite He]. }
  destruct (no_gps q) eqn:H2.
  { rewrite !query000_no_gps; [done | done | done | by rewrite He | done]. }
  rewrite !query000_open; [| done | done | by rewrite He | by rewrite Hg].
  rewrite !bind_run. rewrite H5, H6, H10, Hi, Ht, Hl. done.
Qed.

(** C6. When the table has three columns in every row and the endpoint and
    the token are set, [init] of [unnamed/part_000] returns, and the
    directory it has loaded answers, for every field code, with the metric
    name and the tag of the last row after the header that bears the code,
    and with "not found" for a code that no such row bears.  In [query], a
    parameter whose key is not found sends nothing: the run over all the
    keys is the run over the recognised ones, and adding such a parameter
    to a request (one that [query] does not read itself) leaves the run as
    it was. *)
Theorem directory_lookup (b : Boot) (rows : list (list string)) (w : World) :
  keys_csv b = Records rows →
  Forall (λ r, length r = 3%nat) rows →
  Getenv b "WARP10_ENDPOINT" ≠ "" →
  Getenv b "WARP10_TOKEN" ≠ "" →
  ∃ g st,
    Part000.init b state0 = (Ok g, st) ∧
    (∀ c, Part000.torqueKeys g !! c = entry_of <$> last (rows_of c rows)) ∧
    (∀ c m t, last (rows_of c rows) = Some [c; m; t] →
              Part000.torqueKeys g !! c = Some (mkTorqueKey m t)) ∧
    (∀ c r, r ∈ tail rows → head r = Some c →
            is_Some (Part000.torqueKeys g !! c)) ∧
    (∀ c, rows_of c rows = [] → Part000.torqueKeys g !! c = None) ∧
    (∀ q id time lat lon alt key st',
       Part000.torqueKeys g !! key = None →
       Part000.forward g w q id time lat lon alt key st' = (Ok tt, st')) ∧
    (∀ q keys st',
       Part000.query g w q keys st'
       = Part000.query g w q
           (filter (λ k, is_Some (Part000.torqueKeys g !! k)) keys) st') ∧
    (∀ q keys k vs st',
       Part000.torqueKeys g !! k = None →
       k ∉ ["eml"; "kff1005"; "kff1006"; "kff1010"; "id"; "time"] →
       Part000.query g w (<[k := vs]> q) keys st'
       = Part000.query g w q (filter (λ k', k' ≠ k) keys) st').
Proof.
  intros Hk HF He Ht.
  destruct (init000_outcome b state0) as [(rows' & st & Hk' & _ & Hi)|(st & Hi)].
  - rewrite Hk in Hk'. injection Hk' as <-.
    eexists _, st. split; [exact Hi|]. simpl.
    split; [intros c; by apply load_lookup|].
    split; [intros c m t Hl; by rewrite load_lookup, Hl|].
    split.
    { intros c r Hr Hc. rewrite load_lookup by done.
      apply fmap_is_Some, last_is_Some. intros Hnil.
      assert (r ∈ rows_of c rows) as Hin by (by apply list_elem_of_filter).
      rewrite Hnil in Hin. by apply elem_of_nil in Hin. }
    split; [intros c Hl; by rewrite load_lookup, Hl|].
    split; [intros q id time lat lon alt key st' Hn; unfold Part000.forward;
            simpl; by rewrite Hn|].
    split.
    + intros q keys st'. symmetry.
      apply query000_loop_ext; try done.
      intros. symmetry. apply loop000_filter.
    + intros q keys k vs st' Hn Hc.
      assert (∀ x, x ∈ ["eml"; "kff1005"; "kff1006"; "kff1010"; "id"; "time"] →
                   Get (<[k := vs]> q) x = Get q x) as HG.
      { intros x Hx. apply Get_insert_ne. by intros ->. }
      apply query000_loop_ext; try (apply HG; set_solver).
      intros. by apply loop000_insert.
  - exfalso. revert Hi. unfold Part000.init. rewrite append_users. simpl.
    rewrite bind_run.
    destruct (Split (Getenv b "ALLOWED_USERS") ",") as [|u us] eqn:HS.
    { by apply Split_go_not_nil in HS. }
    simpl. rewrite bind_run.
    destruct (Getenv b "WARP10_ENDPOINT"); [done|].
    destruct (Getenv b "WARP10_TOKEN"); [done|]. simpl.
    rewrite bind_run. unfold load_keys. rewrite Hk.
    destruct (ReadAll_inl 3 rows) as [->|(e & _ & Hn)]; [|done].
    destruct (feed_header rows true ∅ state0 HF) as [st' ->]. done.
Qed.

Lemma directory_lookup_witness :
  ∃ g st,
    Part000.init (boot_ex "alice") state0 = (Ok g, st) ∧
    Part000.torqueKeys g !! "kd" = Some (mkTorqueKey "speed" "type=sensor") ∧
    Part000.torqueKeys g !! "kfx1" = Some (mkTorqueKey "rpm" "") ∧
    Part000.torqueKeys g !! "key" = None ∧
    Part000.torqueKeys g !! "session" = None.
Proof.
  destruct (directory_lookup (boot_ex "alice") table_ex w200)
    as (g & st & Hi & _ & Hl & _ & Hn & _);
    [reflexivity | repeat constructor | done | done |].
  exists g, st. split; [exact Hi|].
  split; [apply Hl; reflexivity|]. split; [apply Hl; reflexivity|].
  split; apply Hn; reflexivity.
Defined.

(** ** What is sent *)

Lemma records_Forall dir mk keys :
  Forall (λ gts, ∃ key val, key ∈ keys ∧ dir !! key = Some val ∧ gts = mk key val)
    (records dir mk keys).
Proof.
  unfold records. induction keys as [|key keys IH]; simpl; [constructor|].
  assert (Forall (λ gts, ∃ key0 val, key0 ∈ key :: keys ∧ dir !! key0 = Some val
                                      ∧ gts = mk key0 val)
            (omap (λ key0, mk key0 <$> dir !! key0) keys)) as IH'.
  { eapply Forall_impl; [exact IH|]. intros gts (k & v & Hk & Hv & ->).
    exists k, v. split; [by apply elem_of_cons; right | done]. }
  destruct (dir !! key) as [val|] eqn:Hv; simpl; [|done].
  constructor; [|done]. exists key, val. split; [apply elem_of_cons; by left | done].
Qed.

(** Every call of a run comes from a key of the request that the directory
    knows, and carries the record of that key. *)
Lemma sent000 g w q keys :
  Forall (λ req, ∃ key val, key ∈ keys ∧ Part000.torqueKeys g !! key = Some val ∧
            req = post (Part000.warp10Endpoint g) (Part000.warp10Token g)
                    (record000 q key val))
    (calls (Part000.query g w q keys state0).2).
Proof.
  destruct (query000_calls g w q keys state0) as [n ->]. simpl.
  apply Forall_take, Forall_fmap.
  eapply Forall_impl; [apply records_Forall|].
  intros gts (key & val & Hk & Hv & ->). by exists key, val.
Qed.

Lemma sent001 g w q keys :
  Forall (λ req, ∃ key val, key ∈ keys ∧ Part001.torqueKeys g !! key = Some val ∧
            req = post (Part001.warp10Endpoint g) (Part001.warp10Token g)
                    (record001 q key val))
    (calls (Part001.query g w q keys state0).2).
Proof.
  destruct (query001_calls g w q keys state0) as [n ->]. simpl.
  apply Forall_take, Forall_fmap.
  eapply Forall_impl; [apply records_Forall|].
  intros gts (key & val & Hk & Hv & ->). by exists key, val.
Qed.

Lemma labels_of_spec id val :
  (Tag val = "" → labels_of id val = "id=" +:+ id) ∧
  (Tag val ≠ "" → labels_of id val = "id=" +:+ id +:+ "," +:+ Tag val).
Proof. unfold labels_of. destruct (Tag val); simpl; split; done. Qed.

(** C5. In [unnamed/part_000] and [unnamed/part_001] every record sent
    comes from a key of the request that the directory knows, bears the
    metric name of its entry, and has labels that start with the identity
    of the device: [id=<id>] alone when the tag of the entry is empty,
    [id=<id>,<tag>] otherwise.  For the device 42 the two sample entries
    give [id=42,type=sensor] and [id=42]. *)
Theorem labels_identity_first (g0 : Part000.globals) (g1 : Part001.globals)
    (w : World) (q : Values) (keys : list string) :
  Forall (λ req, ∃ key val gts,
            key ∈ keys ∧ Part000.torqueKeys g0 !! key = Some val ∧
            req = post (Part000.warp10Endpoint g0) (Part000.warp10Token g0) gts ∧
            Name gts = MetricName val ∧
            (Tag val = "" → Labels gts = "id=" +:+ Get q "id") ∧
            (Tag val ≠ "" → Labels gts = "id=" +:+ Get q "id" +:+ "," +:+ Tag val))
    (calls (Part000.query g0 w q keys state0).2) ∧
  Forall (λ req, ∃ key val gts,
            key ∈ keys ∧ Part001.torqueKeys g1 !! key = Some val ∧
            req = post (Part001.warp10Endpoint g1) (Part001.warp10Token g1) gts ∧
            Name gts = MetricName val ∧
            (Tag val = "" → Labels gts = "id=" +:+ Get q "id") ∧
            (Tag val ≠ "" → Labels gts = "id=" +:+ Get q "id" +:+ "," +:+ Tag val))
    (calls (Part001.query g1 w q keys state0).2) ∧
  map (λ req, string_of_bytes (Body req))
    (calls (Part000.query g000_ex w200 (<["id" := ["42"]]> q_ex) keys_ex state0).2)
  = ["100/45.0:3.0/12345 speed{id=42,type=sensor} 87";
     "100/45.0:3.0/12345 rpm{id=42} 3000"] ∧
  map (λ req, string_of_bytes (Body req))
    (calls (Part001.query g001_ex w200 (<["id" := ["42"]]> q_ex) keys_ex state0).2)
  = ["100000/45.0:3.0/12345 speed{id=42,type=sensor} 87";
     "100000/45.0:3.0/12345 rpm{id=42} 3000"].
Proof.
  split; [|split; [|split]].
  - eapply Forall_impl; [apply sent000|].
    intros req (key & val & Hk & Hv & ->).
    exists key, val, (record000 q key val).
    repeat split; try done; apply labels_of_spec.
  - eapply Forall_impl; [apply sent001|].
    intros req (key & val & Hk & Hv & ->).
    exists key, val, (record001 q key val).
    repeat split; try done; apply labels_of_spec.
  - by vm_compute.
  - by vm_compute.
Qed.

(** ** The timestamp *)

Lemma read_digits_app_zeros l acc cnt n k :
  read_digits l acc cnt = (n, k, []) →
  read_digits (l ++ ["0"; "0"; "0"]%char) acc cnt = (1000 * n, k + 3, []).
Proof.
  revert acc cnt. induction l as [|c l IH]; intros acc cnt; simpl.
  - intros [= <- <-]. f_equal. f_equal; lia.
  - destruct (digit_of c); [apply IH | done].
Qed.

Lemma read_digits_app_stuck l l' acc cnt n k c rest :
  read_digits l acc cnt = (n, k, c :: rest) →
  read_digits (l ++ l') acc cnt = (n, k, c :: rest ++ l').
Proof.
  revert acc cnt. induction l as [|c0 l IH]; intros acc cnt; simpl; [done|].
  destruct (digit_of c0); [apply IH | by intros [= <- <- <- <-]].
Qed.

Lemma list_ascii_of_string_app s t :
  list_ascii_of_string (s +:+ t) = list_ascii_of_string s ++ list_ascii_of_string t.
Proof. induction s as [|c s IH]; simpl; [done | by rewrite IH]. Qed.

(** Three more zeros multiply a decimal text by a thousand. *)
Lemma decimal_value_000 (t : string) :
  decimal_value (t +:+ "000") = (λ n, 1000 * n) <$> decimal_value t.
Proof.
  unfold decimal_value. rewrite list_ascii_of_string_app. simpl.
  destruct (read_digits (list_ascii_of_string t) 0 0) as [[n k] [|c rest]] eqn:H.
  - by rewrite (read_digits_app_zeros _ _ _ _ _ H).
  - by rewrite (read_digits_app_stuck _ ["0"; "0"; "0"]%char _ _ _ _ _ _ H).
Qed.

(** C9 (as the code has it). The timestamp of every record sent is a
    function of the [time] parameter alone, and the coordinates are the
    texts of [kff1006] and [kff1005] as received.  In [unnamed/part_001]
    the timestamp is the text of [time] followed by [000], a thousand times
    its value when it is a decimal number (milliseconds to microseconds);
    in [unnamed/part_000] it is the text of [time] itself. *)
Theorem timestamp_and_position (g0 : Part000.globals) (g1 : Part001.globals)
    (w : World) (q : Values) (keys : list string) :
  Forall (λ req, ∃ gts,
            req = post (Part001.warp10Endpoint g1) (Part001.warp10Token g1) gts ∧
            TS gts = Get q "time" +:+ "000" ∧
            Lat gts = Get q "kff1006" ∧ Long gts = Get q "kff1005")
    (calls (Part001.query g1 w q keys state0).2) ∧
  decimal_value (Get q "time" +:+ "000")
  = (λ n, 1000 * n) <$> decimal_value (Get q "time") ∧
  Forall (λ req, ∃ gts,
            req = post (Part000.warp10Endpoint g0) (Part000.warp10Token g0) gts ∧
            TS gts = Get q "time" ∧
            Lat gts = Get q "kff1006" ∧ Long gts = Get q "kff1005")
    (calls (Part000.query g0 w q keys state0).2).
Proof.
  split; [|split].
  - eapply Forall_impl; [apply sent001|].
    intros req (key & val & _ & _ & ->). by exists (record001 q key val).
  - apply decimal_value_000.
  - eapply Forall_impl; [apply sent000|].
    intros req (key & val & _ & _ & ->). by exists (record000 q key val).
Qed.

(** C9, the claim as stated, fails on [unnamed/part_000]: for the sample
    report, whose [time] is [100], the records it sends bear the timestamp
    [100], not the [100000] of the microsecond resolution that
    [unnamed/part_001] sends for the same report; no normalization of the
    time whatever is what both variants send. *)
Lemma timestamp_not_normalized_in_part_000 :
  calls (Part000.query g000_ex w200 q_ex keys_ex state0).2
  = [post "http://warp10" "token"
       (mkGTS "100" "45.0" "3.0" "12345" "speed" "id=7,type=sensor" "87");
     post "http://warp10" "token"
       (mkGTS "100" "45.0" "3.0" "12345" "rpm" "id=7" "3000")] ∧
  microseconds (Get q_ex "time") = "100000" ∧
  ¬ Forall (λ req, ∃ gts,
              req = post "http://warp10" "token" gts ∧
              TS gts = microseconds (Get q_ex "time"))
      (calls (Part000.query g000_ex w200 q_ex keys_ex state0).2) ∧
  ¬ ∃ N : string → string,
      Forall (λ req, ∃ gts, req = post "http://warp10" "token" gts ∧
                            TS gts = N (Get q_ex "time"))
        (calls (Part000.query g000_ex w200 q_ex keys_ex state0).2) ∧
      Forall (λ req, ∃ gts, req = post "http://warp10" "token" gts ∧
                            TS gts = N (Get q_ex "time"))
        (calls (Part001.query g001_ex w200 q_ex keys_ex state0).2).
Proof.
  assert (calls (Part000.query g000_ex w200 q_ex keys_ex state0).2
          = [post "http://warp10" "token"
               (mkGTS "100" "45.0" "3.0" "12345" "speed" "id=7,type=sensor" "87");
             post "http://warp10" "token"
               (mkGTS "100" "45.0" "3.0" "12345" "rpm" "id=7" "3000")]) as Hc0
    by (by vm_compute).
  assert (calls (Part001.query g001_ex w200 q_ex keys_ex state0).2
          = [post "http://warp10" "token"
               (mkGTS "100000" "45.0" "3.0" "12345" "speed" "id=7,type=sensor" "87");
             post "http://warp10" "token"
               (mkGTS "100000" "45.0" "3.0" "12345" "rpm" "id=7" "3000")]) as Hc1
    by (by vm_compute).
  split; [exact Hc0|]. split; [reflexivity|]. rewrite Hc0, Hc1. split.
  - intros H. apply Forall_cons in H as [(gts & Hp & Ht) _].
    destruct gts as [ts lat lon elev m l v]. simpl in Ht. subst ts.
    unfold post in Hp. injection Hp as Hp.
    unfold Print, bytes_of_string in Hp. simpl in Hp. discriminate Hp.
  - intros (N & H0 & H1).
    apply Forall_cons in H0 as [(a & Ha & Ta) _].
    apply Forall_cons in H1 as [(b & Hb & Tb) _].
    destruct a as [ts lat lon elev m l v], b as [ts' lat' lon' elev' m' l' v'].
    simpl in Ta, Tb. rewrite <- Tb in Ta. subst ts'.
    unfold post in Ha, Hb. injection Ha as Ha. injection Hb as Hb.
    unfold Print, bytes_of_string in Ha, Hb.
    destruct ts as [|c1 [|c2 [|c3 [|c4 t]]]]; simpl in Ha, Hb;
      try discriminate Ha; try discriminate Hb.
    injection Ha as _ _ _ H4 _. injection Hb as _ _ _ H4' _.
    rewrite <- H4' in H4. discriminate H4.
Qed.

(** ** The elevation *)

Lemma logs_grow_refl st : logs_grow st st.
Proof. exists []. by rewrite app_nil_r. Qed.

Lemma logs_grow_trans st1 st2 st3 : logs_grow st1 st2 → logs_grow st2 st3 → logs_grow st1 st3.
Proof. intros [l1 H1] [l2 H2]. exists (l1 ++ l2). by rewrite H2, H1, app_assoc. Qed.

Lemma logs_grow_line st st' x : logs st' = logs st ++ [x] → logs_grow st st'.
Proof. intros H. by exists [x]. Qed.

Lemma logs_grow_same st st' : logs st' = logs st → logs_grow st st'.
Proof. intros H. exists []. by rewrite app_nil_r. Qed.

Lemma logs_grow_two st st' x y : logs st' = (logs st ++ [x]) ++ [y] → logs_grow st st'.
Proof. intros H. exists [x; y]. by rewrite H, <- app_assoc. Qed.

Lemma logs_grow_three st st' x y z :
  logs st' = ((logs st ++ [x]) ++ [y]) ++ [z] → logs_grow st st'.
Proof. intros H. exists [x; y; z]. by rewrite H, <- !app_assoc. Qed.

Ltac logs_grow_done :=
  first [ by apply logs_grow_same | by eapply logs_grow_line
        | by eapply logs_grow_two | by eapply logs_grow_three ].

Lemma send000_logs g w gts st : logs_grow st (Part000.sendToWarp10 g w gts st).2.
Proof.
  unfold Part000.sendToWarp10, NewRequest.
  destruct (url_ok w _); simpl; [|logs_grow_done].
  rewrite bind_run; simpl. rewrite bind_run; simpl.
  destruct (client_Do w _ _) as [[r|] err]; simpl; [|logs_grow_done].
  rewrite bind_run. case_bool_decide; simpl; [logs_grow_done|].
  destruct err; logs_grow_done.
Qed.

Lemma send001_logs g w gts st : logs_grow st (Part001.sendToWarp10 g w gts st).2.
Proof.
  unfold Part001.sendToWarp10, NewRequest, Part001.Print_logged.
  rewrite bind_run; simpl.
  destruct (url_ok w _); simpl; [|logs_grow_done].
  rewrite bind_run; simpl. rewrite bind_run; simpl.
  destruct (client_Do w _ _) as [[r|] err]; simpl; [|logs_grow_done].
  rewrite bind_run. case_bool_decide; simpl; [logs_grow_done|].
  rewrite bind_run. destruct err; simpl; logs_grow_done.
Qed.

Lemma forM__logs {A} (body : A → M unit) (l : list A) :
  (∀ x st, logs_grow st (body x st).2) → ∀ st, logs_grow st (forM_ l body st).2.
Proof.
  intros Hb. induction l as [|x l IH]; intros st; [apply logs_grow_refl|].
  simpl. rewrite bind_run. specialize (Hb x st).
  destruct (body x st) as [[[]|p|c] st1]; simpl in *; [|done|done].
  eapply logs_grow_trans; [exact Hb | apply IH].
Qed.

Lemma loop000_logs g w q keys st : logs_grow st (loop000 g w q keys st).2.
Proof.
  apply forM__logs. intros x st'. unfold Part000.forward.
  destruct (Part000.torqueKeys g !! x); [apply send000_logs | apply logs_grow_refl].
Qed.

Lemma loop001_logs g w q keys st : logs_grow st (loop001 g w q keys st).2.
Proof.
  apply forM__logs. intros x st'. unfold Part001.forward.
  destruct (Part001.torqueKeys g !! x); [apply send001_logs | apply logs_grow_refl].
Qed.

(** Past the gate, the log of [query] starts with what the parse of the
    elevation has to say. *)
Lemma query000_logs g w q keys :
  stringInSlice (Get q "eml") (Part000.users g) = false → no_gps q = false →
  ∃ l, logs (Part000.query g w q keys state0).2 = parse_log (Get q "kff1010") ++ l.
Proof.
  intros H1 H2. rewrite query000_open by done. rewrite bind_run.
  set (st1 := mkState _ _ _ _ _).
  destruct (loop000_logs g w q keys st1) as [l Hl].
  destruct (loop000 g w q keys st1) as [[[]|p|c] st2]; simpl in *; by exists l.
Qed.

Lemma query001_logs g w q keys :
  no_gps q || bool_decide (Get q "eml" = Part001.user g) = false →
  ∃ l, logs (Part001.query g w q keys state0).2
       = intro001 q ++ parse_log (Get q "kff1010") ++ l.
Proof.
  intros H. rewrite query001_open by done. rewrite bind_run.
  set (st1 := mkState _ _ _ _ _).
  destruct (loop001_logs g w q keys st1) as [l Hl].
  destruct (loop001 g w q keys st1) as [[[]|p|c] st2]; simpl in *;
    exists l; by rewrite Hl.
Qed.

(** The conversion to [int] cuts the fraction off, toward zero. *)
Lemma to_int_truncates s m e :
  - 2 ^ 63 ≤ truncation s m e < 2 ^ 63 →
  float64.to_int (S754_finite s m e) = truncation s m e.
Proof.
  unfold truncation, float64.to_int, float64.int_part.
  intros Hr.
  assert ((let a := match e with
                    | Z.neg k => Z.pos m ≫ Z.pos k
                    | _ => Z.pos m ≪ e
                    end in if s then - a else a)
          = ((if s then - Z.pos m else Z.pos m) * 2 ^ Z.max e 0) ÷ 2 ^ Z.max (- e) 0)
    as Heq.
  { destruct e as [|p|k]; simpl Z.max; cbv zeta.
    - rewrite Z.shiftl_0_r. change (2 ^ 0) with 1.
      rewrite Z.mul_1_r, Z.quot_1_r. done.
    - rewrite Z.shiftl_mul_pow2 by lia. change (2 ^ Z.max (- Z.pos p) 0) with 1.
      rewrite Z.quot_1_r. rewrite Z.max_l by lia. destruct s; lia.
    - change (Z.max (Z.neg k) 0) with 0. change (2 ^ 0) with 1. rewrite Z.mul_1_r.
      change (Z.max (- Z.neg k) 0) with (Z.pos k).
      rewrite Z.shiftr_div_pow2 by lia.
      assert (0 < 2 ^ Z.pos k) by (apply Z.pow_pos_nonneg; lia).
      destruct s.
      + rewrite Z.quot_opp_l by lia. rewrite Z.quot_div_nonneg by lia. done.
      + rewrite Z.quot_div_nonneg by lia. done. }
  cbv zeta in Heq. cbv zeta. rewrite Heq.
  destruct Hr as [Hlo Hhi].
  apply Z.leb_le in Hlo. apply Z.ltb_lt in Hhi. by rewrite Hlo, Hhi.
Qed.

(** A text that is no number: zero, and a syntax error. *)
Lemma ParseFloat_syntax s e :
  (ParseFloat s).2 = Some e → Err e = ErrSyntax →
  ParseFloat s = (S754_zero false, Some (mkNumError "ParseFloat" s ErrSyntax)).
Proof.
  unfold ParseFloat. destruct (special s); [done|].
  destruct (readFloat s) as [[[[neg [|m|m]] e10] hex]|]; simpl; try done.
  destruct (if hex then _ else _); simpl; try done.
  by intros [= <-].
Qed.

Lemma altitude_mm_syntax s e :
  (ParseFloat s).2 = Some e → Err e = ErrSyntax →
  altitude_mm s = "0" ∧ parse_log s = [[LErr (ENum (mkNumError "ParseFloat" s ErrSyntax))]].
Proof.
  intros H1 H2. unfold altitude_mm, parse_log.
  by rewrite (ParseFloat_syntax s e H1 H2).
Qed.

(** *** The elevation: exact cases of the float arithmetic *)

Ltac each_byte c := destruct c as [[|] [|] [|] [|] [|] [|] [|] [|]].

Lemma iter_pos_nat {A} (f : A → A) p x :
  SpecFloat.iter_pos f p x = Nat.iter (Pos.to_nat p) f x.
Proof.
  revert x. induction p as [p IH|p IH|]; intros x; simpl SpecFloat.iter_pos.
  - rewrite !IH, Pos2Nat.inj_xI. rewrite <- Nat.iter_add.
    replace (S (2 * Pos.to_nat p))%nat with (Pos.to_nat p + Pos.to_nat p + 1)%nat by lia.
    rewrite (Nat.iter_add (Pos.to_nat p + Pos.to_nat p)). done.
  - rewrite !IH, Pos2Nat.inj_xO. rewrite <- Nat.iter_add.
    f_equal. lia.
  - done.
Qed.

Lemma shr_1_doubled (n : nat) (Q : positive) :
  Nat.iter n shr_1 (Build_shr_record (Zpos (Nat.iter n xO Q)) false false)
  = Build_shr_record (Zpos Q) false false.
Proof.
  induction n as [|n IH]; [done|].
  rewrite Nat.iter_succ_r. simpl. apply IH.
Qed.

Lemma shr_exact (Q k : positive) :
  SpecFloat.iter_pos shr_1 k (Build_shr_record (Zpos (Pos.iter xO Q k)) false false)
  = Build_shr_record (Zpos Q) false false.
Proof. rewrite iter_pos_nat, Pos2Nat.inj_iter. apply shr_1_doubled. Qed.

Lemma Zpos_iter_xO (Q k : positive) : Zpos (Pos.iter xO Q k) = Zpos Q * 2 ^ Zpos k.
Proof.
  rewrite Pos2Nat.inj_iter, <- (positive_nat_Z k).
  induction (Pos.to_nat k) as [|n IH]; [simpl; lia|].
  rewrite Nat2Z.inj_succ, Z.pow_succ_r by lia.
  simpl nat_rect. rewrite Pos2Z.inj_xO, IH. lia.
Qed.

Lemma Zdigits2_log2 (p : positive) : Zdigits2 (Zpos p) = Z.log2 (Zpos p) + 1.
Proof.
  simpl. induction p as [p IH|p IH|]; simpl; try lia.
  - destruct p; simpl in *; lia.
  - destruct p; simpl in *; lia.
Qed.

Lemma round_aux_exact (sx : bool) (Q M : positive) (k e : Z) :
  0 ≤ k → Zpos M = Zpos Q * 2 ^ k →
  fexp float64.prec float64.emax (Z.log2 (Zpos M) + 1 + e) - e = k →
  e + k ≤ float64.emax - float64.prec →
  binary_round_aux float64.prec float64.emax sx (Zpos M) e loc_Exact
  = S754_finite sx Q (e + k).
Proof.
  intros Hk HM Hf He.
  assert (Z.log2 (Zpos M) = Z.log2 (Zpos Q) + k) as Hlog.
  { rewrite HM, Z.log2_mul_pow2 by lia. lia. }
  assert (shr_fexp float64.prec float64.emax (Zpos M) e loc_Exact
          = (Build_shr_record (Zpos Q) false false, e + k)) as H1.
  { unfold shr_fexp. rewrite Zdigits2_log2, Hf. simpl shr_record_of_loc.
    destruct k as [|p|p]; [| |lia].
    - simpl. rewrite Z.add_0_r. do 3 f_equal. lia.
    - unfold shr. f_equal.
      assert (M = Pos.iter xO Q p) as ->.
      { apply Pos2Z.inj. by rewrite Zpos_iter_xO. }
      apply shr_exact. }
  assert (shr_fexp float64.prec float64.emax (Zpos Q) (e + k) loc_Exact
          = (Build_shr_record (Zpos Q) false false, e + k)) as H2.
  { unfold shr_fexp. rewrite Zdigits2_log2.
    replace (Z.log2 (Zpos Q) + 1 + (e + k)) with (Z.log2 (Zpos M) + 1 + e) by lia.
    replace (fexp float64.prec float64.emax (Z.log2 (Z.pos M) + 1 + e) - (e + k))
      with 0 by lia.
    done. }
  unfold binary_round_aux. rewrite H1. simpl shr_m. simpl loc_of_shr_record.
  simpl round_nearest_even. rewrite H2. simpl shr_m.
  by rewrite (proj2 (Z.leb_le _ _) He).
Qed.

Lemma fexp_normal (x : Z) :
  - 1000 ≤ x →
  fexp float64.prec float64.emax x = x - 53.
Proof.
  intros Hx. unfold fexp, SpecFloat.emin, float64.prec, float64.emax. lia.
Qed.

Lemma binary_round_integer (sx : bool) (m : positive) :
  Zpos m < 2 ^ 53 →
  ∃ mz, binary_round float64.prec float64.emax sx m 0
        = S754_finite sx mz (Z.log2 (Zpos m) - 52)
        ∧ Zpos mz = Zpos m * 2 ^ (52 - Z.log2 (Zpos m)).
Proof.
  intros Hm.
  assert (0 ≤ Z.log2 (Zpos m)) as Hl0 by apply Z.log2_nonneg.
  assert (Z.log2 (Zpos m) < 53) as Hl1 by (apply Z.log2_lt_pow2; lia).
  unfold binary_round.
  change (Zpos (digits2_pos m)) with (Zdigits2 (Zpos m)).
  rewrite Zdigits2_log2, fexp_normal by lia.
  unfold shl_align.
  destruct (Z.log2 (Zpos m) + 1 + 0 - 53 - 0) as [|p|p] eqn:Hd; [|lia|].
  - exists m. replace (Z.log2 (Zpos m) - 52) with 0 by lia.
    replace (52 - Z.log2 (Zpos m)) with 0 by lia.
    split; [|lia].
    rewrite (round_aux_exact sx m m 0 0); [done|lia|lia| |done].
    rewrite fexp_normal by lia. lia.
  - exists (Pos.iter xO m p).
    assert (Zpos (Pos.iter xO m p) = Zpos m * 2 ^ (52 - Z.log2 (Zpos m))) as Hmz.
    { rewrite Zpos_iter_xO. f_equal. f_equal. lia. }
    split; [|done].
    replace (Z.log2 (Zpos m) + 1 + 0 - 53) with (Z.log2 (Zpos m) - 52) by lia.
    rewrite (round_aux_exact sx (Pos.iter xO m p) (Pos.iter xO m p) 0); [f_equal; lia|lia|lia| |].
    + rewrite Hmz, Z.log2_mul_pow2 by lia. rewrite fexp_normal by lia. lia.
    + unfold float64.emax, float64.prec. lia.
Qed.

Lemma of_Z_1000 : float64.of_Z 1000 = S754_finite false 8796093022208000 (-43).
Proof. by vm_compute. Qed.

Lemma mul_1000_exact (sx : bool) (m : positive) :
  1000 * Zpos m < 2 ^ 53 →
  float64.to_int
    (float64.mul (binary_round float64.prec float64.emax sx m 0)
       (float64.of_Z 1000))
  = if sx then - (1000 * Zpos m) else 1000 * Zpos m.
Proof.
  intros Hm.
  destruct (binary_round_integer sx m) as (mz & -> & Hmz); [lia|].
  rewrite of_Z_1000. unfold float64.mul, SFmul. rewrite xorb_false_r.
  set (l := Z.log2 (Zpos m)) in *.
  set (L := Z.log2 (1000 * Zpos m)).
  assert (0 ≤ l) as Hl0 by apply Z.log2_nonneg.
  assert (l ≤ L) as HlL by (apply Z.log2_le_mono; lia).
  assert (L < 53) as HL by (apply Z.log2_lt_pow2; lia).
  assert (0 < 2 ^ (52 - L)) as Hp by (apply Z.pow_pos_nonneg; lia).
  assert (0 < 2 ^ (52 - l)) as Hp' by (apply Z.pow_pos_nonneg; lia).
  set (Q := Z.to_pos (1000 * Zpos m * 2 ^ (52 - L))).
  assert (Zpos Q = 1000 * Zpos m * 2 ^ (52 - L)) as HQ by (unfold Q; lia).
  assert (Zpos (mz * 8796093022208000) = Zpos Q * 2 ^ (L - l + 43)) as HM.
  { rewrite Pos2Z.inj_mul, Hmz, HQ.
    change (Zpos 8796093022208000) with (1000 * 2 ^ 43).
    replace (2 ^ (L - l + 43)) with (2 ^ (L - l) * 2 ^ 43)
      by (rewrite <- Z.pow_add_r by lia; done).
    replace (2 ^ (52 - l)) with (2 ^ (52 - L) * 2 ^ (L - l))
      by (rewrite <- Z.pow_add_r by lia; f_equal; lia).
    lia. }
  rewrite (round_aux_exact sx Q _ (L - l + 43)); [|lia|done| |unfold float64.emax, float64.prec; lia].
  2:{ rewrite HM, Z.log2_mul_pow2 by lia. rewrite HQ, Z.log2_mul_pow2 by lia.
      fold L. rewrite fexp_normal by lia. lia. }
  replace (l - 52 + -43 + (L - l + 43)) with (L - 52) by lia.
  unfold float64.to_int, float64.int_part.
  assert (match L - 52 with
          | Z.neg k => Z.pos Q ≫ Z.pos k
          | _ => Z.pos Q ≪ (L - 52)
          end = 1000 * Zpos m) as ->.
  { destruct (L - 52) as [|p|p] eqn:HLe; [|lia|].
    - rewrite Z.shiftl_0_r, HQ. replace (52 - L) with 0 by lia. lia.
    - rewrite Z.shiftr_div_pow2 by lia. rewrite HQ.
      replace (52 - L) with (Zpos p) by lia.
      apply Z.div_mul. lia. }
  cbv zeta.
  destruct sx.
  - destruct (- 2 ^ 63 <=? - (1000 * Z.pos m)) eqn:E1; [|lia].
    destruct (- (1000 * Z.pos m) <? 2 ^ 63) eqn:E2; [done|lia].
  - destruct (- 2 ^ 63 <=? 1000 * Z.pos m) eqn:E1; [|lia].
    destruct (1000 * Z.pos m <? 2 ^ 63) eqn:E2; [done|lia].
Qed.

Lemma digit_char (c : ascii) (d : Z) :
  digit_of c = Some d →
  0 ≤ d ≤ 9 ∧ Ascii.eqb c "_" = false ∧ Ascii.eqb c "." = false
  ∧ read_sign [c] = (false, [c]) ∧ Ascii.eqb (lower c) "x" = false
  ∧ digit_in false c = Some d ∧ fold_case c = c
  ∧ c ≠ "i"%char ∧ c ≠ "n"%char ∧ c ≠ "+"%char ∧ c ≠ "-"%char.
Proof.
  each_byte c; intros H; vm_compute in H; try discriminate H;
    injection H as <-; vm_compute; repeat split; try done; try lia.
Qed.

Lemma read_digits_all l acc cnt n k :
  read_digits l acc cnt = (n, k, []) →
  Forall (λ c, is_Some (digit_of c)) l ∧ k = cnt + Z.of_nat (length l)
  ∧ (0 ≤ acc → 0 ≤ n).
Proof.
  revert acc cnt. induction l as [|c l IH]; intros acc cnt; simpl.
  - intros [= <- <-]. split; [done|]. split; lia.
  - destruct (digit_of c) as [d|] eqn:Hd; [|done].
    intros H. destruct (IH _ _ H) as (Hall & Hk & Hn).
    destruct (digit_char c d Hd) as (Hd09 & _).
    split; [by constructor|]. split; lia.
Qed.

Lemma read_mantissa_digits l m nd n k :
  read_digits l m nd = (n, k, []) →
  read_mantissa false l false m nd 0 false = (n, k, 0, false, []).
Proof.
  revert m nd. induction l as [|c l IH]; intros m nd; simpl.
  - by intros [= <- <-].
  - destruct (digit_of c) as [d|] eqn:Hd; [|done].
    destruct (digit_char c d Hd) as (_ & -> & -> & _ & _ & -> & _).
    apply IH.
Qed.

Lemma base_prefix_digits l :
  Forall (λ c, is_Some (digit_of c)) l → base_prefix l = (false, l).
Proof.
  intros Hall. destruct l as [|c [|x [|y l]]]; try done.
  - unfold base_prefix. by each_byte c.
  - unfold base_prefix. by each_byte c.
  - apply Forall_cons_1 in Hall as [_ Hall].
    apply Forall_cons_1 in Hall as [[d Hd] _].
    destruct (digit_char x d Hd) as (_ & _ & _ & _ & Hx & _).
    unfold base_prefix. rewrite Hx. by each_byte c.
Qed.

Lemma special_digits c s d :
  digit_of c = Some d →
  special (String c s) = None ∧ special (String "-" (String c s)) = None.
Proof.
  intros Hd. destruct (digit_char c d Hd) as (_ & _ & _ & _ & _ & _ & Hf & Hi & Hn & Hp & Hm).
  unfold special. cbn [to_lower]. rewrite Hf.
  change (fold_case "-") with "-"%char.
  split; repeat case_bool_decide; try done;
    repeat match goal with H : _ ∨ _ |- _ => destruct H end; congruence.
Qed.

Lemma readFloat_digits (sx : bool) (s : string) (n : Z) :
  s ≠ "" → decimal_value s = Some n →
  0 ≤ n ∧ readFloat (signed sx s) = Some (sx, n, 0, false)
  ∧ special (signed sx s) = None.
Proof.
  intros Hs. unfold decimal_value.
  destruct (read_digits (list_ascii_of_string s) 0 0) as [[n' k] [|]] eqn:Hr; [|done].
  intros [= ->].
  destruct (read_digits_all _ _ _ _ _ Hr) as (Hall & Hk & Hn).
  destruct s as [|c s]; [done|]. simpl in Hall, Hk.
  pose proof (Forall_inv Hall) as [d Hd].
  destruct (digit_char c d Hd) as (_ & _ & _ & Hsign & _).
  destruct (special_digits c s d Hd) as [Hsp0 Hsp1].
  split; [lia|]. split.
  - unfold readFloat.
    assert (read_sign (list_ascii_of_string (signed sx (String c s)))
            = (sx, list_ascii_of_string (String c s))) as ->.
    { destruct sx; [done|]. simpl. simpl in Hsign.
      destruct c as [[|] [|] [|] [|] [|] [|] [|] [|]]; done. }
    rewrite base_prefix_digits by done.
    rewrite (read_mantissa_digits _ _ _ _ _ Hr).
    replace (k =? 0) with false by (symmetry; apply Z.eqb_neq; lia).
    done.
  - by destruct sx.
Qed.

Lemma metres_to_millimetres (sx : bool) (s : string) (n : Z) :
  s ≠ "" → decimal_value s = Some n → 1000 * n < 2 ^ 53 →
  (ParseFloat (signed sx s)).2 = None
  ∧ altitude_mm (signed sx s)
    = Itoa (if sx then - (1000 * n) else 1000 * n).
Proof.
  intros Hs Hv Hn.
  destruct (readFloat_digits sx s n Hs Hv) as (Hn0 & Hr & Hsp).
  unfold altitude_mm, ParseFloat. rewrite Hsp, Hr.
  destruct n as [|m|m]; [| |lia].
  - split; [done|]. by destruct sx.
  - unfold float64.of_decimal.
    change (m * Z.to_pos (10 ^ 0))%positive with (m * 1)%positive.
    rewrite Pos.mul_1_r.
    destruct (binary_round_integer sx m) as (mz & Hb & _); [lia|].
    pose proof (mul_1000_exact sx m Hn) as Hmul.
    rewrite Hb in Hmul |- *. cbn [fst snd]. by rewrite Hmul.
Qed.

(** *** The elevation: what no number can hold *)

Lemma number_byte_digit_in hex c : is_Some (digit_in hex c) → number_byte c = true.
Proof.
  each_byte c; destruct hex; intros [d Hd]; vm_compute in Hd;
    try discriminate Hd; by vm_compute.
Qed.

Lemma number_byte_digit c : is_Some (digit_of c) → number_byte c = true.
Proof. intros [d Hd]. apply (number_byte_digit_in false). unfold digit_in. by rewrite Hd. Qed.

Lemma number_byte_exp (hex : bool) c :
  Ascii.eqb (lower c) (if hex then "p" else "e")%char = true → number_byte c = true.
Proof.
  each_byte c; destruct hex; intros H; vm_compute in H;
    try discriminate H; by vm_compute.
Qed.

Lemma number_byte_prefix c :
  Ascii.eqb (lower c) "x"%char = true → number_byte c = true.
Proof. each_byte c; intros H; vm_compute in H; try discriminate H; by vm_compute. Qed.

Lemma number_byte_fold c : number_byte (fold_case c) = number_byte c.
Proof. each_byte c; by vm_compute. Qed.

Lemma consumed_refl l : consumed l l.
Proof. exists []. by split; [|constructor]. Qed.

Lemma consumed_cons c l rest :
  number_byte c = true → consumed l rest → consumed (c :: l) rest.
Proof.
  intros Hc (pre & -> & Hp). exists (c :: pre). by split; [|constructor].
Qed.

Lemma consumed_trans l1 l2 l3 : consumed l1 l2 → consumed l2 l3 → consumed l1 l3.
Proof.
  intros (p1 & -> & H1) (p2 & -> & H2). exists (p1 ++ p2).
  split; [by rewrite app_assoc | by apply Forall_app].
Qed.

Lemma read_sign_consumed l : consumed l (read_sign l).2.
Proof.
  destruct l as [|c l]; [apply consumed_refl|].
  each_byte c; try apply consumed_refl; simpl;
    (apply consumed_cons; [by vm_compute | apply consumed_refl]).
Qed.

Lemma base_prefix_consumed l : consumed l (base_prefix l).2.
Proof.
  destruct l as [|c [|x [|y l]]]; try apply consumed_refl.
  - unfold base_prefix. each_byte c; apply consumed_refl.
  - unfold base_prefix. each_byte c; apply consumed_refl.
  - unfold base_prefix.
    destruct (Ascii.eqb (lower x) "x") eqn:Hx.
    + each_byte c; try apply consumed_refl. simpl.
      apply consumed_cons; [by vm_compute|].
      apply consumed_cons; [by apply number_byte_prefix | apply consumed_refl].
    + each_byte c; apply consumed_refl.
Qed.

Lemma read_mantissa_consumed hex l sawdot m nd nfrac us :
  consumed l (read_mantissa hex l sawdot m nd nfrac us).2.
Proof.
  revert sawdot m nd nfrac us.
  induction l as [|c l IH]; intros sawdot m nd nfrac us; simpl; [apply consumed_refl|].
  destruct (Ascii.eqb c "_") eqn:E1.
  { apply Ascii.eqb_eq in E1 as ->. apply consumed_cons; [by vm_compute | apply IH]. }
  destruct (Ascii.eqb c ".") eqn:E2.
  { apply Ascii.eqb_eq in E2 as ->. destruct sawdot; [apply consumed_refl|].
    apply consumed_cons; [by vm_compute | apply IH]. }
  destruct (digit_in hex c) as [d|] eqn:Hd; [|apply consumed_refl].
  apply consumed_cons; [|apply IH].
  apply number_byte_digit_in with hex. by rewrite Hd.
Qed.

Lemma read_exp_digits_consumed l e us :
  consumed l (read_exp_digits l e us).2.
Proof.
  revert e us. induction l as [|c l IH]; intros e us; simpl; [apply consumed_refl|].
  destruct (Ascii.eqb c "_") eqn:E1.
  { apply Ascii.eqb_eq in E1 as ->. apply consumed_cons; [by vm_compute | apply IH]. }
  destruct (digit_of c) as [d|] eqn:Hd; [|apply consumed_refl].
  apply consumed_cons; [|apply IH].
  apply number_byte_digit. by rewrite Hd.
Qed.

Lemma read_exponent_consumed hex l e us rest :
  read_exponent hex l = Some (e, us, rest) → consumed l rest.
Proof.
  unfold read_exponent. destruct l as [|c l].
  { destruct hex; [done|]. intros [= <- <- <-]. apply consumed_refl. }
  destruct (Ascii.eqb (lower c) _) eqn:Hc.
  - pose proof (read_sign_consumed l) as Hs.
    destruct (read_sign l) as [neg l''] eqn:Hsign. simpl in Hs.
    destruct l'' as [|d l'']; [done|].
    destruct (digit_of d); [|done].
    pose proof (read_exp_digits_consumed (d :: l'') 0 false) as He.
    destruct (read_exp_digits (d :: l'') 0 false) as [[e' us'] rest'].
    intros [= <- <- <-]. simpl in He.
    apply consumed_cons; [by apply number_byte_exp with hex|].
    by apply consumed_trans with (d :: l'').
  - destruct hex; [done|]. intros [= <- <- <-]. apply consumed_refl.
Qed.

Lemma readFloat_numeric s r :
  readFloat s = Some r → numeric (list_ascii_of_string s).
Proof.
  unfold readFloat.
  pose proof (read_sign_consumed (list_ascii_of_string s)) as H1.
  destruct (read_sign (list_ascii_of_string s)) as [neg l1]. simpl in H1.
  pose proof (base_prefix_consumed l1) as H2.
  destruct (base_prefix l1) as [hex l2]. simpl in H2.
  pose proof (read_mantissa_consumed hex l2 false 0 0 0 false) as H3.
  destruct (read_mantissa hex l2 false 0 0 0 false) as [[[[m nd] nfrac] us1] l3].
  simpl in H3.
  destruct (nd =? 0); [done|].
  destruct (read_exponent hex l3) as [[[e us2] [|]]|] eqn:He; try done.
  intros _. apply read_exponent_consumed in He.
  destruct (consumed_trans _ _ _ (consumed_trans _ _ _ (consumed_trans _ _ _ H1 H2) H3) He)
    as (pre & -> & Hp).
  by rewrite app_nil_r.
Qed.

Lemma to_lower_numeric s :
  numeric (list_ascii_of_string (to_lower s)) → numeric (list_ascii_of_string s).
Proof.
  induction s as [|c s IH]; simpl; [done|].
  intros H. apply Forall_cons_1 in H as [Hc Hs].
  constructor; [|by apply IH].
  by rewrite <- number_byte_fold.
Qed.

Lemma special_numeric s f :
  special s = Some f → numeric (list_ascii_of_string s).
Proof.
  unfold special. intros H. apply to_lower_numeric.
  repeat case_bool_decide; try done;
    repeat match goal with H : _ ∨ _ |- _ => destruct H as [H|H] end;
    match goal with H : to_lower s = _ |- _ => rewrite H end;
    repeat constructor.
Qed.

Lemma ParseFloat_not_numeric s c :
  In c (list_ascii_of_string s) → number_byte c = false →
  ParseFloat s = (S754_zero false, Some (mkNumError "ParseFloat" s ErrSyntax)).
Proof.
  intros Hin Hc.
  assert (¬ numeric (list_ascii_of_string s)) as Hn.
  { intros Hall. unfold numeric in Hall. rewrite Forall_forall in Hall.
    apply list_elem_of_In in Hin. rewrite (Hall c Hin) in Hc. done. }
  unfold ParseFloat.
  destruct (special s) eqn:Hsp; [by apply special_numeric in Hsp|].
  destruct (readFloat s) eqn:Hr; [by apply readFloat_numeric in Hr|done].
Qed.

(** When [ParseFloat] reports an error, the error names the function and
    the text, and it is one of two: a syntax error with the float [0], or
    a range error with an infinity. *)
Lemma ParseFloat_error s e :
  (ParseFloat s).2 = Some e →
  e = mkNumError "ParseFloat" s (Err e) ∧
  (Err e = ErrSyntax → (ParseFloat s).1 = S754_zero false) ∧
  (Err e = ErrRange → ∃ sg, (ParseFloat s).1 = S754_infinity sg).
Proof.
  unfold ParseFloat. destruct (special s); [done|].
  destruct (readFloat s) as [[[[neg [|m|m]] e10] hex]|]; simpl; try done.
  - destruct (if hex then _ else _); simpl; try done.
    intros [= <-]. split; [done|]. split; [done|]. intros _. by eexists.
  - intros [= <-]. split; [done|]. split; [done|]. done.
Qed.

Lemma altitude_mm_infinity s sg :
  (ParseFloat s).1 = S754_infinity sg → altitude_mm s = Itoa float64.indefinite.
Proof. unfold altitude_mm. intros ->. by rewrite of_Z_1000. Qed.

(** The elevation that goes with an error of [ParseFloat]. *)
Lemma altitude_mm_error s e :
  (ParseFloat s).2 = Some e →
  e = mkNumError "ParseFloat" s (Err e) ∧
  parse_log s = [[LErr (ENum e)]] ∧
  (Err e = ErrSyntax → (ParseFloat s).1 = S754_zero false ∧ altitude_mm s = "0") ∧
  (Err e = ErrRange →
   (∃ sg, (ParseFloat s).1 = S754_infinity sg) ∧
   altitude_mm s = Itoa float64.indefinite).
Proof.
  intros He. destruct (ParseFloat_error s e He) as (Hn & Hs & Hr).
  split; [done|]. split; [unfold parse_log; by rewrite He|]. split.
  - intros Hk. split; [by apply Hs|]. by apply (altitude_mm_syntax s e).
  - intros Hk. destruct (Hr Hk) as [sg Hsg]. split; [by exists sg|].
    by apply altitude_mm_infinity with sg.
Qed.

(** C4 (as the code has it). The text of [kff1010] goes through
    [strconv.ParseFloat] and the elevation sent is [int(f * 1000.0)] in
    decimal: the float is multiplied by 1000 and cut toward zero
    ([12.345] gives [12345], [0]
    gives [0], [12.3456] gives [12345], [-12.3456] gives [-12345], and a
    text of decimal digits of value [n], with or without a minus sign,
    gives [1000 * n] exactly while that is below [2^53]).  [ParseFloat]
    reads decimal and hexadecimal text, digits separated by underscores,
    the infinities and NaN.  When it reports an error the request goes on
    and the error is logged; there are two kinds.  A syntax error (every
    text that holds a byte no number can hold, among others) comes with
    the float [0] and the elevation [0].  A range error (such as [1e999])
    comes with an infinity, and the elevation is what the conversion of an
    infinity to [int] yields, not [0]; the same elevation goes with [inf],
    [NaN] and a product beyond the range of [int], with no error logged.
    Past the gate, on a datastore that answers 200, the handlers of
    [unnamed/part_000] and [unnamed/part_001] return, acknowledge, and send
    one record for each recognised key, with that elevation and with the
    other fields as they were received, whatever they hold. *)
Theorem elevation_in_millimetres (g0 : Part000.globals) (g1 : Part001.globals)
    (w : World) (q : Values) (keys : list string) :
  stringInSlice (Get q "eml") (Part000.users g0) = false →
  Get q "eml" ≠ Part001.user g1 →
  no_gps q = false →
  url_ok w (Part000.warp10Endpoint g0 +:+ "/api/v0/update") = true →
  url_ok w (Part001.warp10Endpoint g1 +:+ "/api/v0/update") = true →
  answers_200 w →
  ((Part000.query g0 w q keys state0).1 = Ok tt ∧
   reply_of (Part000.query g0 w q keys state0) = Some ack ∧
   calls (Part000.query g0 w q keys state0).2
   = map (post (Part000.warp10Endpoint g0) (Part000.warp10Token g0))
       (records (Part000.torqueKeys g0)
          (λ key val,
             mkGTS (Get q "time") (Get q "kff1006") (Get q "kff1005")
               (altitude_mm (Get q "kff1010")) (MetricName val)
               (labels_of (Get q "id") val) (Get q key))
          keys) ∧
   ∃ l, logs (Part000.query g0 w q keys state0).2 = parse_log (Get q "kff1010") ++ l) ∧
  ((Part001.query g1 w q keys state0).1 = Ok tt ∧
   reply_of (Part001.query g1 w q keys state0) = Some ack ∧
   calls (Part001.query g1 w q keys state0).2
   = map (post (Part001.warp10Endpoint g1) (Part001.warp10Token g1))
       (records (Part001.torqueKeys g1)
          (λ key val,
             mkGTS (Get q "time" +:+ "000") (Get q "kff1006") (Get q "kff1005")
               (altitude_mm (Get q "kff1010")) (MetricName val)
               (labels_of (Get q "id") val) (Get q key))
          keys) ∧
   ∃ l, logs (Part001.query g1 w q keys state0).2
        = intro001 q ++ parse_log (Get q "kff1010") ++ l) ∧
  (∀ e, (ParseFloat (Get q "kff1010")).2 = Some e →
        e = mkNumError "ParseFloat" (Get q "kff1010") (Err e) ∧
        parse_log (Get q "kff1010") = [[LErr (ENum e)]] ∧
        (Err e = ErrSyntax →
         (ParseFloat (Get q "kff1010")).1 = S754_zero false ∧
         altitude_mm (Get q "kff1010") = "0") ∧
        (Err e = ErrRange →
         (∃ sg, (ParseFloat (Get q "kff1010")).1 = S754_infinity sg) ∧
         altitude_mm (Get q "kff1010") = Itoa float64.indefinite)) ∧
  ((ParseFloat (Get q "kff1010")).2 = None → parse_log (Get q "kff1010") = []) ∧
  (∀ c, In c (list_ascii_of_string (Get q "kff1010")) → number_byte c = false →
        ParseFloat (Get q "kff1010")
        = (S754_zero false,
           Some (mkNumError "ParseFloat" (Get q "kff1010") ErrSyntax))) ∧
  (∀ sx t n, Get q "kff1010" = signed sx t → t ≠ "" →
             decimal_value t = Some n → 1000 * n < 2 ^ 53 →
             (ParseFloat (Get q "kff1010")).2 = None ∧
             altitude_mm (Get q "kff1010")
             = Itoa (if sx then - (1000 * n) else 1000 * n)) ∧
  map altitude_mm
    ["12.345"; "0"; "12.3456"; "-12.3456"; "1.005"; "1e2"; "+3.25E-1"; "1_000";
     "0x1p4"; "0X1.8P+1"; "-0x1_ep-1"; "1e-999"; tenth_the_long_way]
  = ["12345"; "0"; "12345"; "-12345"; "1004"; "100000"; "325"; "1000000";
     "16000"; "3000"; "-15000"; "0"; "100"] ∧
  map ParseFloat ["inf"; "-Infinity"; "NaN"]
  = [(S754_infinity false, None); (S754_infinity true, None); (S754_nan, None)] ∧
  map altitude_mm ["inf"; "-Infinity"; "NaN"; "1e16"; "1e999"; "-1e999"]
  = repeat "-9223372036854775808" 6 ∧
  map (λ s, Err <$> (ParseFloat s).2)
    ["12.345"; "1e16"; "0x1p4"; "1_000"; "12,3"; ""; "abc"; "1.2.3"; "1e"; "0x10";
     "1p2"; "1__0"; "_1"; "1_"; "1e_5"; "+nan"; "infx"; "1e999"; "-1e999";
     "0x1p1024"]
  = [None; None; None; None] ++ repeat (Some ErrSyntax) 13
    ++ repeat (Some ErrRange) 3 ∧
  map number_byte (list_ascii_of_string "9,5 m") = [true; false; true; false; false] ∧
  decimal_value "8848" = Some 8848 ∧ signed true "8848" = "-8848" ∧
  (∀ s m e, - 2 ^ 63 ≤ truncation s m e < 2 ^ 63 →
            float64.to_int (S754_finite s m e) = truncation s m e).
Proof.
  intros H0 H1 Hg Hu0 Hu1 H200.
  assert (no_gps q || bool_decide (Get q "eml" = Part001.user g1) = false) as Hg1
    by (by rewrite Hg, bool_decide_eq_false_2).
  split; [|split; [|split; [|split; [|split; [|split]]]]].
  - destruct (query000_ok g0 w q keys state0 H0 Hg Hu0 H200) as [Ho Hc].
    split; [done|]. split; [|split; [exact Hc | by apply query000_logs]].
    destruct (query000_returns g0 w q keys state0 Ho) as (st' & l & -> & _ & Hs & Hb).
    by apply reply_acked.
  - destruct (query001_ok g1 w q keys state0 Hg1 Hu1 H200) as [Ho Hc].
    split; [done|]. split; [|split; [exact Hc | by apply query001_logs]].
    destruct (query001_returns g1 w q keys state0 Ho) as (st' & l & -> & _ & Hs & Hb).
    by apply reply_acked.
  - intros e. apply altitude_mm_error.
  - intros He. unfold parse_log. by rewrite He.
  - apply ParseFloat_not_numeric.
  - intros sx t n -> Ht Hv Hn. by apply metres_to_millimetres.
  - repeat (split; [by vm_compute|]). apply to_int_truncates.
Qed.

Lemma elevation_in_millimetres_witness :
  calls (Part000.query g000_ex w200 q_bad keys_ex state0).2
  = [post "http://warp10" "token"
       (mkGTS "100" "45.0" "3.0" "0" "speed" "id=7,type=sensor" "87");
     post "http://warp10" "token" (mkGTS "100" "45.0" "3.0" "0" "rpm" "id=7" "3000")] ∧
  reply_of (Part000.query g000_ex w200 q_bad keys_ex state0) = Some ack ∧
  ∃ l, logs (Part000.query g000_ex w200 q_bad keys_ex state0).2
       = [[LErr (ENum (mkNumError "ParseFloat" "12,3" ErrSyntax))]] ++ l.
Proof.
  destruct (elevation_in_millimetres g000_ex g001_ex w200 q_bad keys_ex)
    as ((_ & Hr & Hc & Hl) & _ & Hs & _);
    [reflexivity | discriminate | reflexivity | reflexivity | reflexivity
    | apply answers_200_w200 |].
  destruct (Hs (mkNumError "ParseFloat" "12,3" ErrSyntax)) as (_ & Hp & _);
    [reflexivity |].
  split; [rewrite Hc; reflexivity|]. split; [exact Hr|].
  destruct Hl as [l Hl]. exists l. rewrite Hl. by rewrite Hp.
Defined.

(** C4, the claim as stated, fails on a number beyond the range of
    [float64]: the text [1e999] does not parse, the error is logged and
    the request goes on, but the elevation of every record sent is not
    zero. *)
Lemma elevation_of_a_range_error :
  ParseFloat "1e999"
  = (S754_infinity false, Some (mkNumError "ParseFloat" "1e999" ErrRange)) ∧
  (Part000.query g000_ex w200 q_huge keys_ex state0).1 = Ok tt ∧
  reply_of (Part000.query g000_ex w200 q_huge keys_ex state0) = Some ack ∧
  take 1 (logs (Part000.query g000_ex w200 q_huge keys_ex state0).2)
  = [[LErr (ENum (mkNumError "ParseFloat" "1e999" ErrRange))]] ∧
  map (λ req, string_of_bytes (Body req))
    (calls (Part000.query g000_ex w200 q_huge keys_ex state0).2)
  = ["100/45.0:3.0/-9223372036854775808 speed{id=7,type=sensor} 87";
     "100/45.0:3.0/-9223372036854775808 rpm{id=7} 3000"] ∧
  map (λ req, string_of_bytes (Body req))
    (calls (Part001.query g001_ex w200 q_huge keys_ex state0).2)
  = ["100000/45.0:3.0/-9223372036854775808 speed{id=7,type=sensor} 87";
     "100000/45.0:3.0/-9223372036854775808 rpm{id=7} 3000"] ∧
  altitude_mm (Get q_huge "kff1010") ≠ "0".
Proof. repeat split; by vm_compute. Qed.

(** A number beyond the range of [float64] is an error of another kind:
    it is logged as well, the float is an infinity, and the elevation is
    what the conversion of an infinity to [int] yields. *)
Lemma altitude_beyond_range :
  ParseFloat "1e999"
  = (S754_infinity false, Some (mkNumError "ParseFloat" "1e999" ErrRange)) ∧
  altitude_mm "1e999" = Itoa float64.indefinite.
Proof. split; by vm_compute. Qed.

(** The float nearest to a decimal text may lie below it, and the
    conversion cuts: [1.005] metres are [1004] millimetres. *)
Example elevation_examples :
  map altitude_mm ["1.005"; "4.35"; "0.0005"; ".5"; "5."; "1e2"; "+3.25E-1"; "-0"]
  = ["1004"; "4350"; "0"; "500"; "5000"; "100000"; "325"; "0"] ∧
  map (λ s, (ParseFloat s).2) ["12,3"; ""; "abc"; "1.2.3"; "1e"; "0x10"]
  = map (λ s, Some (mkNumError "ParseFloat" s ErrSyntax))
      ["12,3"; ""; "abc"; "1.2.3"; "1e"; "0x10"].
Proof. split; by vm_compute. Qed.

(** ** A whole request *)

(** One recognised field, [kfx1], mapped to [rpm] with no tag; device [7],
    time [100], value [3000]: one call to the datastore, with the token,
    and the acknowledgment to the caller. *)
Example one_field_request :
  Part001.query g001_ex w200 q_rpm keys_rpm state0
  = (Ok tt,
     acked
       (mkState
          (intro001 q_rpm ++
           [[LStr "100000/45.0:3.0/12345 rpm{id=7} 3000"];
            [LStr "HTTP Return code"; LInt 200; LStr "-"; LStr "rpm"; LStr ":";
             LStr "3000"]])
          [mkRequest "POST" "http://warp10/api/v0/update" (Some "token")
             (bytes_of_string "100000/45.0:3.0/12345 rpm{id=7} 3000")]
          ∅ None [])
       []) ∧
  reply_of (Part001.query g001_ex w200 q_rpm keys_rpm state0) = Some ack ∧
  map (λ req, string_of_bytes (Body req))
    (calls (Part000.query g000_ex w200 q_rpm keys_rpm state0).2)
  = ["100/45.0:3.0/12345 rpm{id=7} 3000"] ∧
  reply_of (Part000.query g000_ex w200 q_rpm keys_rpm state0) = Some ack.
Proof. repeat split; by vm_compute. Qed.

(** * Further properties of the code *)

(** ** [stringInSlice] and the list of users *)

(** X1. [stringInSlice] answers [true] exactly when the string is one of
    the elements of the slice, compared as a whole and with its case; so it
    answers [false] on the empty slice, and on two slices put end to end it
    answers as on one or on the other. *)
Theorem stringInSlice_membership (str : string) (l1 l2 : list string) :
  (stringInSlice str l1 = true ↔ str ∈ l1) ∧
  (stringInSlice str l1 = false ↔ str ∉ l1) ∧
  stringInSlice str [] = false ∧
  stringInSlice str (l1 ++ l2) = stringInSlice str l1 || stringInSlice str l2.
Proof.
  split; [apply stringInSlice_elem_of|]. split; [|split; [done|]].
  - rewrite <- stringInSlice_elem_of. by destruct (stringInSlice str l1).
  - induction l1 as [|v l1 IH]; simpl; [done|]. by case_bool_decide.
Qed.

Lemma concat_cons sep x (l : list string) :
  l ≠ [] → String.concat sep (x :: l) = x +:+ sep +:+ String.concat sep l.
Proof. by destruct l. Qed.

Lemma append_cons x (a b : string) : String x a +:+ b = String x (a +:+ b).
Proof. reflexivity. Qed.

Lemma append_assoc (a b c : string) : (a +:+ b) +:+ c = a +:+ (b +:+ c).
Proof. induction a as [|x a IH]; [done | by rewrite !append_cons, IH]. Qed.

Lemma append_nil_r (a : string) : a +:+ "" = a.
Proof. induction a as [|x a IH]; [done | by rewrite append_cons, IH]. Qed.

(** The pieces of [Split], put together again with the separator, are the
    text that was split. *)
Lemma Split_go_concat s sep cur :
  String.concat (String sep "") (Split_go s sep cur) = cur +:+ s.
Proof.
  revert cur. induction s as [|c s IH]; intros cur; simpl.
  - by rewrite append_nil_r.
  - destruct (Ascii.eqb c sep) eqn:E.
    + apply Ascii.eqb_eq in E as ->.
      rewrite concat_cons by apply Split_go_not_nil. by rewrite IH.
    + rewrite IH. by rewrite append_assoc.
Qed.

Lemma has_char_append c a b : has_char c (a +:+ b) = has_char c a || has_char c b.
Proof.
  induction a as [|x a IH]; [done|].
  rewrite append_cons. simpl. by rewrite IH, orb_assoc.
Qed.

Lemma Split_go_no_sep s sep cur :
  has_char sep cur = false → Forall (λ u, has_char sep u = false) (Split_go s sep cur).
Proof.
  revert cur. induction s as [|c s IH]; intros cur Hc; simpl.
  - by constructor.
  - destruct (Ascii.eqb c sep) eqn:E.
    + constructor; [done | by apply IH].
    + apply IH. rewrite has_char_append, Hc. simpl. by rewrite E.
Qed.

Lemma Split_go_length sep s cur :
  length (Split_go s sep cur)
  = S (length (filter (λ c, c = sep) (list_ascii_of_string s))).
Proof.
  revert cur. induction s as [|c s IH]; intros cur; simpl; [done|].
  rewrite filter_cons. destruct (Ascii.eqb c sep) eqn:E.
  - apply Ascii.eqb_eq in E. rewrite decide_True by done. simpl. by rewrite IH.
  - apply Ascii.eqb_neq in E. rewrite decide_False by done. apply IH.
Qed.

(** X2. When [init] of [unnamed/part_000] returns, the users it has
    registered are the pieces of [ALLOWED_USERS] between its commas, as
    they stand: joined with commas again they give the variable back, none
    of them holds a comma, there is one more of them than there are commas
    (so one at least), and a caller is on the list exactly when its [eml]
    is one of these pieces. *)
Theorem users_are_the_pieces (b : Boot) (g : Part000.globals) (st : state) :
  Part000.init b state0 = (Ok g, st) →
  String.concat "," (Part000.users g) = Getenv b "ALLOWED_USERS" ∧
  Forall (λ u, has_char "," u = false) (Part000.users g) ∧
  length (Part000.users g)
  = S (length (filter (λ c, c = ","%char)
                 (list_ascii_of_string (Getenv b "ALLOWED_USERS")))) ∧
  (∀ eml, stringInSlice eml (Part000.users g) = true
          ↔ eml ∈ Split (Getenv b "ALLOWED_USERS") ",").
Proof.
  intros Hi.
  destruct (init000_outcome b state0) as [(rows & st' & _ & _ & H)|(st' & H)];
    rewrite H in Hi; [|done].
  injection Hi as <- <-. simpl.
  split; [apply (Split_go_concat _ _ "")|].
  split; [by apply Split_go_no_sep|]. split; [apply Split_go_length|].
  intros eml. apply stringInSlice_elem_of.
Qed.

Lemma users_are_the_pieces_witness :
  ∃ g st, Part000.init (boot_ex "bob,,Carol ") state0 = (Ok g, st) ∧
          Part000.users g = ["bob"; ""; "Carol "] ∧
          String.concat "," (Part000.users g) = "bob,,Carol ".
Proof.
  destruct (init000_outcome (boot_ex "bob,,Carol ") state0)
    as [(rows & st' & _ & _ & H)|(st' & H)].
  - eexists _, st'. split; [exact H|]. split; [reflexivity|].
    exact (proj1 (users_are_the_pieces _ _ _ H)).
  - exfalso. vm_compute in H. discriminate H.
Defined.

(** ** Start-up in the three variants *)

Lemma load_keys_cases b verbose msg st :
  (∃ rows st', keys_csv b = Records rows ∧ Forall (λ r, length r = 3%nat) rows ∧
               load_keys b verbose msg st = (Ok (load rows), st'))
  ∨ (bad_table b ∧ ∃ st', load_keys b verbose msg st = (Exit 1, st')).
Proof.
  unfold load_keys, bad_table. destruct (keys_csv b) as [e|e|rs] eqn:Hk.
  - right. split; [done|]. rewrite bind_run. simpl. by eexists.
  - right. split; [done|]. apply forM__Println_Exit.
  - destruct (ReadAll_inl 3 rs) as [HR|(e & HR & Hn)]; rewrite HR.
    + apply ReadAll_inv in HR as [_ HF]. left.
      destruct (feed_header rs verbose ∅ st HF) as [st' Hf].
      exists rs, st'. by rewrite Hf.
    + right. split; [done|]. apply forM__Println_Exit.
Qed.

Lemma init000_cases b st :
  (∃ rows st', keys_csv b = Records rows ∧ Forall (λ r, length r = 3%nat) rows ∧
     Getenv b "WARP10_ENDPOINT" ≠ "" ∧ Getenv b "WARP10_TOKEN" ≠ "" ∧
     Part000.init b st
     = (Ok (Part000.mkGlobals (Getenv b "WARP10_ENDPOINT") (Getenv b "WARP10_TOKEN")
              (load rows) (Split (Getenv b "ALLOWED_USERS") ",")), st'))
  ∨ ((Getenv b "WARP10_ENDPOINT" = "" ∨ Getenv b "WARP10_TOKEN" = "" ∨ bad_table b) ∧
     ∃ st', Part000.init b st = (Exit 1, st')).
Proof.
  unfold Part000.init. rewrite append_users. simpl.
  rewrite bind_run.
  destruct (Split (Getenv b "ALLOWED_USERS") ",") as [|u us] eqn:HS.
  { by apply Split_go_not_nil in HS. }
  simpl. rewrite bind_run.
  destruct (Getenv b "WARP10_ENDPOINT") as [|c1 e1] eqn:He.
  { right. split; [by left|]. simpl; rewrite ?bind_run; simpl; rewrite ?bind_run; simpl; by eexists. }
  destruct (Getenv b "WARP10_TOKEN") as [|c2 e2] eqn:Ht.
  { right. split; [by right; left|]. simpl; rewrite ?bind_run; simpl; rewrite ?bind_run; simpl; by eexists. }
  simpl. rewrite bind_run.
  destruct (load_keys_cases b true (λ e, [[LStr "Error in parsing:"; LErr e]]) st)
    as [(rows & st' & Hk & HF & ->)|(Hb & st' & ->)].
  - left. by exists rows, st'.
  - right. split; [by right; right | by exists st'].
Qed.

Lemma init001_cases b st :
  (∃ rows st', keys_csv b = Records rows ∧ Forall (λ r, length r = 3%nat) rows ∧
     Getenv b "WARP10_ENDPOINT" ≠ "" ∧ Getenv b "WARP10_TOKEN" ≠ "" ∧
     Part001.init b st
     = (Ok (Part001.mkGlobals (Getenv b "WARP10_ENDPOINT") (Getenv b "WARP10_TOKEN")
              (load rows) (Getenv b "ALLOWED_USERS")), st'))
  ∨ ((Getenv b "WARP10_ENDPOINT" = "" ∨ Getenv b "WARP10_TOKEN" = "" ∨ bad_table b) ∧
     ∃ st', Part001.init b st = (Exit 1, st')).
Proof.
  unfold Part001.init. rewrite bind_run. simpl. rewrite bind_run.
  set (st1 := mkState _ _ _ _ _).
  destruct (Getenv b "WARP10_ENDPOINT") as [|c1 e1] eqn:He.
  { right. split; [by left|]. simpl; rewrite ?bind_run; simpl; rewrite ?bind_run; simpl; by eexists. }
  destruct (Getenv b "WARP10_TOKEN") as [|c2 e2] eqn:Ht.
  { right. split; [by right; left|]. simpl; rewrite ?bind_run; simpl; rewrite ?bind_run; simpl; by eexists. }
  simpl. rewrite bind_run.
  destruct (load_keys_cases b false (λ e, [[LStr "Error in parsing:"; LErr e]]) st1)
    as [(rows & st' & Hk & HF & ->)|(Hb & st' & ->)].
  - left. by exists rows, st'.
  - right. split; [by right; right | by exists st'].
Qed.

Lemma initmain_cases b st :
  (∃ rows st', keys_csv b = Records rows ∧ Forall (λ r, length r = 3%nat) rows ∧
     Getenv b "WARP10_ENDPOINT" ≠ "" ∧ Getenv b "WARP10_TOKEN" ≠ "" ∧
     MainGo.init b st
     = (Ok (MainGo.mkGlobals (Getenv b "WARP10_ENDPOINT") (Getenv b "WARP10_TOKEN")
              (load rows)), st'))
  ∨ ((Getenv b "WARP10_ENDPOINT" = "" ∨ Getenv b "WARP10_TOKEN" = "" ∨ bad_table b) ∧
     ∃ st', MainGo.init b st = (Exit 1, st')).
Proof.
  unfold MainGo.init. rewrite bind_run.
  destruct (Getenv b "WARP10_ENDPOINT") as [|c1 e1] eqn:He.
  { right. split; [by left|]. simpl; rewrite ?bind_run; simpl; rewrite ?bind_run; simpl; by eexists. }
  destruct (Getenv b "WARP10_TOKEN") as [|c2 e2] eqn:Ht.
  { right. split; [by right; left|]. simpl; rewrite ?bind_run; simpl; rewrite ?bind_run; simpl; by eexists. }
  simpl. rewrite bind_run.
  destruct (load_keys_cases b true (λ e, [[LStr "Error in parsing:"]; [LErr e]]) st)
    as [(rows & st' & Hk & HF & ->)|(Hb & st' & ->)].
  - left. by exists rows, st'.
  - right. split; [by right; right | by exists st'].
Qed.

Lemma bad_table_not_records b rows :
  bad_table b → keys_csv b = Records rows → ¬ Forall (λ r, length r = 3%nat) rows.
Proof. unfold bad_table. intros H Hk. by rewrite Hk in H. Qed.

(** X3. The three variants of [init] end in the same way on every
    environment and table: either all three return, with the same
    endpoint, token and key directory (the one the table loads), or all
    three end the process with [os.Exit(1)]; none of them panics, so no row
    is ever indexed beyond its fields. *)
Theorem inits_agree (b : Boot) :
  (∃ rows s0 s1 sm,
     keys_csv b = Records rows ∧
     Part000.init b state0
     = (Ok (Part000.mkGlobals (Getenv b "WARP10_ENDPOINT") (Getenv b "WARP10_TOKEN")
              (load rows) (Split (Getenv b "ALLOWED_USERS") ",")), s0) ∧
     Part001.init b state0
     = (Ok (Part001.mkGlobals (Getenv b "WARP10_ENDPOINT") (Getenv b "WARP10_TOKEN")
              (load rows) (Getenv b "ALLOWED_USERS")), s1) ∧
     MainGo.init b state0
     = (Ok (MainGo.mkGlobals (Getenv b "WARP10_ENDPOINT") (Getenv b "WARP10_TOKEN")
              (load rows)), sm))
  ∨ (∃ s0 s1 sm,
       Part000.init b state0 = (Exit 1, s0) ∧ Part001.init b state0 = (Exit 1, s1) ∧
       MainGo.init b state0 = (Exit 1, sm)).
Proof.
  destruct (init000_cases b state0)
    as [(r0 & s0 & Hk0 & HF0 & He0 & Ht0 & H0)|(Hb0 & s0 & H0)];
  destruct (init001_cases b state0)
    as [(r1 & s1 & Hk1 & HF1 & He1 & Ht1 & H1)|(Hb1 & s1 & H1)];
  destruct (initmain_cases b state0)
    as [(rm & sm & Hkm & HFm & Hem & Htm & Hm)|(Hbm & sm & Hm)].
  - left. rewrite Hk0 in Hk1. rewrite Hk0 in Hkm. injection Hk1 as <-. injection Hkm as <-.
    by exists r0, s0, s1, sm.
  - exfalso. destruct Hbm as [?|[?|Hb]]; [done | done |].
    by apply (bad_table_not_records b r0 Hb).
  - exfalso. destruct Hb1 as [?|[?|Hb]]; [done | done |].
    by apply (bad_table_not_records b r0 Hb).
  - exfalso. destruct Hb1 as [?|[?|Hb]]; [done | done |].
    by apply (bad_table_not_records b r0 Hb).
  - exfalso. destruct Hb0 as [?|[?|Hb]]; [done | done |].
    by apply (bad_table_not_records b r1 Hb).
  - exfalso. destruct Hb0 as [?|[?|Hb]]; [done | done |].
    by apply (bad_table_not_records b r1 Hb).
  - exfalso. destruct Hb0 as [?|[?|Hb]]; [done | done |].
    by apply (bad_table_not_records b rm Hb).
  - right. by exists s0, s1, sm.
Qed.

(** X4. A table that cannot be loaded is fatal in the three variants,
    whatever the environment: when [keys.csv] is out of reach, is no CSV,
    or has a row without exactly three fields (the header row counts, though
    its content is never used), [init] ends the process with status 1 and
    returns no directory. *)
Theorem bad_table_is_fatal (b : Boot) :
  bad_table b →
  ∃ s0 s1 sm,
    Part000.init b state0 = (Exit 1, s0) ∧ Part001.init b state0 = (Exit 1, s1) ∧
    MainGo.init b state0 = (Exit 1, sm).
Proof.
  intros Hb.
  destruct (init000_cases b state0) as [(r0 & s0 & Hk0 & HF0 & _)|(_ & s0 & H0)];
    [by destruct (bad_table_not_records b r0 Hb)|].
  destruct (init001_cases b state0) as [(r1 & s1 & Hk1 & HF1 & _)|(_ & s1 & H1)];
    [by destruct (bad_table_not_records b r1 Hb)|].
  destruct (initmain_cases b state0) as [(rm & sm & Hkm & HFm & _)|(_ & sm & Hm)];
    [by destruct (bad_table_not_records b rm Hb)|].
  by exists s0, s1, sm.
Qed.

Lemma bad_table_is_fatal_witness :
  ∃ s0 s1 sm,
    Part000.init boot_short state0 = (Exit 1, s0) ∧
    Part001.init boot_short state0 = (Exit 1, s1) ∧
    MainGo.init boot_short state0 = (Exit 1, sm).
Proof.
  apply (bad_table_is_fatal boot_short).
  intros H. apply Forall_cons in H as [_ H]. apply Forall_cons in H as [H _].
  discriminate H.
Defined.

(** X5. Without the endpoint or without the token the three variants end
    the process with status 1 as soon as they have seen it: the line about
    the tokens is the last thing logged (the only one, but for the line on
    the user of [unnamed/part_001]), and the table is not looked at. *)
Theorem missing_token_is_fatal (b : Boot) :
  Getenv b "WARP10_ENDPOINT" = "" ∨ Getenv b "WARP10_TOKEN" = "" →
  Part000.init b state0
  = (Exit 1, mkState [[LStr "You moron forget to put the tokens!"]] [] ∅ None []) ∧
  Part001.init b state0
  = (Exit 1, mkState [[LStr "New user"; LStr (Getenv b "ALLOWED_USERS")];
                      [LStr "You moron forget to put the tokens!"]] [] ∅ None []) ∧
  MainGo.init b state0
  = (Exit 1, mkState [[LStr "You moron forget to put the tokens!"]] [] ∅ None []).
Proof.
  intros H.
  assert (is_empty (Getenv b "WARP10_ENDPOINT") || is_empty (Getenv b "WARP10_TOKEN")
          = true) as Hg.
  { destruct H as [-> | ->]; [done | apply orb_true_r]. }
  split; [|split].
  - unfold Part000.init. rewrite append_users. simpl. rewrite bind_run.
    destruct (Split (Getenv b "ALLOWED_USERS") ",") as [|u us] eqn:HS.
    { by apply Split_go_not_nil in HS. }
    simpl. rewrite bind_run. rewrite Hg. by rewrite bind_run.
  - unfold Part001.init. rewrite bind_run. simpl. rewrite bind_run.
    rewrite Hg. by rewrite bind_run.
  - unfold MainGo.init. rewrite bind_run. rewrite Hg. by rewrite bind_run.
Qed.

Lemma missing_token_is_fatal_witness :
  Part000.init boot_notoken state0
  = (Exit 1, mkState [[LStr "You moron forget to put the tokens!"]] [] ∅ None []) ∧
  Part001.init boot_notoken state0
  = (Exit 1, mkState [[LStr "New user"; LStr ""];
                      [LStr "You moron forget to put the tokens!"]] [] ∅ None []) ∧
  MainGo.init boot_notoken state0
  = (Exit 1, mkState [[LStr "You moron forget to put the tokens!"]] [] ∅ None []).
Proof. apply (missing_token_is_fatal boot_notoken). right. reflexivity. Defined.

(** ** What a request can make the handler do *)

Lemma forM__skip {A} (body : A → M unit) (l : list A) :
  (∀ x, x ∈ l → ∀ st, body x st = (Ok tt, st)) → ∀ st, forM_ l body st = (Ok tt, st).
Proof.
  induction l as [|x l IH]; intros Hb st; [done|].
  simpl. rewrite bind_run, Hb by (apply elem_of_cons; by left).
  apply IH. intros y Hy. apply Hb. apply elem_of_cons. by right.
Qed.

Lemma records_length dir mk keys : (length (records dir mk keys) ≤ length keys)%nat.
Proof.
  unfold records, omap. induction keys as [|key keys IH]; simpl; [done|].
  destruct (dir !! key); simpl; lia.
Qed.

Lemma records_unknown dir mk keys :
  (∀ k, k ∈ keys → dir !! k = None) → records dir mk keys = [].
Proof.
  unfold records. induction keys as [|key keys IH]; intros H; simpl; [done|].
  rewrite H by (apply elem_of_cons; by left). simpl.
  apply IH. intros k Hk. apply H. apply elem_of_cons. by right.
Qed.

(** X6. A request none of whose keys is in the directory (any request,
    when the directory is empty) never reaches the datastore and cannot
    fail: on any world the handlers of [unnamed/part_000] and
    [unnamed/part_001] make no call and acknowledge, and the handler of
    [main.go] makes no call and returns. *)
Theorem unknown_fields_only (endpoint token user : string) (dir : TorqueKeys)
    (users : Users) (w : World) (q : Values) (keys : list string) :
  (∀ k, k ∈ keys → dir !! k = None) →
  calls (Part000.query (Part000.mkGlobals endpoint token dir users) w q keys state0).2 = [] ∧
  reply_of (Part000.query (Part000.mkGlobals endpoint token dir users) w q keys state0)
  = Some ack ∧
  calls (Part001.query (Part001.mkGlobals endpoint token dir user) w q keys state0).2 = [] ∧
  reply_of (Part001.query (Part001.mkGlobals endpoint token dir user) w q keys state0)
  = Some ack ∧
  calls (MainGo.query (MainGo.mkGlobals endpoint token dir) w q keys state0).2 = [] ∧
  (MainGo.query (MainGo.mkGlobals endpoint token dir) w q keys state0).1 = Ok tt.
Proof.
  intros Hu.
  set (g0 := Part000.mkGlobals endpoint token dir users).
  set (g1 := Part001.mkGlobals endpoint token dir user).
  set (gm := MainGo.mkGlobals endpoint token dir).
  assert (∀ st, loop000 g0 w q keys st = (Ok tt, st)) as L0.
  { apply forM__skip. intros k Hk st. unfold Part000.forward. simpl.
    by rewrite (Hu k Hk). }
  assert (∀ st, loop001 g1 w q keys st = (Ok tt, st)) as L1.
  { apply forM__skip. intros k Hk st. unfold Part001.forward. simpl.
    by rewrite (Hu k Hk). }
  assert (∀ st, loop_main gm w q keys st = (Ok tt, st)) as Lm.
  { apply forM__skip. intros k Hk st. unfold MainGo.forward. simpl.
    by rewrite (Hu k Hk). }
  assert (calls (Part000.query g0 w q keys state0).2 = [] ∧
          reply_of (Part000.query g0 w q keys state0) = Some ack) as [C0 R0].
  { destruct (stringInSlice (Get q "eml") (Part000.users g0)) eqn:H1.
    { rewrite query000_listed by done. by rewrite reply_acked. }
    destruct (no_gps q) eqn:H2.
    { rewrite query000_no_gps by done. by rewrite reply_acked. }
    rewrite query000_open by done. rewrite bind_run, L0. simpl. rewrite ?bind_run. simpl. split; [done|].
    unfold reply_of. simpl. by rewrite lookup_insert_eq. }
  assert (calls (Part001.query g1 w q keys state0).2 = [] ∧
          reply_of (Part001.query g1 w q keys state0) = Some ack) as [C1 R1].
  { destruct (no_gps q || bool_decide (Get q "eml" = Part001.user g1)) eqn:H.
    { rewrite query001_closed by done. by rewrite reply_acked. }
    rewrite query001_open by done. rewrite bind_run, L1. simpl. rewrite ?bind_run. simpl. split; [done|].
    unfold reply_of. simpl. by rewrite lookup_insert_eq. }
  repeat split; try done.
  - unfold MainGo.query. rewrite bind_run. simpl. by rewrite Lm.
  - unfold MainGo.query. rewrite bind_run. simpl. by rewrite Lm.
Qed.

Lemma unknown_fields_only_witness :
  calls (Part000.query g000_ex w_down q_ex keys_unknown state0).2 = [] ∧
  reply_of (Part000.query g000_ex w_down q_ex keys_unknown state0) = Some ack ∧
  calls (Part001.query g001_ex w_down q_ex keys_unknown state0).2 = [] ∧
  reply_of (Part001.query g001_ex w_down q_ex keys_unknown state0) = Some ack ∧
  calls (MainGo.query gmain_ex w_down q_ex keys_unknown state0).2 = [] ∧
  (MainGo.query gmain_ex w_down q_ex keys_unknown state0).1 = Ok tt.
Proof.
  apply (unknown_fields_only "http://warp10" "token" "alice" dir_ex ["alice"; "carol"]
           w_down q_ex keys_unknown).
  intros k Hk. repeat (apply elem_of_cons in Hk as [->|Hk]; [reflexivity|]).
  by apply elem_of_nil in Hk.
Defined.

(** X7. On any world, the calls a handler makes are a beginning of the
    list of the records of the keys it visits, in the order of the visit:
    never more than one call for a key, never a call for a key the
    directory does not know, never more calls than the request has keys. *)
Theorem calls_follow_the_visit (g0 : Part000.globals) (g1 : Part001.globals)
    (gm : MainGo.globals) (w : World) (q : Values) (keys : list string) :
  calls (Part000.query g0 w q keys state0).2
    `prefix_of` map (post (Part000.warp10Endpoint g0) (Part000.warp10Token g0))
                  (records (Part000.torqueKeys g0) (record000 q) keys) ∧
  calls (Part001.query g1 w q keys state0).2
    `prefix_of` map (post (Part001.warp10Endpoint g1) (Part001.warp10Token g1))
                  (records (Part001.torqueKeys g1) (record001 q) keys) ∧
  calls (MainGo.query gm w q keys state0).2
    `prefix_of` map (post (MainGo.warp10Endpoint gm) (MainGo.warp10Token gm))
                  (records (MainGo.torqueKeys gm) (record_main q) keys) ∧
  (length (calls (Part000.query g0 w q keys state0).2) ≤ length keys)%nat ∧
  (length (calls (Part001.query g1 w q keys state0).2) ≤ length keys)%nat ∧
  (length (calls (MainGo.query gm w q keys state0).2) ≤ length keys)%nat.
Proof.
  destruct (query000_calls g0 w q keys state0) as [n0 H0].
  destruct (query001_calls g1 w q keys state0) as [n1 H1].
  destruct (query_main_continues gm w q keys state0) as [nm [Hm _]].
  simpl in H0, H1, Hm. rewrite H0, H1, Hm.
  repeat split; try apply prefix_take;
    rewrite length_take, length_map;
    (etrans; [apply Nat.le_min_r | apply records_length]).
Qed.

(** ** The first call that is not accepted *)

Lemma not_accepted_outcome w i req :
  ¬ accepted w i req →
  match client_Do w i req with
  | (None, _) => True
  | (Some r, _) => StatusCode r ≠ 200
  end.
Proof.
  unfold accepted. destruct (client_Do w i req) as [[[z]|] e]; simpl; [|done].
  intros H ->. by apply H.
Qed.

Lemma loop000_stops g w q keys st n :
  url_ok w (Part000.warp10Endpoint g +:+ "/api/v0/update") = true →
  (∀ i req, (i < n)%nat →
     map (post (Part000.warp10Endpoint g) (Part000.warp10Token g))
       (records (Part000.torqueKeys g) (record000 q) keys) !! i = Some req →
     accepted w (length (calls st) + i) req) →
  (∃ req,
     map (post (Part000.warp10Endpoint g) (Part000.warp10Token g))
       (records (Part000.torqueKeys g) (record000 q) keys) !! n = Some req ∧
     ¬ accepted w (length (calls st) + n) req) →
  (∃ p, (loop000 g w q keys st).1 = Panic p) ∧
  continues st
    (take (S n) (map (post (Part000.warp10Endpoint g) (Part000.warp10Token g))
                   (records (Part000.torqueKeys g) (record000 q) keys)))
    (loop000 g w q keys st).2.
Proof.
  intros Hurl. revert st n. induction keys as [|key keys IH]; intros st n Hacc Hrej.
  { by destruct Hrej as (req & Hr & _). }
  simpl forM_. rewrite bind_run. unfold Part000.forward at 1 3 4. unfold records in *.
  simpl omap in *.
  destruct (Part000.torqueKeys g !! key) as [val|] eqn:Hval; simpl in *; [|by apply IH].
  fold (labels_of (Get q "id") val). fold (record000 q key val).
  pose proof (send000_continues g w (record000 q key val) st) as Hc.
  pose proof (send000_outcome g w (record000 q key val) st Hurl) as Ho.
  rewrite Hurl in Hc.
  destruct n as [|n].
  - destruct Hrej as (req & [= <-] & Hrej). rewrite Nat.add_0_r in Hrej.
    apply not_accepted_outcome in Hrej.
    destruct (client_Do w _ _) as [[r|] err].
    + rewrite bool_decide_eq_false_2 in Ho by done.
      destruct (Part000.sendToWarp10 g w (record000 q key val) st) as [[[]|p|c] st1];
        simpl in *; try done. split; [by exists p | done].
    + destruct (Part000.sendToWarp10 g w (record000 q key val) st) as [[[]|p|c] st1];
        simpl in *; try done. split; [by exists p | done].
  - assert (accepted w (length (calls st))
              (post (Part000.warp10Endpoint g) (Part000.warp10Token g)
                 (record000 q key val))) as Ha.
    { rewrite <- (Nat.add_0_r (length (calls st))). apply Hacc; [lia | done]. }
    unfold accepted in Ha.
    destruct (client_Do w _ _) as [[r|] err]; simpl in Ha; [|done].
    injection Ha as ->. simpl in Ho.
    destruct (Part000.sendToWarp10 g w (record000 q key val) st) as [[[]|p|c] st1];
      simpl in Ho, Hc; try done.
    assert (length (calls st1) = S (length (calls st))) as Hlen.
    { destruct Hc as [-> _]. rewrite length_app. simpl. lia. }
    destruct (IH st1 n) as [Hp Hcont].
    + intros i req Hi Hl. rewrite Hlen.
      replace (S (length (calls st)) + i)%nat with (length (calls st) + S i)%nat by lia.
      apply Hacc; [lia | done].
    + destruct Hrej as (req & Hl & Hrej). exists req. split; [done|].
      rewrite Hlen.
      by replace (S (length (calls st)) + n)%nat with (length (calls st) + S n)%nat
        by lia.
    + split; [done|]. apply (continues_trans _ _ _ [_] _ Hc Hcont).
Qed.

Lemma loop001_stops g w q keys st n :
  url_ok w (Part001.warp10Endpoint g +:+ "/api/v0/update") = true →
  (∀ i req, (i < n)%nat →
     map (post (Part001.warp10Endpoint g) (Part001.warp10Token g))
       (records (Part001.torqueKeys g) (record001 q) keys) !! i = Some req →
     accepted w (length (calls st) + i) req) →
  (∃ req,
     map (post (Part001.warp10Endpoint g) (Part001.warp10Token g))
       (records (Part001.torqueKeys g) (record001 q) keys) !! n = Some req ∧
     ¬ accepted w (length (calls st) + n) req) →
  (∃ p, (loop001 g w q keys st).1 = Panic p) ∧
  continues st
    (take (S n) (map (post (Part001.warp10Endpoint g) (Part001.warp10Token g))
                   (records (Part001.torqueKeys g) (record001 q) keys)))
    (loop001 g w q keys st).2.
Proof.
  intros Hurl. revert st n. induction keys as [|key keys IH]; intros st n Hacc Hrej.
  { by destruct Hrej as (req & Hr & _). }
  simpl forM_. rewrite bind_run. unfold Part001.forward at 1 3 4. unfold records in *.
  simpl omap in *.
  destruct (Part001.torqueKeys g !! key) as [val|] eqn:Hval; simpl in *; [|by apply IH].
  fold (labels_of (Get q "id") val). fold (record001 q key val).
  pose proof (send001_continues g w (record001 q key val) st) as Hc.
  pose proof (send001_outcome g w (record001 q key val) st Hurl) as Ho.
  rewrite Hurl in Hc.
  destruct n as [|n].
  - destruct Hrej as (req & [= <-] & Hrej). rewrite Nat.add_0_r in Hrej.
    apply not_accepted_outcome in Hrej.
    destruct (client_Do w _ _) as [[r|] err].
    + rewrite bool_decide_eq_false_2 in Ho by done.
      destruct (Part001.sendToWarp10 g w (record001 q key val) st) as [[[]|p|c] st1];
        simpl in *; try done. split; [by exists p | done].
    + destruct (Part001.sendToWarp10 g w (record001 q key val) st) as [[[]|p|c] st1];
        simpl in *; try done. split; [by exists p | done].
  - assert (accepted w (length (calls st))
              (post (Part001.warp10Endpoint g) (Part001.warp10Token g)
                 (record001 q key val))) as Ha.
    { rewrite <- (Nat.add_0_r (length (calls st))). apply Hacc; [lia | done]. }
    unfold accepted in Ha.
    destruct (client_Do w _ _) as [[r|] err]; simpl in Ha; [|done].
    injection Ha as ->. simpl in Ho.
    destruct (Part001.sendToWarp10 g w (record001 q key val) st) as [[[]|p|c] st1];
      simpl in Ho, Hc; try done.
    assert (length (calls st1) = S (length (calls st))) as Hlen.
    { destruct Hc as [-> _]. rewrite length_app. simpl. lia. }
    destruct (IH st1 n) as [Hp Hcont].
    + intros i req Hi Hl. rewrite Hlen.
      replace (S (length (calls st)) + i)%nat with (length (calls st) + S i)%nat by lia.
      apply Hacc; [lia | done].
    + destruct Hrej as (req & Hl & Hrej). exists req. split; [done|].
      rewrite Hlen.
      by replace (S (length (calls st)) + n)%nat with (length (calls st) + S n)%nat
        by lia.
    + split; [done|]. apply (continues_trans _ _ _ [_] _ Hc Hcont).
Qed.

(** X8. In [unnamed/part_000] and [unnamed/part_001], past the gate, the
    run ends at the first call that is not answered with a response of
    status 200 (another status, or no response at all): the handler
    panics, the refused call is the last one made (no retry, the records
    of the keys visited later are never sent), and the caller receives no
    acknowledgment. *)
Theorem first_refusal_ends_the_run (g0 : Part000.globals) (g1 : Part001.globals)
    (w : World) (q : Values) (keys : list string) (n : nat) :
  (stringInSlice (Get q "eml") (Part000.users g0) = false → no_gps q = false →
   url_ok w (Part000.warp10Endpoint g0 +:+ "/api/v0/update") = true →
   (∀ i req, (i < n)%nat →
      map (post (Part000.warp10Endpoint g0) (Part000.warp10Token g0))
        (records (Part000.torqueKeys g0) (record000 q) keys) !! i = Some req →
      accepted w i req) →
   (∃ req,
      map (post (Part000.warp10Endpoint g0) (Part000.warp10Token g0))
        (records (Part000.torqueKeys g0) (record000 q) keys) !! n = Some req ∧
      ¬ accepted w n req) →
   (∃ p, (Part000.query g0 w q keys state0).1 = Panic p) ∧
   calls (Part000.query g0 w q keys state0).2
   = take (S n) (map (post (Part000.warp10Endpoint g0) (Part000.warp10Token g0))
                   (records (Part000.torqueKeys g0) (record000 q) keys)) ∧
   reply_of (Part000.query g0 w q keys state0) = None) ∧
  (Get q "eml" ≠ Part001.user g1 → no_gps q = false →
   url_ok w (Part001.warp10Endpoint g1 +:+ "/api/v0/update") = true →
   (∀ i req, (i < n)%nat →
      map (post (Part001.warp10Endpoint g1) (Part001.warp10Token g1))
        (records (Part001.torqueKeys g1) (record001 q) keys) !! i = Some req →
      accepted w i req) →
   (∃ req,
      map (post (Part001.warp10Endpoint g1) (Part001.warp10Token g1))
        (records (Part001.torqueKeys g1) (record001 q) keys) !! n = Some req ∧
      ¬ accepted w n req) →
   (∃ p, (Part001.query g1 w q keys state0).1 = Panic p) ∧
   calls (Part001.query g1 w q keys state0).2
   = take (S n) (map (post (Part001.warp10Endpoint g1) (Part001.warp10Token g1))
                   (records (Part001.torqueKeys g1) (record001 q) keys)) ∧
   reply_of (Part001.query g1 w q keys state0) = None).
Proof.
  split.
  - intros H1 H2 Hurl Hacc Hrej. rewrite query000_open by done. rewrite bind_run.
    set (st1 := mkState _ _ _ _ _).
    destruct (loop000_stops g0 w q keys st1 n Hurl Hacc Hrej) as [[p Hp] [Hc _]].
    destruct (loop000 g0 w q keys st1) as [[[]|p'|c] st2]; simpl in *; try done.
    split; [by exists p' | done].
  - intros H1 H2 Hurl Hacc Hrej.
    rewrite query001_open by (by rewrite H2, bool_decide_eq_false_2).
    rewrite bind_run.
    set (st1 := mkState _ _ _ _ _).
    destruct (loop001_stops g1 w q keys st1 n Hurl Hacc Hrej) as [[p Hp] [Hc _]].
    destruct (loop001 g1 w q keys st1) as [[[]|p'|c] st2]; simpl in *; try done.
    split; [by exists p' | done].
Qed.

Lemma first_refusal_ends_the_run_witness :
  (calls (Part000.query g000_ex w500 q_ex keys_ex state0).2
   = [post "http://warp10" "token"
        (mkGTS "100" "45.0" "3.0" "12345" "speed" "id=7,type=sensor" "87")] ∧
   reply_of (Part000.query g000_ex w500 q_ex keys_ex state0) = None) ∧
  (calls (Part001.query g001_ex w_second q_ex keys_ex state0).2
   = [post "http://warp10" "token"
        (mkGTS "100000" "45.0" "3.0" "12345" "speed" "id=7,type=sensor" "87");
      post "http://warp10" "token"
        (mkGTS "100000" "45.0" "3.0" "12345" "rpm" "id=7" "3000")] ∧
   reply_of (Part001.query g001_ex w_second q_ex keys_ex state0) = None).
Proof.
  split.
  - destruct (proj1 (first_refusal_ends_the_run g000_ex g001_ex w500 q_ex keys_ex 0))
      as (_ & Hc & Hr);
      [reflexivity | reflexivity | reflexivity | intros i req Hi; lia | |].
    + eexists. split; [reflexivity|]. unfold accepted. simpl. discriminate.
    + split; [rewrite Hc; reflexivity | exact Hr].
  - destruct (proj2 (first_refusal_ends_the_run g000_ex g001_ex w_second q_ex keys_ex 1))
      as (_ & Hc & Hr);
      [discriminate | reflexivity | reflexivity | | |].
    + intros [|i] req Hi Hl; [reflexivity | lia].
    + eexists. split; [reflexivity|]. unfold accepted. simpl. discriminate.
    + split; [rewrite Hc; reflexivity | exact Hr].
Defined.

(** ** The handler of [main.go] and the datastore *)

(** X9. [sendToWarp10] of [main.go] never looks at the status of the
    response: on a datastore that answers, whatever the status codes (also
    500 to every call), the handler sends the record of every recognised
    key and returns; and an error of the transport panics with that very
    error. *)
Theorem main_go_ignores_the_status (gm : MainGo.globals) (w : World) (q : Values)
    (keys : list string) :
  url_ok w (MainGo.warp10Endpoint gm +:+ "/api/v0/update") = true →
  (answers w →
   (MainGo.query gm w q keys state0).1 = Ok tt ∧
   calls (MainGo.query gm w q keys state0).2
   = map (post (MainGo.warp10Endpoint gm) (MainGo.warp10Token gm))
       (records (MainGo.torqueKeys gm) (record_main q) keys)) ∧
  (∀ gts st resp e,
     client_Do w (length (calls st))
       (post (MainGo.warp10Endpoint gm) (MainGo.warp10Token gm) gts) = (resp, Some e) →
     (MainGo.sendToWarp10 gm w gts st).1 = Panic (PanicErr e)).
Proof.
  intros Hurl. split.
  - intros Ha. by destruct (query_main_ok gm w q keys Hurl Ha) as (? & ? & _).
  - intros gts st resp e Hd. unfold MainGo.sendToWarp10, NewRequest.
    rewrite bind_run; simpl. rewrite Hurl; simpl.
    rewrite bind_run; simpl.
    fold (post (MainGo.warp10Endpoint gm) (MainGo.warp10Token gm) gts).
    rewrite bind_run; simpl. by rewrite Hd.
Qed.

Lemma main_go_ignores_the_status_witness :
  (MainGo.query gmain_ex w500 q_ex keys_ex state0).1 = Ok tt ∧
  length (calls (MainGo.query gmain_ex w500 q_ex keys_ex state0).2) = 2%nat ∧
  (MainGo.sendToWarp10 gmain_ex w_down (record_main q_ex "kd" (mkTorqueKey "speed" ""))
     state0).1 = Panic (PanicErr (EOther "connection refused")).
Proof.
  destruct (main_go_ignores_the_status gmain_ex w500 q_ex keys_ex) as [H _];
    [reflexivity|].
  destruct H as [Ho Hc]; [by intros n req; eexists|].
  split; [exact Ho|]. split; [rewrite Hc; reflexivity|].
  refine (proj2 (main_go_ignores_the_status gmain_ex w_down q_ex keys_ex _)
            _ state0 None _ _); reflexivity.
Defined.

(** ** An endpoint that is no URL *)

Lemma forM__first_panic {A} (body : A → M unit) (l : list A) (P : A → Prop)
    `{∀ x, Decision (P x)} (p : panicval) :
  (∀ x st, ¬ P x → body x st = (Ok tt, st)) →
  (∀ x st, P x → (body x st).1 = Panic p ∧ calls (body x st).2 = calls st) →
  ∀ st, calls (forM_ l body st).2 = calls st ∧
        ((∃ x, x ∈ l ∧ P x) → (forM_ l body st).1 = Panic p).
Proof.
  intros Hskip Hpanic. induction l as [|x l IH]; intros st.
  { split; [done|]. by intros (x & ?%elem_of_nil & _). }
  simpl. rewrite bind_run. destruct (decide (P x)) as [Hx|Hx].
  - destruct (Hpanic x st Hx) as [Ho Hc].
    destruct (body x st) as [[[]|p'|c] st1]; simpl in *; try done.
    all: split; [done | by intros _].
  - rewrite Hskip by done. destruct (IH st) as [Hc Hp]. split; [done|].
    intros (y & Hy & HPy). apply Hp. exists y. split; [|done].
    apply elem_of_cons in Hy as [->|Hy]; [by destruct Hx | done].
Qed.

(** X10. [init] only checks that the endpoint is not empty.  When it does
    not parse as a URL, [http.NewRequest] returns no request and its error
    is dropped: no call ever reaches the datastore, and every request that
    passes the gate with a key the directory knows panics on the nil
    request, in the three variants. *)
Theorem endpoint_that_is_no_url (endpoint token user : string) (dir : TorqueKeys)
    (users : Users) (w : World) (q : Values) (keys : list string) :
  url_ok w (endpoint +:+ "/api/v0/update") = false →
  (calls (Part000.query (Part000.mkGlobals endpoint token dir users) w q keys state0).2
   = [] ∧
   calls (Part001.query (Part001.mkGlobals endpoint token dir user) w q keys state0).2
   = [] ∧
   calls (MainGo.query (MainGo.mkGlobals endpoint token dir) w q keys state0).2 = []) ∧
  ((∃ key, key ∈ keys ∧ is_Some (dir !! key)) →
   (stringInSlice (Get q "eml") users = false → no_gps q = false →
    (Part000.query (Part000.mkGlobals endpoint token dir users) w q keys state0).1
    = Panic NilDereference) ∧
   (Get q "eml" ≠ user → no_gps q = false →
    (Part001.query (Part001.mkGlobals endpoint token dir user) w q keys state0).1
    = Panic NilDereference) ∧
   (MainGo.query (MainGo.mkGlobals endpoint token dir) w q keys state0).1
   = Panic NilDereference).
Proof.
  intros Hurl.
  set (g0 := Part000.mkGlobals endpoint token dir users).
  set (g1 := Part001.mkGlobals endpoint token dir user).
  set (gm := MainGo.mkGlobals endpoint token dir).
  assert (∀ st, calls (loop000 g0 w q keys st).2 = calls st ∧
                ((∃ x, x ∈ keys ∧ is_Some (dir !! x)) →
                 (loop000 g0 w q keys st).1 = Panic NilDereference)) as L0.
  { apply (forM__first_panic _ keys (λ x, is_Some (dir !! x)) NilDereference).
    - intros x st Hx. unfold Part000.forward. simpl.
      destruct (dir !! x) eqn:E; [by destruct Hx | done].
    - intros x st [val Hx]. unfold Part000.forward. simpl. rewrite Hx.
      unfold Part000.sendToWarp10, NewRequest. simpl. by rewrite Hurl. }
  assert (∀ st, calls (loop001 g1 w q keys st).2 = calls st ∧
                ((∃ x, x ∈ keys ∧ is_Some (dir !! x)) →
                 (loop001 g1 w q keys st).1 = Panic NilDereference)) as L1.
  { apply (forM__first_panic _ keys (λ x, is_Some (dir !! x)) NilDereference).
    - intros x st Hx. unfold Part001.forward. simpl.
      destruct (dir !! x) eqn:E; [by destruct Hx | done].
    - intros x st [val Hx]. unfold Part001.forward. simpl. rewrite Hx.
      unfold Part001.sendToWarp10, NewRequest, Part001.Print_logged. simpl.
      rewrite bind_run. simpl. by rewrite Hurl. }
  assert (∀ st, calls (loop_main gm w q keys st).2 = calls st ∧
                ((∃ x, x ∈ keys ∧ is_Some (dir !! x)) →
                 (loop_main gm w q keys st).1 = Panic NilDereference)) as Lm.
  { apply (forM__first_panic _ keys (λ x, is_Some (dir !! x)) NilDereference).
    - intros x st Hx. unfold MainGo.forward. simpl.
      destruct (dir !! x) eqn:E; [by destruct Hx | done].
    - intros x st [val Hx]. unfold MainGo.forward. simpl. rewrite Hx.
      unfold MainGo.sendToWarp10, NewRequest. simpl.
      rewrite bind_run. simpl. by rewrite Hurl. }
  split; [split; [|split]|].
  - destruct (stringInSlice (Get q "eml") (Part000.users g0)) eqn:H1.
    { by rewrite query000_listed. }
    destruct (no_gps q) eqn:H2.
    { by rewrite query000_no_gps. }
    rewrite query000_open by done. rewrite bind_run.
    set (st1 := mkState _ _ _ _ _). destruct (L0 st1) as [Hc _].
    destruct (loop000 g0 w q keys st1) as [[[]|p|c] st2]; simpl in *; done.
  - destruct (no_gps q || bool_decide (Get q "eml" = Part001.user g1)) eqn:H.
    { by rewrite query001_closed. }
    rewrite query001_open by done. rewrite bind_run.
    set (st1 := mkState _ _ _ _ _). destruct (L1 st1) as [Hc _].
    destruct (loop001 g1 w q keys st1) as [[[]|p|c] st2]; simpl in *; done.
  - unfold MainGo.query. rewrite bind_run. simpl.
    set (st1 := mkState _ _ _ _ _). by destruct (Lm st1) as [Hc _].
  - intros Hk. split; [|split].
    + intros H1 H2. rewrite query000_open by done. rewrite bind_run.
      set (st1 := mkState _ _ _ _ _). destruct (L0 st1) as [_ Hp].
      by rewrite (surjective_pairing (loop000 g0 w q keys st1)), (Hp Hk).
    + intros H1 H2.
      rewrite query001_open by (by simpl; rewrite H2, bool_decide_eq_false_2).
      rewrite bind_run.
      set (st1 := mkState _ _ _ _ _). destruct (L1 st1) as [_ Hp].
      by rewrite (surjective_pairing (loop001 g1 w q keys st1)), (Hp Hk).
    + unfold MainGo.query. rewrite bind_run. simpl.
      set (st1 := mkState _ _ _ _ _). destruct (Lm st1) as [_ Hp].
      by rewrite (Hp Hk).
Qed.

Lemma endpoint_that_is_no_url_witness :
  calls (Part000.query g000_ex w_nourl q_ex keys_ex state0).2 = [] ∧
  (Part000.query g000_ex w_nourl q_ex keys_ex state0).1 = Panic NilDereference ∧
  (Part001.query g001_ex w_nourl q_ex keys_ex state0).1 = Panic NilDereference ∧
  (MainGo.query gmain_ex w_nourl q_ex keys_ex state0).1 = Panic NilDereference.
Proof.
  destruct (endpoint_that_is_no_url "http://warp10" "token" "alice" dir_ex
              ["alice"; "carol"] w_nourl q_ex keys_ex) as [(C0 & _ & _) H];
    [reflexivity|].
  destruct H as (P0 & P1 & Pm).
  { exists "kd". split; [apply elem_of_cons; by left | by eexists]. }
  split; [exact C0|]. split; [apply P0; reflexivity|].
  split; [apply P1; [discriminate | reflexivity] | exact Pm].
Defined.

(** ** What [query] reads of a request *)

Lemma forM__ext {A} (f h : A → M unit) (l : list A) :
  (∀ x st, f x st = h x st) → ∀ st, forM_ l f st = forM_ l h st.
Proof.
  intros Hfh. induction l as [|x l IH]; intros st; [done|].
  simpl. rewrite !bind_run, Hfh.
  destruct (h x st) as [[[]|p|c] st1]; [apply IH | done | done].
Qed.

Lemma elem_of_keys (q : Values) key :
  key ∈ (map_to_list q).*1 ↔ is_Some (q !! key).
Proof.
  rewrite list_elem_of_fmap. split.
  - intros ([k v] & -> & H). apply elem_of_map_to_list in H. by exists v.
  - intros [v H]. exists (key, v). split; [done|]. by apply elem_of_map_to_list.
Qed.

Lemma visits_same_keys (q q' : Values) keys :
  same_keys q q' → visits q keys → visits q' keys.
Proof.
  unfold visits. intros Hk ->.
  apply NoDup_Permutation; try apply NoDup_fst_map_to_list.
  intros key. rewrite !elem_of_keys. symmetry. apply Hk.
Qed.

(** X11. [query] of [unnamed/part_000] depends on a request through its
    keys and the first value of each key, no more: two requests with the
    same keys and the same first values are visited in the same orders and,
    in each of them, run alike (same log, calls, reply and outcome).  So
    the further values of a parameter given several times are ignored. *)
Theorem query_reads_first_values (g : Part000.globals) (w : World) (q q' : Values)
    (keys : list string) (st : state) :
  same_keys q q' → (∀ key, Get q' key = Get q key) → visits q keys →
  visits q' keys ∧ Part000.query g w q' keys st = Part000.query g w q keys st.
Proof.
  intros Hk HG Hv. split; [by apply visits_same_keys with q|].
  apply query000_loop_ext; try apply HG.
  intros id time lat lon alt st'. apply forM__ext. intros key st''.
  unfold Part000.forward. by rewrite HG.
Qed.

Lemma query_reads_first_values_witness :
  visits q_twice keys_ex ∧
  Part000.query g000_ex w200 q_twice keys_ex state0
  = Part000.query g000_ex w200 q_ex keys_ex state0.
Proof.
  apply query_reads_first_values.
  - intros key. unfold q_twice.
    destruct (decide (key = "kfx1")) as [->|H1].
    + split; intros _; eexists; reflexivity.
    + by rewrite lookup_insert_ne.
  - intros key. unfold Get, q_twice.
    destruct (decide (key = "kfx1")) as [->|H1]; [reflexivity|].
    by rewrite lookup_insert_ne.
  - apply (@bool_decide_unpack _ (Permutation_dec _ _)). by vm_compute.
Defined.

(** The keys count, not only the values: a recognised key with an empty
    value is sent with that empty value, where [unnamed/part_000] sends
    nothing for the key that is absent, though [Get] answers alike. *)
Example an_empty_value_is_not_an_absent_key :
  visits q_no_rpm keys_no_rpm ∧ visits q_empty_rpm keys_ex ∧
  Get q_empty_rpm "kfx1" = Get q_no_rpm "kfx1" ∧
  map (λ req, string_of_bytes (Body req))
    (calls (Part000.query g000_ex w200 q_no_rpm keys_no_rpm state0).2)
  = ["100/45.0:3.0/12345 speed{id=7,type=sensor} 87"] ∧
  map (λ req, string_of_bytes (Body req))
    (calls (Part000.query g000_ex w200 q_empty_rpm keys_ex state0).2)
  = ["100/45.0:3.0/12345 speed{id=7,type=sensor} 87";
     "100/45.0:3.0/12345 rpm{id=7} "].
Proof.
  split; [|split];
    try (apply (@bool_decide_unpack _ (Permutation_dec _ _)); by vm_compute).
  repeat split; by vm_compute.
Qed.

(** ** The two gated variants side by side *)

Lemma records_map dir (mk : string → TorqueKey → GTS) (f : GTS → GTS) keys :
  records dir (λ key val, f (mk key val)) keys = map f (records dir mk keys).
Proof.
  unfold records, omap. induction keys as [|key keys IH]; simpl; [done|].
  destruct (dir !! key); simpl; by rewrite IH.
Qed.

Lemma visits_Permutation (q : Values) keys keys' :
  visits q keys → visits q keys' → keys ≡ₚ keys'.
Proof. unfold visits. by intros -> ->. Qed.

Lemma records_Permutation dir mk keys keys' :
  keys ≡ₚ keys' → records dir mk keys ≡ₚ records dir mk keys'.
Proof. intros H. unfold records. by rewrite H. Qed.

(** X12. With the same endpoint, token and directory, and one configured
    user [u], [unnamed/part_000] (users [[u]]) and [unnamed/part_001] (user
    [u]) take the same decision at the gate.  Each run ranges over the map
    of the request in an order of its own, [keys0] and [keys1]: the records
    of the two, one for each recognised key, are the same up to that order,
    but for the timestamp, which [unnamed/part_001] extends by [000].  On any world each handler
    sends a prefix of its records.  When the gate is closed, on any world,
    both return, send nothing and acknowledge; when it is open and the
    datastore answers 200, both send all their records and acknowledge. *)
Theorem gated_variants_agree (endpoint token u : string) (dir : TorqueKeys)
    (w : World) (q : Values) (keys0 keys1 : list string) :
  visits q keys0 → visits q keys1 →
  stringInSlice (Get q "eml") [u] || no_gps q
  = no_gps q || bool_decide (Get q "eml" = u) ∧
  records dir (record000 q) keys0 ≡ₚ records dir (record000 q) keys1 ∧
  records dir (record001 q) keys1 = map extend_ts (records dir (record000 q) keys1) ∧
  (∃ n, calls (Part000.query (Part000.mkGlobals endpoint token dir [u]) w q keys0
                 state0).2
        = take n (map (post endpoint token) (records dir (record000 q) keys0))) ∧
  (∃ n, calls (Part001.query (Part001.mkGlobals endpoint token dir u) w q keys1
                 state0).2
        = take n (map (post endpoint token)
                    (map extend_ts (records dir (record000 q) keys1)))) ∧
  (no_gps q || bool_decide (Get q "eml" = u) = true →
   Part000.query (Part000.mkGlobals endpoint token dir [u]) w q keys0 state0
   = (Ok tt, acked state0 [[LStr (if bool_decide (Get q "eml" = u)
                                  then "unauthorized"
                                  else "No GPS Data, moving on")]]) ∧
   Part001.query (Part001.mkGlobals endpoint token dir u) w q keys1 state0
   = (Ok tt, acked state0 (intro001 q ++ [[LStr "No GPS Data, moving on"]])) ∧
   reply_of (Part000.query (Part000.mkGlobals endpoint token dir [u]) w q keys0
               state0) = Some ack ∧
   reply_of (Part001.query (Part001.mkGlobals endpoint token dir u) w q keys1
               state0) = Some ack) ∧
  (no_gps q || bool_decide (Get q "eml" = u) = false →
   url_ok w (endpoint +:+ "/api/v0/update") = true → answers_200 w →
   calls (Part000.query (Part000.mkGlobals endpoint token dir [u]) w q keys0
            state0).2
   = map (post endpoint token) (records dir (record000 q) keys0) ∧
   calls (Part001.query (Part001.mkGlobals endpoint token dir u) w q keys1
            state0).2
   = map (post endpoint token) (map extend_ts (records dir (record000 q) keys1)) ∧
   reply_of (Part000.query (Part000.mkGlobals endpoint token dir [u]) w q keys0
               state0) = Some ack ∧
   reply_of (Part001.query (Part001.mkGlobals endpoint token dir u) w q keys1
               state0) = Some ack).
Proof.
  intros Hv0 Hv1.
  set (g0 := Part000.mkGlobals endpoint token dir [u]).
  set (g1 := Part001.mkGlobals endpoint token dir u).
  assert (stringInSlice (Get q "eml") (Part000.users g0)
          = bool_decide (Get q "eml" = u)) as Hgate.
  { simpl. repeat case_bool_decide; congruence. }
  assert (records dir (record001 q) keys1
          = map extend_ts (records dir (record000 q) keys1)) as Hext
    by apply (records_map dir (record000 q) extend_ts keys1).
  split.
  { change [u] with (Part000.users g0). rewrite Hgate. apply orb_comm. }
  split; [apply records_Permutation, (visits_Permutation q); done|].
  split; [exact Hext|].
  split; [|split; [|split]].
  - destruct (query000_calls g0 w q keys0 state0) as [n Hn]. by exists n.
  - destruct (query001_calls g1 w q keys1 state0) as [n Hn]. exists n.
    rewrite Hn. simpl. by rewrite Hext.
  - intros Hc.
    assert (Part001.query g1 w q keys1 state0
            = (Ok tt, acked state0 (intro001 q ++ [[LStr "No GPS Data, moving on"]])))
      as H1 by (by apply query001_closed).
    assert (Part000.query g0 w q keys0 state0
            = (Ok tt, acked state0 [[LStr (if bool_decide (Get q "eml" = u)
                                           then "unauthorized"
                                           else "No GPS Data, moving on")]])) as H0.
    { destruct (bool_decide (Get q "eml" = u)) eqn:Hu.
      - by apply query000_listed.
      - apply query000_no_gps; [done|]. by rewrite orb_false_r in Hc. }
    rewrite H0, H1. by rewrite !reply_acked.
  - intros Ho Hurl H200.
    apply orb_false_elim in Ho as [Hg Hu].
    assert (no_gps q || bool_decide (Get q "eml" = Part001.user g1) = false) as Hg1
      by (simpl; by rewrite Hg, Hu).
    rewrite <- Hgate in Hu.
    destruct (query000_ok g0 w q keys0 state0 Hu Hg Hurl H200) as [Ho0 Hc0].
    destruct (query001_ok g1 w q keys1 state0 Hg1 Hurl H200) as [Ho1 Hc1].
    split; [exact Hc0|]. split.
    + rewrite Hc1. simpl. by rewrite Hext.
    + destruct (query000_returns g0 w q keys0 state0 Ho0) as (s0 & l0 & -> & _ & Hs0 & Hb0).
      destruct (query001_returns g1 w q keys1 state0 Ho1) as (s1 & l1 & -> & _ & Hs1 & Hb1).
      by rewrite !reply_acked.
Qed.

Lemma gated_variants_agree_witness :
  map (λ req, string_of_bytes (Body req))
    (calls (Part000.query (Part000.mkGlobals "http://warp10" "token" dir_ex ["alice"])
              w200 q_ex keys_ex state0).2)
  = ["100/45.0:3.0/12345 speed{id=7,type=sensor} 87";
     "100/45.0:3.0/12345 rpm{id=7} 3000"] ∧
  map (λ req, string_of_bytes (Body req))
    (calls (Part001.query (Part001.mkGlobals "http://warp10" "token" dir_ex "alice")
              w200 q_ex keys_back state0).2)
  = ["100000/45.0:3.0/12345 rpm{id=7} 3000";
     "100000/45.0:3.0/12345 speed{id=7,type=sensor} 87"].
Proof.
  destruct (gated_variants_agree "http://warp10" "token" "alice" dir_ex w200 q_ex
              keys_ex keys_back) as (_ & _ & _ & _ & _ & _ & Ho).
  - apply (@bool_decide_unpack _ (Permutation_dec _ _)). by vm_compute.
  - apply (@bool_decide_unpack _ (Permutation_dec _ _)). by vm_compute.
  - destruct Ho as (H0 & H1 & _); [reflexivity | reflexivity | apply answers_200_w200 |].
    rewrite H0, H1. split; reflexivity.
Defined.

(** ** [Print] and its separators *)

Lemma append_length (a b : string) :
  String.length (a +:+ b) = (String.length a + String.length b)%nat.
Proof. induction a as [|x a IH]; [done|]. rewrite append_cons. simpl. by rewrite IH. Qed.

Lemma bytes_of_string_inj s t : bytes_of_string s = bytes_of_string t → s = t.
Proof.
  intros H. rewrite <- (string_of_bytes_of_string s), <- (string_of_bytes_of_string t).
  by rewrite H.
Qed.

(** X13. [Print] escapes nothing: a closing brace and a space in the
    labels or in the value are written as they are, so different records
    have the same body.  What follows [} ] in the labels may as well be the
    beginning of the value. *)
Theorem Print_escapes_nothing (ts lat lon elev m l x v : string) :
  Print (mkGTS ts lat lon elev m (l +:+ "} " +:+ x) v)
  = Print (mkGTS ts lat lon elev m l (x +:+ "} " +:+ v)) ∧
  mkGTS ts lat lon elev m (l +:+ "} " +:+ x) v
  ≠ mkGTS ts lat lon elev m l (x +:+ "} " +:+ v).
Proof.
  split.
  - unfold Print. simpl. f_equal. do 10 f_equal.
    rewrite !append_assoc. reflexivity.
  - intros [= H _]. apply (f_equal String.length) in H.
    rewrite !append_length in H. simpl in H. lia.
Qed.

Lemma append_sep_inj c (s1 s2 r1 r2 : string) :
  has_char c s1 = false → has_char c s2 = false →
  s1 +:+ String c r1 = s2 +:+ String c r2 → s1 = s2 ∧ r1 = r2.
Proof.
  revert s2. induction s1 as [|a s1 IH]; intros [|d s2] H1 H2 E.
  - by injection E as ->.
  - exfalso. rewrite append_cons in E. injection E as -> _.
    simpl in H2. by rewrite Ascii.eqb_refl in H2.
  - exfalso. rewrite append_cons in E. injection E as -> _.
    simpl in H1. by rewrite Ascii.eqb_refl in H1.
  - rewrite !append_cons in E. injection E as -> E.
    simpl in H1, H2. apply orb_false_elim in H1 as [_ H1].
    apply orb_false_elim in H2 as [_ H2].
    destruct (IH s2 H1 H2 E) as [-> ->]. done.
Qed.

(** X14. On records none of whose fields holds the separator written
    after it ([/] after the timestamp and the longitude, [:] after the
    latitude, a space after the elevation, the braces after the name and
    the labels), [Print] is one to one: the body tells the record. *)
Theorem Print_injective_when_separated (a b : GTS) :
  separated a → separated b → Print a = Print b → a = b.
Proof.
  intros (A1 & A2 & A3 & A4 & A5 & A6) (B1 & B2 & B3 & B4 & B5 & B6) H.
  apply bytes_of_string_inj in H.
  destruct a as [ts lat lon elev m l v], b as [ts' lat' lon' elev' m' l' v'].
  simpl in *.
  apply (append_sep_inj "/" ts ts') in H as [-> H]; [|done|done].
  apply (append_sep_inj ":" lat lat') in H as [-> H]; [|done|done].
  apply (append_sep_inj "/" lon lon') in H as [-> H]; [|done|done].
  apply (append_sep_inj " " elev elev') in H as [-> H]; [|done|done].
  apply (append_sep_inj "{" m m') in H as [-> H]; [|done|done].
  apply (append_sep_inj "}" l l') in H as [-> H]; [|done|done].
  change (String " " v = String " " v') in H. by injection H as ->.
Qed.

Lemma Print_injective_when_separated_witness :
  record000 q_ex "kd" (mkTorqueKey "speed" "type=sensor")
  = mkGTS "100" "45.0" "3.0" "12345" "speed" "id=7,type=sensor" "87".
Proof.
  apply Print_injective_when_separated;
    [repeat split; reflexivity | repeat split; reflexivity | reflexivity].
Defined.

(** ** The response writer *)

(** X15. A handler writes to the caller last, or not at all: on any world,
    when [query] of [unnamed/part_000] or [unnamed/part_001] panics, no
    header, no status and no byte of body have been written, and [query] of
    [main.go] never writes anything, however it ends. *)
Theorem nothing_written_before_a_panic (g0 : Part000.globals) (g1 : Part001.globals)
    (gm : MainGo.globals) (w : World) (q : Values) (keys : list string) :
  (∀ p, (Part000.query g0 w q keys state0).1 = Panic p →
        same_writer state0 (Part000.query g0 w q keys state0).2) ∧
  (∀ p, (Part001.query g1 w q keys state0).1 = Panic p →
        same_writer state0 (Part001.query g1 w q keys state0).2) ∧
  same_writer state0 (MainGo.query gm w q keys state0).2.
Proof.
  split; [|split].
  - intros p. destruct (stringInSlice (Get q "eml") (Part000.users g0)) eqn:H1.
    { by rewrite query000_listed. }
    destruct (no_gps q) eqn:H2.
    { by rewrite query000_no_gps. }
    rewrite query000_open by done. rewrite bind_run.
    set (st1 := mkState _ _ _ _ _).
    destruct (loop000_continues g0 w q keys st1) as [n [_ Hw]].
    destruct (loop000 g0 w q keys st1) as [[[]|p'|c] st2]; simpl in *; done.
  - intros p. destruct (no_gps q || bool_decide (Get q "eml" = Part001.user g1)) eqn:H.
    { by rewrite query001_closed. }
    rewrite query001_open by done. rewrite bind_run.
    set (st1 := mkState _ _ _ _ _).
    destruct (loop001_continues g1 w q keys st1) as [n [_ Hw]].
    destruct (loop001 g1 w q keys st1) as [[[]|p'|c] st2]; simpl in *; done.
  - by destruct (query_main_continues gm w q keys state0) as [n [_ Hw]].
Qed.

Lemma nothing_written_before_a_panic_witness :
  same_writer state0 (Part000.query g000_ex w500 q_ex keys_ex state0).2 ∧
  same_writer state0 (Part001.query g001_ex w_down q_ex keys_ex state0).2.
Proof.
  destruct (nothing_written_before_a_panic g000_ex g001_ex gmain_ex w500 q_ex keys_ex)
    as (H0 & _ & _).
  destruct (nothing_written_before_a_panic g000_ex g001_ex gmain_ex w_down q_ex keys_ex)
    as (_ & H1 & _).
  split; [eapply H0 | eapply H1]; reflexivity.
Defined.
